(** * ocserv_exporter: the session correlation engine and its classifier

    A shallow embedding of [internal/collector] (the [Collector] that keeps
    the session, disconnect and worker-context tables and writes the
    Prometheus vectors) and of [internal/parser] (the regular-expression
    classifier of log lines), with the properties of the specification
    stated and proved over them, followed by further properties of the two
    packages: the shape of what [Parse] returns, the frame of every handler,
    invariants of the tables and of the vectors along runs, and what the
    sweeper keeps.

    Conventions of the embedding.
    - A Go [map[string]*T] is a [gmap string T]. Every pointer stored in a
      table is created by the handler that stores it and is reachable from
      one key only, so an update through the pointer is an update of the
      entry under that key.
    - [for k, v := range m] visits the keys in an order Go leaves open. A
      loop takes the visiting order as a list of keys and reads the entry
      under each key from the current map, as the Go runtime does (an entry
      deleted before it is reached is not produced). Statements about a loop
      quantify over the order.
    - [time.Time] is a number of nanoseconds since the epoch and
      [time.Duration] a number of nanoseconds, with the saturation of
      [Time.Sub] written out.
    - The Prometheus vectors are one registry from (vector, label values) to
      the value of the child. The client library keeps float64 values; they
      are integers here (increments by one and sums of byte counts are exact
      in float64 below 2^53). *)

From Stdlib Require Import ZArith Ascii String List Lia.
From stdpp Require Import base decidable countable gmap strings list fin_maps pretty.

Local Open Scope string_scope.
Local Open Scope list_scope.
Local Open Scope Z_scope.

(** ** package time *)

Module time.

Definition Time := Z.
Definition Duration := Z.

Definition Second : Duration := 1000000000.
Definition Minute : Duration := 60 * Second.
Definition Hour : Duration := 60 * Minute.

Definition minDuration : Duration := - 2 ^ 63.
Definition maxDuration : Duration := 2 ^ 63 - 1.

(** [t.Sub(u)]: the difference, saturated to the range of [Duration]. *)
Definition Sub (t u : Time) : Duration :=
  let d := t - u in
  if d <? minDuration then minDuration
  else if maxDuration <? d then maxDuration
  else d.

(** [t.Unix()]: whole seconds since the epoch. *)
Definition Unix (t : Time) : Z := t / Second.

End time.

(** ** package parser: events *)

Inductive EventType :=
| EventUnknown
| EventUserLogin
| EventUserDisconnect
| EventSessionStart
| EventSessionInvalidate
| EventVPNIPAssigned
| EventAuthFailed
| EventByePacket
| EventDPDWarning
| EventSecModClose.

#[global] Instance EventType_eq_dec : EqDecision EventType.
Proof. solve_decision. Defined.

Module Event.
Record t := mk {
  Type_ : EventType;
  Timestamp : time.Time;
  Server : string;
  Username : string;
  ClientIP : string;
  Port : Z;
  VpnIP : string;
  SessionID : string;
  Reason : string;
  RxBytes : Z;
  TxBytes : Z;
  Raw : string;
  DPDSeconds : Z
}.
End Event.

(** ** package strconv (Go standard library), base 10 on a 64-bit target *)

Module strconv.

(** The [Err] of a [*NumError]. *)
Inductive NumError := ErrSyntax | ErrRange.

Definition maxUint64 : Z := 2 ^ 64 - 1.
Definition maxInt64 : Z := 2 ^ 63 - 1.

Definition isDigit (ch : ascii) : bool :=
  (48 <=? Z.of_N (N_of_ascii ch)) && (Z.of_N (N_of_ascii ch) <=? 57).

Definition digitVal (ch : ascii) : Z := Z.of_N (N_of_ascii ch) - 48.

(** The loop of [ParseUint(s, 10, 64)], [n] being the value read so far:
    a byte that is not a digit is a syntax error (result 0); [n >= cutoff],
    or a wrap-around of [n*10 + d] in 64 bits, is a range error (result
    [maxUint64]). *)
Fixpoint parseUintLoop (s : list ascii) (n : Z) : Z * option NumError :=
  match s with
  | [] => (n, None)
  | ch :: s' =>
      if negb (isDigit ch) then (0, Some ErrSyntax)
      else if maxUint64 / 10 + 1 <=? n then (maxUint64, Some ErrRange)
      else
        let n := n * 10 in
        let n1 := (n + digitVal ch) mod 2 ^ 64 in
        if (n1 <? n) || (maxUint64 <? n1) then (maxUint64, Some ErrRange)
        else parseUintLoop s' n1
  end.

(** [strconv.ParseUint(s, 10, 64)] *)
Definition ParseUint (s : string) : Z * option NumError :=
  match list_ascii_of_string s with
  | [] => (0, Some ErrSyntax)
  | cs => parseUintLoop cs 0
  end.

(** [strconv.ParseInt(s, 10, 64)] *)
Definition ParseInt (s : string) : Z * option NumError :=
  match list_ascii_of_string s with
  | [] => (0, Some ErrSyntax)
  | ch :: rest =>
      let neg := Ascii.eqb ch "-" in
      let digits := if Ascii.eqb ch "+" || neg then rest else ch :: rest in
      let '(un, err) := ParseUint (string_of_list_ascii digits) in
      match err with
      | Some ErrSyntax => (0, Some ErrSyntax)
      | _ =>
          let cutoff := 2 ^ 63 in
          if negb neg && (cutoff <=? un) then (cutoff - 1, Some ErrRange)
          else if neg && (cutoff <? un) then (- cutoff, Some ErrRange)
          else (if neg then - un else un, None)
      end
  end.

(** [strconv.Atoi(s)]: [int] has 64 bits on the targets of this program
    (linux/amd64), where [Atoi] is [ParseInt(s, 10, 0)]; its fast path for
    short strings returns the same results. *)
Definition Atoi (s : string) : Z * option NumError := ParseInt s.

End strconv.

(** ** package regexp (Go standard library), the fragment the parser uses *)

Module regexp.

(** A character class: the bytes listed and the byte ranges, or with [neg]
    every other byte. The classes of the parser name ASCII bytes only, so
    matching bytes and matching UTF-8 code points agree. *)
Record Class := mkClass {
  neg : bool;
  singles : list ascii;
  ranges : list (ascii * ascii)
}.

Definition inClass (cl : Class) (ch : ascii) : bool :=
  let listed :=
    existsb (Ascii.eqb ch) (singles cl)
    || existsb (λ r, (N_of_ascii (fst r) <=? N_of_ascii ch)%N
                     && (N_of_ascii ch <=? N_of_ascii (snd r))%N) (ranges cl) in
  if neg cl then negb listed else listed.

Inductive Regexp :=
| Lit (s : string)                  (* literal text *)
| Rep (min : nat) (cl : Class)      (* [cl]* for min 0, [cl]+ for min 1, greedy *)
| Cap (i : nat) (r : Regexp)        (* the i-th capturing group *)
| Opt (r : Regexp)                  (* (?:r)?, greedy *)
| Seq (r1 r2 : Regexp).

Fixpoint stripPrefix (p input : list ascii) : option (list ascii) :=
  match p, input with
  | [], _ => Some input
  | a :: p', b :: input' => if Ascii.eqb a b then stripPrefix p' input' else None
  | _ :: _, [] => None
  end.

(** The longest run first, then shorter ones. *)
Fixpoint matchRep {R} (cl : Class) (min : nat) (input : list ascii)
    (k : list ascii → option R) : option R :=
  let stop := match min with O => k input | S _ => None end in
  match input with
  | ch :: rest =>
      if inClass cl ch then
        match matchRep cl (pred min) rest k with
        | Some res => Some res
        | None => stop
        end
      else stop
  | [] => stop
  end.

(** The text consumed between [input] and its suffix [rest]. *)
Definition consumed (input rest : list ascii) : string :=
  string_of_list_ascii (take (length input - length rest) input).

(** A backtracking match of [r] at the start of [input]; [k] continues with
    the rest of the input and the groups captured so far. The first match a
    backtracking search finds is the one Go's leftmost-first matching
    returns. *)
Fixpoint matchHere (r : Regexp) (input : list ascii) (caps : list string)
    (k : list ascii → list string → option (list string))
    : option (list string) :=
  match r with
  | Lit s =>
      match stripPrefix (list_ascii_of_string s) input with
      | Some rest => k rest caps
      | None => None
      end
  | Rep min cl => matchRep cl min input (λ rest, k rest caps)
  | Cap i r' =>
      matchHere r' input caps
        (λ rest caps', k rest (<[i := consumed input rest]> caps'))
  | Opt r' =>
      match matchHere r' input caps k with
      | Some res => Some res
      | None => k input caps
      end
  | Seq r1 r2 =>
      matchHere r1 input caps (λ rest caps', matchHere r2 rest caps' k)
  end.

(** The leftmost match: the start positions are tried from the left. *)
Fixpoint findFrom (r : Regexp) (groups : nat) (input : list ascii)
    : option (list string) :=
  match matchHere r input (replicate (S groups) "")
          (λ rest caps, Some (<[0%nat := consumed input rest]> caps)) with
  | Some res => Some res
  | None =>
      match input with
      | [] => None
      | _ :: input' => findFrom r groups input'
      end
  end.

(** A compiled pattern with the number of its groups. *)
Record Compiled := MustCompile { re : Regexp; numSubexp : nat }.

(** [re.FindStringSubmatch(s)]: [None] is the nil slice; a group that took
    no part in the match is the empty string. *)
Definition FindStringSubmatch (p : Compiled) (s : string) : option (list string) :=
  findFrom (re p) (numSubexp p) (list_ascii_of_string s).

End regexp.

(** ** package parser *)

Import regexp.

Definition notOf (chars : list ascii) : Class := mkClass true chars [].
Definition digit : Class := mkClass false [] [("0"%char, "9"%char)].

(** [(cl+)] as the group [i] *)
Definition group1 (i : nat) (cl : Class) : Regexp := Cap i (Rep 1 cl).

Fixpoint seq (rs : list Regexp) : Regexp :=
  match rs with
  | [] => Lit ""
  | [r] => r
  | r :: rs' => Seq r (seq rs')
  end.

(** pattern: "main\[([^\]]+)\]:([^:]+):(\d+) user logged in" *)
Definition reLogin : Compiled :=
  MustCompile
    (seq [Lit "main["; group1 1 (notOf ["]"%char]); Lit "]:";
          group1 2 (notOf [":"%char]); Lit ":"; group1 3 digit;
          Lit " user logged in"]) 3.

(** pattern: "main\[([^\]]+)\]:([^:]+):(\d+) user disconnected \(reason: ([^,]+), rx: (\d+), tx: (\d+)\)" *)
Definition reDisconnect : Compiled :=
  MustCompile
    (seq [Lit "main["; group1 1 (notOf ["]"%char]); Lit "]:";
          group1 2 (notOf [":"%char]); Lit ":"; group1 3 digit;
          Lit " user disconnected (reason: "; group1 4 (notOf [","%char]);
          Lit ", rx: "; group1 5 digit; Lit ", tx: "; group1 6 digit; Lit ")"]) 6.

(** pattern: "sec-mod: initiating session for user '([^']+)' \(session: ([^)]+)\)" *)
Definition reSessionStart : Compiled :=
  MustCompile
    (seq [Lit "sec-mod: initiating session for user '";
          group1 1 (notOf ["'"%char]); Lit "' (session: ";
          group1 2 (notOf [")"%char]); Lit ")"]) 2.

(** pattern: "sec-mod: invalidating session of user '([^']+)' \(session: ([^)]+)\)" *)
Definition reSessionInvalidate : Compiled :=
  MustCompile
    (seq [Lit "sec-mod: invalidating session of user '";
          group1 1 (notOf ["'"%char]); Lit "' (session: ";
          group1 2 (notOf [")"%char]); Lit ")"]) 2.

(** pattern: "worker\[([^\]]+)\]: [^ ]+ sending IPv4 ([0-9.]+)" *)
Definition reVPNIP : Compiled :=
  MustCompile
    (seq [Lit "worker["; group1 1 (notOf ["]"%char]); Lit "]: ";
          Rep 1 (notOf [" "%char]); Lit " sending IPv4 ";
          group1 2 (mkClass false ["."%char] [("0"%char, "9"%char)])]) 2.

(** pattern: "main", an optional "[" group 1 "]" where group 1 is any run,
    possibly empty, of bytes other than "]", then
    ":([^:]+):(\d+) failed authentication attempt" *)
Definition reAuthFailed : Compiled :=
  MustCompile
    (seq [Lit "main";
          Opt (seq [Lit "["; Cap 1 (Rep 0 (notOf ["]"%char])); Lit "]"]);
          Lit ":"; group1 2 (notOf [":"%char]); Lit ":"; group1 3 digit;
          Lit " failed authentication attempt"]) 3.

(** pattern: "worker", an optional "[" group 1 "]" where group 1 is any run,
    possibly empty, of bytes other than "]", then
    ": ([^ ]+) failed cookie authentication attempt" *)
Definition reCookieAuthFailed : Compiled :=
  MustCompile
    (seq [Lit "worker";
          Opt (seq [Lit "["; Cap 1 (Rep 0 (notOf ["]"%char])); Lit "]"]);
          Lit ": "; group1 2 (notOf [" "%char]);
          Lit " failed cookie authentication attempt"]) 2.

(** pattern: "worker\[([^\]]+)\]: ([^ ]+) received BYE packet" *)
Definition reByePacket : Compiled :=
  MustCompile
    (seq [Lit "worker["; group1 1 (notOf ["]"%char]); Lit "]: ";
          group1 2 (notOf [" "%char]); Lit " received BYE packet"]) 2.

(** pattern: "worker\[([^\]]+)\]: ([^ ]+) have not received TCP DPD for long \((\d+) secs\)" *)
Definition reDPDWarning : Compiled :=
  MustCompile
    (seq [Lit "worker["; group1 1 (notOf ["]"%char]); Lit "]: ";
          group1 2 (notOf [" "%char]);
          Lit " have not received TCP DPD for long ("; group1 3 digit;
          Lit " secs)"]) 3.

(** pattern: "sec-mod: temporarily closing session for ([^ ]+) \(session: ([^)]+)\)" *)
Definition reSecModClose : Compiled :=
  MustCompile
    (seq [Lit "sec-mod: temporarily closing session for ";
          group1 1 (notOf [" "%char]); Lit " (session: ";
          group1 2 (notOf [")"%char]); Lit ")"]) 2.

(** [matches[i]] *)
Definition sub (matches : list string) (i : nat) : string := nth i matches "".

(** [Parse]: the patterns are tried in this order and the first that matches
    decides the event. The results of [strconv] are assigned whatever the
    error is ([x, _ = strconv...]). *)
Definition Parse (ts : time.Time) (message server : string) : Event.t :=
  let event ty username clientIP port vpnIP sessionID reason rx tx dpd :=
    Event.mk ty ts server username clientIP port vpnIP sessionID reason rx tx
             message dpd in
  (* Try login pattern *)
  match FindStringSubmatch reLogin message with
  | Some matches =>
      event EventUserLogin (sub matches 1) (sub matches 2)
            (fst (strconv.Atoi (sub matches 3))) "" "" "" 0 0 0
  | None =>
  (* Try disconnect pattern *)
  match FindStringSubmatch reDisconnect message with
  | Some matches =>
      event EventUserDisconnect (sub matches 1) (sub matches 2)
            (fst (strconv.Atoi (sub matches 3))) "" "" (sub matches 4)
            (fst (strconv.ParseUint (sub matches 5)))
            (fst (strconv.ParseUint (sub matches 6))) 0
  | None =>
  (* Try session start pattern *)
  match FindStringSubmatch reSessionStart message with
  | Some matches =>
      event EventSessionStart (sub matches 1) "" 0 "" (sub matches 2) "" 0 0 0
  | None =>
  (* Try session invalidate pattern *)
  match FindStringSubmatch reSessionInvalidate message with
  | Some matches =>
      event EventSessionInvalidate (sub matches 1) "" 0 "" (sub matches 2) "" 0 0 0
  | None =>
  (* Try VPN IP pattern *)
  match FindStringSubmatch reVPNIP message with
  | Some matches =>
      event EventVPNIPAssigned (sub matches 1) "" 0 (sub matches 2) "" "" 0 0 0
  | None =>
  (* Try auth failed pattern *)
  match FindStringSubmatch reAuthFailed message with
  | Some matches =>
      event EventAuthFailed (sub matches 1) (sub matches 2)
            (fst (strconv.Atoi (sub matches 3))) "" "" "" 0 0 0
  | None =>
  (* Try cookie auth failed pattern *)
  match FindStringSubmatch reCookieAuthFailed message with
  | Some matches =>
      event EventAuthFailed (sub matches 1) (sub matches 2) 0 "" "" "" 0 0 0
  | None =>
  (* Try BYE packet pattern *)
  match FindStringSubmatch reByePacket message with
  | Some matches =>
      event EventByePacket (sub matches 1) (sub matches 2) 0 "" "" "" 0 0 0
  | None =>
  (* Try DPD warning pattern *)
  match FindStringSubmatch reDPDWarning message with
  | Some matches =>
      event EventDPDWarning (sub matches 1) (sub matches 2) 0 "" "" "" 0 0
            (fst (strconv.Atoi (sub matches 3)))
  | None =>
  (* Try sec-mod close pattern (mobile sleep) *)
  match FindStringSubmatch reSecModClose message with
  | Some matches =>
      event EventSecModClose (sub matches 1) "" 0 "" (sub matches 2) "" 0 0 0
  | None => event EventUnknown "" "" 0 "" "" "" 0 0 0
  end end end end end end end end end end.


(** ** package collector: constants and entities *)

Definition ReconnectWindow : time.Duration := 5 * time.Minute.
(** [ProblematicSessionThreshold = 60.0] seconds. [Duration.Seconds()] is
    [float64(d/Second) + float64(d%Second)/1e9]; it is positive exactly when
    [d] is, and below 60.0 exactly when [d] is below sixty seconds, so the
    two comparisons of [handleDisconnect] are made on the nanoseconds. *)
Definition ProblematicSessionThreshold : time.Duration := 60 * time.Second.
Definition MaxSessionAge : time.Duration := 24 * time.Hour.

Module Session.
Record t := mk {
  Server : string;
  Username : string;
  ClientIP : string;
  Port : Z;
  VpnIP : string;
  Country : string;
  SessionID : string;
  StartTime : time.Time
}.
Definition with_VpnIP (v : string) (s : t) : t :=
  mk (Server s) (Username s) (ClientIP s) (Port s) v (Country s)
     (SessionID s) (StartTime s).
End Session.

Module DisconnectRecord.
Record t := mk {
  Server : string;
  Timestamp : time.Time
}.
End DisconnectRecord.

Module WorkerContext.
Record t := mk {
  Username : string;
  ClientIP : string;
  Server : string;
  HadBye : bool;
  DPDWarning : bool;
  DPDSeconds : Z;
  SecModClose : bool;
  LastUpdate : time.Time
}.
End WorkerContext.

(** ** The metric vectors (package-level variables of [collector]) *)

Inductive Vec :=
| ActiveSessions
| ConnectionsTotal
| DisconnectionsTotal
| ReceivedBytesTotal
| SentBytesTotal
| LastEventTimestamp
| ReconnectsTotal
| ProblematicSessionsTotal
| ConnectionsByCountry
| AuthFailedTotal
| SessionInfo.

#[global] Instance Vec_eq_dec : EqDecision Vec.
Proof. solve_decision. Defined.

Definition Vec_to_nat (v : Vec) : nat :=
  match v with
  | ActiveSessions => 0 | ConnectionsTotal => 1 | DisconnectionsTotal => 2
  | ReceivedBytesTotal => 3 | SentBytesTotal => 4 | LastEventTimestamp => 5
  | ReconnectsTotal => 6 | ProblematicSessionsTotal => 7
  | ConnectionsByCountry => 8 | AuthFailedTotal => 9 | SessionInfo => 10
  end%nat.

Definition Vec_of_nat (n : nat) : option Vec :=
  match n with
  | 0 => Some ActiveSessions | 1 => Some ConnectionsTotal
  | 2 => Some DisconnectionsTotal | 3 => Some ReceivedBytesTotal
  | 4 => Some SentBytesTotal | 5 => Some LastEventTimestamp
  | 6 => Some ReconnectsTotal | 7 => Some ProblematicSessionsTotal
  | 8 => Some ConnectionsByCountry | 9 => Some AuthFailedTotal
  | 10 => Some SessionInfo | _ => None
  end%nat.

#[global] Instance Vec_countable : Countable Vec.
Proof.
  refine (inj_countable Vec_to_nat Vec_of_nat _).
  intros []; reflexivity.
Defined.

(** A child of a vector: the vector and its label values. *)
Definition Child : Type := Vec * list string.

Abbreviation Registry := (gmap Child Z).

(** [vec.WithLabelValues(lvs...)] creates the child at zero when it is not
    there; [value] reads a child that way. *)
Definition value (r : Registry) (v : Vec) (lvs : list string) : Z :=
  default 0 (r !! (v, lvs)).

Definition Add (v : Vec) (lvs : list string) (d : Z) (r : Registry) : Registry :=
  <[(v, lvs) := value r v lvs + d]> r.
Definition Inc (v : Vec) (lvs : list string) (r : Registry) : Registry :=
  Add v lvs 1 r.
Definition Dec (v : Vec) (lvs : list string) (r : Registry) : Registry :=
  Add v lvs (-1) r.
Definition Set_ (v : Vec) (lvs : list string) (x : Z) (r : Registry) : Registry :=
  <[(v, lvs) := x]> r.
Definition DeleteLabelValues (v : Vec) (lvs : list string) (r : Registry) : Registry :=
  delete (v, lvs) r.

(** ** The collector *)

(** [GeoIPResolver.Lookup]: ip to (country, countryCode). *)
Definition GeoIPResolver : Type := string → string * string.

Record Collector := mkCollector {
  sessions : gmap string Session.t;
  lastDisconnects : gmap string DisconnectRecord.t;
  workerContext : gmap string WorkerContext.t;
  geoIP : option GeoIPResolver;
  (** the vectors written by the handlers *)
  registry : Registry;
  (** [SessionDuration]: the observations of each child, newest first *)
  SessionDuration : gmap (list string) (list time.Duration)
}.

Definition set_sessions (m : gmap string Session.t) (c : Collector) :=
  mkCollector m (lastDisconnects c) (workerContext c) (geoIP c)
              (registry c) (SessionDuration c).
Definition set_lastDisconnects (m : gmap string DisconnectRecord.t) (c : Collector) :=
  mkCollector (sessions c) m (workerContext c) (geoIP c)
              (registry c) (SessionDuration c).
Definition set_workerContext (m : gmap string WorkerContext.t) (c : Collector) :=
  mkCollector (sessions c) (lastDisconnects c) m (geoIP c)
              (registry c) (SessionDuration c).
Definition set_registry (r : Registry) (c : Collector) :=
  mkCollector (sessions c) (lastDisconnects c) (workerContext c) (geoIP c)
              r (SessionDuration c).
Definition set_SessionDuration (h : gmap (list string) (list time.Duration))
    (c : Collector) :=
  mkCollector (sessions c) (lastDisconnects c) (workerContext c) (geoIP c)
              (registry c) h.

(** [metric f c]: apply a write to the vectors. *)
Definition metric (f : Registry → Registry) (c : Collector) : Collector :=
  set_registry (f (registry c)) c.

Definition Observe (lvs : list string) (d : time.Duration) (c : Collector) :=
  set_SessionDuration
    (<[lvs := d :: default [] (SessionDuration c !! lvs)]> (SessionDuration c)) c.

Definition New : Collector :=
  mkCollector ∅ ∅ ∅ None ∅ ∅.

Definition SetGeoIPResolver (resolver : GeoIPResolver) (c : Collector) :=
  mkCollector (sessions c) (lastDisconnects c) (workerContext c)
              (Some resolver) (registry c) (SessionDuration c).

(** [fmt.Sprintf("%s:%s", server, username)] *)
Definition userKey (server username : string) : string :=
  server +:+ ":" +:+ username.

(** [fmt.Sprintf("%s:%s:%s", server, username, clientIP)] *)
Definition workerContextKey (server username clientIP : string) : string :=
  server +:+ ":" +:+ username +:+ ":" +:+ clientIP.

(** [fmt.Sprintf("%s:%s:%s:%d", server, username, clientIP, port)] *)
Definition sessionKey (server username clientIP : string) (port : Z) : string :=
  server +:+ ":" +:+ username +:+ ":" +:+ clientIP +:+ ":" +:+ pretty port.

(** [len(key) > 4 && key[:4] == "sid:"] *)
Definition isSidKey (key : string) : bool :=
  (4 <? Z.of_nat (String.length key)) && String.eqb (substring 0 4 key) "sid:".

(** ** Event handlers *)

Definition LookupCountry (c : Collector) (ip : string) : string :=
  match geoIP c with
  | None => ""
  | Some resolver => fst (resolver ip)
  end.

Definition handleLogin (event : Event.t) (c : Collector) : Collector :=
  let userKey := userKey (Event.Server event) (Event.Username event) in
  let sessionKey := sessionKey (Event.Server event) (Event.Username event)
                               (Event.ClientIP event) (Event.Port event) in
  (* Check for reconnect (login within ReconnectWindow of last disconnect) *)
  let c :=
    match lastDisconnects c !! userKey with
    | Some lastDisconnect =>
        if time.Sub (Event.Timestamp event)
                    (DisconnectRecord.Timestamp lastDisconnect) <? ReconnectWindow
        then metric (Inc ReconnectsTotal [Event.Server event; Event.Username event]) c
        else c
    | None => c
    end in
  (* GeoIP lookup for country *)
  let country :=
    match geoIP c with
    | Some resolver => fst (resolver (Event.ClientIP event))
    | None => ""
    end in
  (* Store session *)
  let c :=
    set_sessions
      (<[sessionKey :=
           Session.mk (Event.Server event) (Event.Username event)
                      (Event.ClientIP event) (Event.Port event) "" country ""
                      (Event.Timestamp event)]> (sessions c)) c in
  (* Set session info metric *)
  let c :=
    metric (Set_ SessionInfo
                 [Event.Server event; Event.Username event; ""; country; ""]
                 (time.Unix (Event.Timestamp event))) c in
  (* Update metrics *)
  let c := metric (Inc ActiveSessions [Event.Server event; Event.Username event]) c in
  let c :=
    metric (Inc ConnectionsTotal
                [Event.Server event; Event.Username event; Event.ClientIP event]) c in
  (* ConnectionsByCountry *)
  match geoIP c with
  | Some resolver =>
      if negb (String.eqb country "")
      then metric (Inc ConnectionsByCountry
                       [Event.Server event; Event.Username event; country;
                        snd (resolver (Event.ClientIP event))]) c
      else c
  | None => c
  end.

Definition enrichDisconnectReason (c : Collector)
    (originalReason ctxKey server username : string) : string :=
  let ctx := workerContext c !! ctxKey in
  (* Also check for sec-mod close context (stored with empty ClientIP) *)
  let secModKey := workerContextKey server username "" in
  let secModCtx := workerContext c !! secModKey in
  let flag (f : WorkerContext.t → bool) (o : option WorkerContext.t) : bool :=
    match o with Some x => f x | None => false end in
  if String.eqb originalReason "unspecified error" then
    if flag WorkerContext.SecModClose secModCtx then "mobile sleep"
    else if flag WorkerContext.SecModClose ctx then "mobile sleep"
    else if flag WorkerContext.HadBye ctx then "client bye"
    else if flag WorkerContext.DPDWarning ctx then "dpd issue"
    else originalReason
  else originalReason.

(** [reason != "user disconnected" && reason != "client bye" &&
     reason != "mobile sleep" && reason != ""] *)
Definition isProblematicReason (reason : string) : bool :=
  negb (String.eqb reason "user disconnected")
  && negb (String.eqb reason "client bye")
  && negb (String.eqb reason "mobile sleep")
  && negb (String.eqb reason "").

Definition handleDisconnect (event : Event.t) (c : Collector) : Collector :=
  let userKey := userKey (Event.Server event) (Event.Username event) in
  let key := sessionKey (Event.Server event) (Event.Username event)
                        (Event.ClientIP event) (Event.Port event) in
  let ctxKey := workerContextKey (Event.Server event) (Event.Username event)
                                 (Event.ClientIP event) in
  (* the locals [sessionExists] and [duration] after the lookup *)
  let found := sessions c !! key in
  let sessionExists := match found with Some _ => true | None => false end in
  let duration :=
    match found with
    | Some session => time.Sub (Event.Timestamp event) (Session.StartTime session)
    | None => 0
    end in
  let c :=
    match found with
    | Some session =>
        let c :=
          if 0 <? duration
          then Observe [Event.Server event; Event.Username event] duration c
          else c in
        (* Remove session info metric *)
        let c :=
          metric (DeleteLabelValues SessionInfo
                    [Event.Server event; Event.Username event;
                     Session.VpnIP session; Session.Country session; ""]) c in
        set_sessions (delete key (sessions c)) c
    | None => c
    end in
  (* Enrich disconnect reason based on worker context *)
  let reason :=
    enrichDisconnectReason c (Event.Reason event) ctxKey
                           (Event.Server event) (Event.Username event) in
  (* Track problematic sessions (short duration + actual error reason) *)
  let c :=
    if sessionExists && (duration <? ProblematicSessionThreshold)
       && (0 <? duration) && isProblematicReason reason
    then metric (Inc ProblematicSessionsTotal
                     [Event.Server event; Event.Username event; reason]) c
    else c in
  (* Store disconnect time for reconnect detection *)
  let c :=
    set_lastDisconnects
      (<[userKey := DisconnectRecord.mk (Event.Server event) (Event.Timestamp event)]>
         (lastDisconnects c)) c in
  (* only decrement active sessions if we tracked the login *)
  let c :=
    if sessionExists
    then metric (Dec ActiveSessions [Event.Server event; Event.Username event]) c
    else c in
  let c :=
    metric (Inc DisconnectionsTotal
                [Event.Server event; Event.Username event; reason]) c in
  let c :=
    metric (Add ReceivedBytesTotal [Event.Server event; Event.Username event]
                (Event.RxBytes event)) c in
  let c :=
    metric (Add SentBytesTotal [Event.Server event; Event.Username event]
                (Event.TxBytes event)) c in
  (* Clean up worker context after disconnect *)
  let c := set_workerContext (delete ctxKey (workerContext c)) c in
  (* Also clean up sec-mod context (stored with empty ClientIP) *)
  let secModKey := workerContextKey (Event.Server event) (Event.Username event) "" in
  set_workerContext (delete secModKey (workerContext c)) c.

Definition handleSessionStart (event : Event.t) (c : Collector) : Collector :=
  (* Store session by ID for potential future use *)
  set_sessions
    (<["sid:" +:+ Event.Server event +:+ ":" +:+ Event.SessionID event :=
         Session.mk (Event.Server event) (Event.Username event) "" 0 "" ""
                    (Event.SessionID event) (Event.Timestamp event)]>
       (sessions c)) c.

(** The body of the loop of [handleVPNIP] for a session that matches. *)
Definition assignVPNIP (event : Event.t) (key : string) (session : Session.t)
    (c : Collector) : Collector :=
  let c :=
    metric (DeleteLabelValues SessionInfo
              [Session.Server session; Session.Username session; "";
               Session.Country session; ""]) c in
  let session := Session.with_VpnIP (Event.VpnIP event) session in
  let c := set_sessions (<[key := session]> (sessions c)) c in
  metric (Set_ SessionInfo
            [Session.Server session; Session.Username session;
             Session.VpnIP session; Session.Country session; ""]
            (time.Unix (Session.StartTime session))) c.

(** [session.Username == event.Username && session.Server == event.Server &&
     session.VpnIP == ""] *)
Definition wantsVPNIP (event : Event.t) (session : Session.t) : bool :=
  String.eqb (Session.Username session) (Event.Username event)
  && String.eqb (Session.Server session) (Event.Server event)
  && String.eqb (Session.VpnIP session) "".

(** [for _, session := range c.sessions { if ... { ...; break } }], the
    sessions visited in the order [order]. *)
Fixpoint handleVPNIP (order : list string) (event : Event.t) (c : Collector)
    : Collector :=
  match order with
  | [] => c
  | key :: order' =>
      match sessions c !! key with
      | Some session =>
          if wantsVPNIP event session
          then assignVPNIP event key session c (* break *)
          else handleVPNIP order' event c
      | None => handleVPNIP order' event c
      end
  end.

Definition handleAuthFailed (event : Event.t) (c : Collector) : Collector :=
  let '(country, countryCode) :=
    match geoIP c with
    | Some resolver =>
        let '(country, countryCode) := resolver (Event.ClientIP event) in
        (if String.eqb country "" then "Unknown" else country, countryCode)
    | None => ("Unknown", "")
    end in
  metric (Inc AuthFailedTotal
              [Event.Server event; Event.Username event; Event.ClientIP event;
               country; countryCode]) c.

Definition getOrCreateWorkerContext (key : string) (event : Event.t)
    (c : Collector) : WorkerContext.t * Collector :=
  match workerContext c !! key with
  | Some ctx => (ctx, c)
  | None =>
      let ctx := WorkerContext.mk (Event.Username event) (Event.ClientIP event)
                   (Event.Server event) false false 0 false
                   (Event.Timestamp event) in
      (ctx, set_workerContext (<[key := ctx]> (workerContext c)) c)
  end.

Definition handleByePacket (event : Event.t) (c : Collector) : Collector :=
  let key := workerContextKey (Event.Server event) (Event.Username event)
                              (Event.ClientIP event) in
  let '(ctx, c) := getOrCreateWorkerContext key event c in
  (* ctx.HadBye = true; ctx.LastUpdate = event.Timestamp, through the pointer *)
  let ctx :=
    WorkerContext.mk (WorkerContext.Username ctx) (WorkerContext.ClientIP ctx)
      (WorkerContext.Server ctx) true (WorkerContext.DPDWarning ctx)
      (WorkerContext.DPDSeconds ctx) (WorkerContext.SecModClose ctx)
      (Event.Timestamp event) in
  set_workerContext (<[key := ctx]> (workerContext c)) c.

Definition handleDPDWarning (event : Event.t) (c : Collector) : Collector :=
  let key := workerContextKey (Event.Server event) (Event.Username event)
                              (Event.ClientIP event) in
  let '(ctx, c) := getOrCreateWorkerContext key event c in
  let ctx :=
    WorkerContext.mk (WorkerContext.Username ctx) (WorkerContext.ClientIP ctx)
      (WorkerContext.Server ctx) (WorkerContext.HadBye ctx) true
      (Event.DPDSeconds event) (WorkerContext.SecModClose ctx)
      (Event.Timestamp event) in
  set_workerContext (<[key := ctx]> (workerContext c)) c.

(** The first loop of [handleSecModClose]: every context of this user is
    marked, the contexts visited in the order [order]. *)
Fixpoint markSecModClose (order : list string) (event : Event.t)
    (m : gmap string WorkerContext.t) : gmap string WorkerContext.t :=
  match order with
  | [] => m
  | key :: order' =>
      let m :=
        match m !! key with
        | Some ctx =>
            if String.eqb (WorkerContext.Username ctx) (Event.Username event)
               && String.eqb (WorkerContext.Server ctx) (Event.Server event)
            then
              <[key := WorkerContext.mk (WorkerContext.Username ctx)
                         (WorkerContext.ClientIP ctx) (WorkerContext.Server ctx)
                         (WorkerContext.HadBye ctx) (WorkerContext.DPDWarning ctx)
                         (WorkerContext.DPDSeconds ctx) true
                         (Event.Timestamp event)]> m
            else m
        | None => m
        end in
      markSecModClose order' event m
  end.

Definition handleSecModClose (order : list string) (event : Event.t)
    (c : Collector) : Collector :=
  let c := set_workerContext (markSecModClose order event (workerContext c)) c in
  (* If no existing context, create one with empty ClientIP *)
  let key := workerContextKey (Event.Server event) (Event.Username event) "" in
  match workerContext c !! key with
  | Some _ => c
  | None =>
      set_workerContext
        (<[key := WorkerContext.mk (Event.Username event) "" (Event.Server event)
                    false false 0 true (Event.Timestamp event)]>
           (workerContext c)) c
  end.

(** [ProcessEvent]. [order] is the order in which the one [range] loop of
    the handler that runs (if it has one) visits its table. The [switch] has
    no case for [EventSessionInvalidate] (nor for [EventUnknown]). *)
Definition ProcessEvent (order : list string) (event : Event.t)
    (c : Collector) : Collector :=
  (* Update last event timestamp *)
  let c := metric (Set_ LastEventTimestamp [] (time.Unix (Event.Timestamp event))) c in
  match Event.Type_ event with
  | EventUserLogin => handleLogin event c
  | EventUserDisconnect => handleDisconnect event c
  | EventSessionStart => handleSessionStart event c
  | EventVPNIPAssigned => handleVPNIP order event c
  | EventAuthFailed => handleAuthFailed event c
  | EventByePacket => handleByePacket event c
  | EventDPDWarning => handleDPDWarning event c
  | EventSecModClose => handleSecModClose order event c
  | EventSessionInvalidate | EventUnknown => c
  end.

(** ** The sweeper: [CleanupOldDisconnects] *)

(** [for key, record := range c.lastDisconnects { if ... { delete } }] *)
Fixpoint sweepDisconnects (now : time.Time) (order : list string)
    (m : gmap string DisconnectRecord.t) : gmap string DisconnectRecord.t :=
  match order with
  | [] => m
  | key :: order' =>
      let m :=
        match m !! key with
        | Some record =>
            if ReconnectWindow * 2 <? time.Sub now (DisconnectRecord.Timestamp record)
            then delete key m else m
        | None => m
        end in
      sweepDisconnects now order' m
  end.

(** [for key, ctx := range c.workerContext { if ... { delete } }] *)
Fixpoint sweepContexts (now : time.Time) (order : list string)
    (m : gmap string WorkerContext.t) : gmap string WorkerContext.t :=
  match order with
  | [] => m
  | key :: order' =>
      let m :=
        match m !! key with
        | Some ctx =>
            if ReconnectWindow * 2 <? time.Sub now (WorkerContext.LastUpdate ctx)
            then delete key m else m
        | None => m
        end in
      sweepContexts now order' m
  end.

(** [now.Sub(session.StartTime) > MaxSessionAge] *)
Definition isStale (now : time.Time) (session : Session.t) : bool :=
  MaxSessionAge <? time.Sub now (Session.StartTime session).

(** [for key, session := range c.sessions { ... }] *)
Fixpoint sweepSessions (now : time.Time) (order : list string) (c : Collector)
    : Collector :=
  match order with
  | [] => c
  | key :: order' =>
      let c :=
        match sessions c !! key with
        | Some session =>
            (* Skip session ID entries (they have different lifecycle) *)
            if isSidKey key then c
            else if isStale now session then
              let c :=
                metric (DeleteLabelValues SessionInfo
                          [Session.Server session; Session.Username session;
                           Session.VpnIP session; Session.Country session; ""]) c in
              let c :=
                metric (Dec ActiveSessions
                            [Session.Server session; Session.Username session]) c in
              set_sessions (delete key (sessions c)) c
            else c
        | None => c
        end in
      sweepSessions now order' c
  end.

(** The three visiting orders of one pass of the sweeper. *)
Record SweepOrder := mkSweepOrder {
  orderDisconnects : list string;
  orderContexts : list string;
  orderSessions : list string
}.

(** [now] is the value of [time.Now()] read by the pass. *)
Definition CleanupOldDisconnects (now : time.Time) (o : SweepOrder)
    (c : Collector) : Collector :=
  let c := set_lastDisconnects
             (sweepDisconnects now (orderDisconnects o) (lastDisconnects c)) c in
  let c := set_workerContext
             (sweepContexts now (orderContexts o) (workerContext c)) c in
  sweepSessions now (orderSessions o) c.

(** The orders in which Go can visit a table: every key of the table, once. *)
Definition visits {V} (order : list string) (m : gmap string V) : Prop :=
  NoDup order ∧ list_to_set order =@{gset string} dom m.

(** [ProcessLogLine]: a line that no pattern matches is dropped. *)
Definition ProcessLogLine (order : list string) (ts : time.Time)
    (message server : string) (c : Collector) : Collector :=
  let event := Parse ts message server in
  if decide (Event.Type_ event = EventUnknown) then c
  else ProcessEvent order event c.

(** ** [GetActiveSessions] *)

(** [len(k) > 4 && k[:4] != "sid:"] *)
Definition isCounted (key : string) : bool :=
  (4 <? Z.of_nat (String.length key))
  && negb (String.eqb (substring 0 4 key) "sid:").

(** [for k := range c.sessions { if ... { count++ } }], the keys visited in
    the order [order]. *)
Fixpoint countSessions (order : list string) (c : Collector) (count : Z) : Z :=
  match order with
  | [] => count
  | key :: order' =>
      let count :=
        match sessions c !! key with
        | Some _ => if isCounted key then count + 1 else count
        | None => count
        end in
      countSessions order' c count
  end.

Definition GetActiveSessions (order : list string) (c : Collector) : Z :=
  countSessions order c 0.

(** ** Runs of the collector *)

(** What the collector is asked to do: process an event (the order is the
    one its [range] loop takes) or run one pass of the sweeper at a time
    [now]. *)
Inductive Action :=
| Process (order : list string) (event : Event.t)
| Sweep (now : time.Time) (o : SweepOrder).

Definition step (c : Collector) (a : Action) : Collector :=
  match a with
  | Process order event => ProcessEvent order event c
  | Sweep now o => CleanupOldDisconnects now o c
  end.

Definition run (actions : list Action) (c : Collector) : Collector :=
  fold_left step actions c.

(** ** The inputs of the running exporter *)

(** What the main loop hands to the collector: a log line of a unit, read
    at [ts] (the order is the one the [range] loop of its handler takes), or
    a tick of the sweeper at the time [now]. *)
Inductive Input :=
| Line (order : list string) (ts : time.Time) (message server : string)
| Tick (now : time.Time) (o : SweepOrder).

Definition feed (c : Collector) (i : Input) : Collector :=
  match i with
  | Line order ts message server => ProcessLogLine order ts message server c
  | Tick now o => CleanupOldDisconnects now o c
  end.

Definition feedAll (inputs : list Input) (c : Collector) : Collector :=
  fold_left feed inputs c.

(** Events for the examples. *)
Definition exampleLogin (at_ : time.Time) : Event.t :=
  Event.mk EventUserLogin at_ "ocserv" "u" "1.2.3.4" 30595 "" "" "" 0 0 "" 0.

Definition exampleDisconnect (reason : string) (at_ : time.Time) : Event.t :=
  Event.mk EventUserDisconnect at_ "ocserv" "u" "1.2.3.4" 30595 "" "" reason
           100 200 "" 0.

(** * The vocabulary of the properties *)

(** ** Disconnect reasons and problematic sessions *)

(** The flag [f] is set in the worker context stored under [key]. *)
Definition flagged (f : WorkerContext.t → bool) (c : Collector) (key : string)
    : Prop :=
  ∃ ctx, workerContext c !! key = Some ctx ∧ f ctx = true.

#[global] Instance flagged_dec f c key : Decision (flagged f c key).
Proof.
  unfold flagged. destruct (workerContext c !! key) as [ctx|] eqn:E.
  - destruct (f ctx) eqn:F.
    + left. eauto.
    + right. intros (x & [= <-] & Hx). congruence.
  - right. intros (x & [=] & _).
Defined.

(** The value of the local [reason] of [handleDisconnect]: the handler calls
    [enrichDisconnectReason] after it removed the session and before it
    touches the worker contexts, so the contexts read are those the collector
    had when the event arrived. *)
Definition enrichedReason (event : Event.t) (c : Collector) : string :=
  enrichDisconnectReason c (Event.Reason event)
    (workerContextKey (Event.Server event) (Event.Username event)
                      (Event.ClientIP event))
    (Event.Server event) (Event.Username event).

(** The session lasted more than zero and less than sixty seconds, the
    duration being the event timestamp minus the start time. *)
Definition shortLived (event : Event.t) (session : Session.t) : Prop :=
  0 < Event.Timestamp event - Session.StartTime session < 60 * time.Second.

(** The reasons that are not errors. *)
Definition benign (reason : string) : Prop :=
  reason = "user disconnected" ∨ reason = "client bye"
  ∨ reason = "mobile sleep" ∨ reason = "".

(** A session is stored under the primary key of the event, it was short
    lived, and the enriched reason is an error. *)
Definition problematic (event : Event.t) (c : Collector) : Prop :=
  (∃ session,
      sessions c !! sessionKey (Event.Server event) (Event.Username event)
                               (Event.ClientIP event) (Event.Port event)
      = Some session
      ∧ shortLived event session)
  ∧ ¬ benign (enrichedReason event c).

(** The condition under which [handleDisconnect] counts a problematic
    session, as a boolean over the state the handler starts from. *)
Definition countsProblematic (event : Event.t) (c : Collector) : bool :=
  match sessions c !! sessionKey (Event.Server event) (Event.Username event)
                                 (Event.ClientIP event) (Event.Port event) with
  | Some session =>
      let duration := time.Sub (Event.Timestamp event) (Session.StartTime session) in
      (duration <? ProblematicSessionThreshold) && (0 <? duration)
      && isProblematicReason (enrichedReason event c)
  | None => false
  end.

(** ** Reconnects *)

(** A disconnect record is stored for the user of the event and the login
    comes less than five minutes after it (the difference of the two
    timestamps, which may be negative). *)
Definition recentDisconnect (event : Event.t) (c : Collector) : Prop :=
  ∃ record,
    lastDisconnects c !! userKey (Event.Server event) (Event.Username event)
    = Some record
    ∧ Event.Timestamp event - DisconnectRecord.Timestamp record < 5 * time.Minute.

(** The test of [handleLogin]. *)
Definition isReconnect (event : Event.t) (c : Collector) : bool :=
  match lastDisconnects c !! userKey (Event.Server event) (Event.Username event) with
  | Some lastDisconnect =>
      time.Sub (Event.Timestamp event) (DisconnectRecord.Timestamp lastDisconnect)
      <? ReconnectWindow
  | None => false
  end.



(** ** Gauges and their entries *)

(** The children of a vector. *)
Definition children (v : Vec) (r : Registry) : Registry :=
  filter (λ kv, kv.1.1 = v) r.

(** The label values of the active-session gauge of a session, and those of
    its "session info" entry. *)
Definition activeLabels (session : Session.t) : list string :=
  [Session.Server session; Session.Username session].

Definition infoLabels (session : Session.t) : list string :=
  [Session.Server session; Session.Username session; Session.VpnIP session;
   Session.Country session; ""].

(** ** The two key spaces of the session table *)

(** The key of the secondary space: "sid:" + partition + ":" + identifier. *)
Definition sidKey (server sessionID : string) : string :=
  "sid:" +:+ server +:+ ":" +:+ sessionID.



(** An order that visits a table and starts at a given key of it. *)
Definition startingAt {V} (key : string) (m : gmap string V) : list string :=
  key :: elements (dom m ∖ {[key]}).

(** ** Stale sessions *)

(** The sessions a pass evicts: stored under a key the sweeper does not
    skip, and older than [MaxSessionAge]. *)
Definition evictable (now : time.Time) (ks : string * Session.t) : Prop :=
  isSidKey ks.1 = false ∧ isStale now ks.2 = true.

#[global] Instance evictable_dec now ks : Decision (evictable now ks).
Proof. unfold evictable. apply _. Defined.

(** The sessions a pass in the order [order] evicts whose active-session
    gauge is the child [lv]. *)
Definition evictedOf (now : time.Time) (order : list string) (lv : list string)
    (m : gmap string Session.t) : gmap string Session.t :=
  filter (λ ks, ks.1 ∈ order ∧ evictable now ks ∧ activeLabels ks.2 = lv) m.

(** The sessions stored under a key the sweeper does not skip, older than
    [MaxSessionAge], whose active-session gauge is the child [lv]. *)
Definition staleOf (now : time.Time) (lv : list string)
    (m : gmap string Session.t) : gmap string Session.t :=
  filter (λ ks, evictable now ks ∧ activeLabels ks.2 = lv) m.

(** ** Numbers and matches of the parser *)

(** The number a run of decimal digits writes, continuing from [n]. *)
Fixpoint decimalFrom (s : list ascii) (n : Z) : Z :=
  match s with
  | [] => n
  | ch :: s' => decimalFrom s' (n * 10 + strconv.digitVal ch)
  end.

Definition decimal (s : string) : Z := decimalFrom (list_ascii_of_string s) 0.

(** A non-empty run of decimal digits, as a group [(\d+)] captures. *)
Definition digits (s : string) : Prop :=
  s ≠ "" ∧ Forall (λ ch, strconv.isDigit ch = true) (list_ascii_of_string s).

(** [reach r input caps rest caps']: [r] matches a prefix of [input] that
    leaves [rest], turning the groups [caps] into [caps']. *)
Fixpoint reach (r : Regexp) (input : list ascii) (caps : list string)
    (rest : list ascii) (caps' : list string) : Prop :=
  match r with
  | Lit s => input = list_ascii_of_string s ++ rest ∧ caps' = caps
  | Rep min cl =>
      ∃ text, input = text ++ rest
              ∧ Forall (λ ch, inClass cl ch = true) text
              ∧ (min ≤ length text)%nat ∧ caps' = caps
  | Cap i r' =>
      ∃ caps0, reach r' input caps rest caps0
               ∧ caps' = <[i := consumed input rest]> caps0
  | Opt r' => reach r' input caps rest caps' ∨ (rest = input ∧ caps' = caps)
  | Seq r1 r2 =>
      ∃ mid caps0, reach r1 input caps mid caps0 ∧ reach r2 mid caps0 rest caps'
  end.

(** The patterns of the parser, in the order in which [Parse] tries them. *)
Definition patterns : list Compiled :=
  [reLogin; reDisconnect; reSessionStart; reSessionInvalidate; reVPNIP;
   reAuthFailed; reCookieAuthFailed; reByePacket; reDPDWarning; reSecModClose].

(** ** The texts a group captures *)

(** Every byte of [s] is in the class [cl]. *)
Definition within (cl : Class) (s : string) : Prop :=
  Forall (λ ch, inClass cl ch = true) (list_ascii_of_string s).

(** A non-empty text of bytes of the class [cl], as a group [([cl]+)] captures. *)
Definition fieldOf (cl : Class) (s : string) : Prop := s ≠ "" ∧ within cl s.

(** The byte [c] does not occur in [s]. *)
Definition lacks (c : ascii) (s : string) : Prop :=
  ¬ In c (list_ascii_of_string s).

(** The class of the group of [reVPNIP] that takes the address. *)
Definition dotted : Class := mkClass false ["."%char] [("0"%char, "9"%char)].

(** The class [cl] cannot take the first byte of [rest]: a greedy repetition
    of [cl] ends there. *)
Definition stopsAt (cl : Class) (rest : list ascii) : Prop :=
  match rest with
  | [] => True
  | ch :: _ => inClass cl ch = false
  end.

(** ** Hints for a later Disconnect *)

(** The context [getOrCreateWorkerContext] returns for an event: the one
    stored under [key], or a fresh one of the event. *)
Definition contextOf (key : string) (event : Event.t) (c : Collector)
    : WorkerContext.t :=
  default (WorkerContext.mk (Event.Username event) (Event.ClientIP event)
             (Event.Server event) false false 0 false (Event.Timestamp event))
          (workerContext c !! key).

(** The events that only leave a hint for a later Disconnect. *)
Definition isHint (ty : EventType) : bool :=
  match ty with
  | EventByePacket | EventDPDWarning | EventSecModClose => true
  | _ => false
  end.

(** The event [d] is about the connection of the event [e]. *)
Definition sameConnection (e d : Event.t) : Prop :=
  Event.Server d = Event.Server e ∧ Event.Username d = Event.Username e
  ∧ Event.ClientIP d = Event.ClientIP e.

(** ** The vectors an event can write *)

(** The vectors the handler of an event of the kind [ty] writes to, apart
    from the timestamp of the last event. *)
Definition written (ty : EventType) : list Vec :=
  match ty with
  | EventUserLogin =>
      [ReconnectsTotal; SessionInfo; ActiveSessions; ConnectionsTotal;
       ConnectionsByCountry]
  | EventUserDisconnect =>
      [SessionInfo; ProblematicSessionsTotal; ActiveSessions; DisconnectionsTotal;
       ReceivedBytesTotal; SentBytesTotal]
  | EventVPNIPAssigned => [SessionInfo]
  | EventAuthFailed => [AuthFailedTotal]
  | _ => []
  end.

(** The children of the vectors outside [vs] are the same in [r] and [r']. *)
Definition onlyWrites (vs : list Vec) (r r' : Registry) : Prop :=
  ∀ v lvs, v ∉ vs → r' !! (v, lvs) = r !! (v, lvs).

(** The counter vectors (the others are gauges). *)
Definition isCounter (v : Vec) : bool :=
  match v with
  | ActiveSessions | LastEventTimestamp | SessionInfo => false
  | _ => true
  end.

(** No child of a counter vector is lower in [r'] than in [r]. *)
Definition grows (r r' : Registry) : Prop :=
  ∀ v lvs, isCounter v = true → value r v lvs ≤ value r' v lvs.

(** ** Where the entries of the session table come from *)

(** The session a Login stores, and the entry a SessionStart stores. *)
Definition loginSession (event : Event.t) (c : Collector) : Session.t :=
  Session.mk (Event.Server event) (Event.Username event) (Event.ClientIP event)
             (Event.Port event) "" (LookupCountry c (Event.ClientIP event)) ""
             (Event.Timestamp event).

Definition startEntry (event : Event.t) : Session.t :=
  Session.mk (Event.Server event) (Event.Username event) "" 0 "" ""
             (Event.SessionID event) (Event.Timestamp event).

(** How the entry [s'] under the key [k] came to be there after the action
    [a]: it was there before, or it is the entry before with the VPN IP of
    the action, or the action is the Login or the SessionStart that stored
    it. *)
Definition origin (a : Action) (c : Collector) (k : string) (s' : Session.t)
    : Prop :=
  sessions c !! k = Some s'
  ∨ match a with
    | Process _ event =>
        match Event.Type_ event with
        | EventVPNIPAssigned =>
            ∃ s, sessions c !! k = Some s ∧ wantsVPNIP event s = true
                 ∧ s' = Session.with_VpnIP (Event.VpnIP event) s
        | EventUserLogin =>
            k = sessionKey (Event.Server event) (Event.Username event)
                           (Event.ClientIP event) (Event.Port event)
            ∧ s' = loginSession event c
        | EventSessionStart =>
            k = sidKey (Event.Server event) (Event.SessionID event)
            ∧ s' = startEntry event
        | _ => False
        end
    | Sweep _ _ => False
    end.

(** The events [e] and [d] name the same session: partition, user, address
    and port. *)
Definition sameSession (e d : Event.t) : Prop :=
  Event.Server d = Event.Server e ∧ Event.Username d = Event.Username e
  ∧ Event.ClientIP d = Event.ClientIP e ∧ Event.Port d = Event.Port e.

(** ** Tables keyed by their entries *)

(** Every entry is stored under the key its own fields spell: a session
    under its primary key (and then it has no session identifier) or under
    its key of the secondary space (and then it has no address, port or
    country), a worker context under the key of its partition, user and
    address, a disconnect record under a key of its partition. *)
Definition keyed (c : Collector) : Prop :=
  (∀ k s, sessions c !! k = Some s →
     (k = sessionKey (Session.Server s) (Session.Username s) (Session.ClientIP s)
                     (Session.Port s)
      ∧ Session.SessionID s = "")
     ∨ (k = sidKey (Session.Server s) (Session.SessionID s)
        ∧ Session.ClientIP s = "" ∧ Session.Port s = 0 ∧ Session.Country s = ""))
  ∧ (∀ k ctx, workerContext c !! k = Some ctx →
       k = workerContextKey (WorkerContext.Server ctx) (WorkerContext.Username ctx)
                            (WorkerContext.ClientIP ctx))
  ∧ (∀ k record, lastDisconnects c !! k = Some record →
       ∃ username, k = userKey (DisconnectRecord.Server record) username).

(** * Properties *)

(** ** Reading the registry *)

Lemma value_Add_eq (v : Vec) (lvs : list string) (d : Z) (r : Registry) :
  value (Add v lvs d r) v lvs = value r v lvs + d.
Proof. unfold Add, value. by rewrite lookup_insert_eq. Qed.

Lemma lookup_Add_ne (v : Vec) (lvs : list string) (d : Z) (r : Registry) (k : Child) :
  k ≠ (v, lvs) → Add v lvs d r !! k = r !! k.
Proof. intros Hk. unfold Add. by rewrite lookup_insert_ne. Qed.

Lemma value_Add_ne (v : Vec) (lvs : list string) (d : Z) (r : Registry) (v' : Vec)
    (lvs' : list string) :
  (v', lvs') ≠ (v, lvs) → value (Add v lvs d r) v' lvs' = value r v' lvs'.
Proof. intros Hk. unfold value. by rewrite lookup_Add_ne. Qed.

Lemma lookup_Set_ne (v : Vec) (lvs : list string) (x : Z) (r : Registry) (k : Child) :
  k ≠ (v, lvs) → Set_ v lvs x r !! k = r !! k.
Proof. intros Hk. unfold Set_. by rewrite lookup_insert_ne. Qed.

Lemma lookup_Delete_ne (v : Vec) (lvs : list string) (r : Registry) (k : Child) :
  k ≠ (v, lvs) → DeleteLabelValues v lvs r !! k = r !! k.
Proof. intros Hk. unfold DeleteLabelValues. by rewrite lookup_delete_ne. Qed.

Lemma value_Set_ne (v : Vec) (lvs : list string) (x : Z) (r : Registry) (v' : Vec)
    (lvs' : list string) :
  (v', lvs') ≠ (v, lvs) → value (Set_ v lvs x r) v' lvs' = value r v' lvs'.
Proof. intros Hk. unfold value. by rewrite lookup_Set_ne. Qed.

Lemma value_Delete_ne (v : Vec) (lvs : list string) (r : Registry) (v' : Vec)
    (lvs' : list string) :
  (v', lvs') ≠ (v, lvs) → value (DeleteLabelValues v lvs r) v' lvs' = value r v' lvs'.
Proof. intros Hk. unfold value. by rewrite lookup_Delete_ne. Qed.

(** Writes to other vectors do not change what is read from a vector. *)
Ltac other_vec :=
  repeat first
    [ rewrite lookup_Add_ne by (intros ?; simplify_eq)
    | rewrite lookup_Set_ne by (intros ?; simplify_eq)
    | rewrite lookup_Delete_ne by (intros ?; simplify_eq)
    | rewrite value_Add_ne by (intros ?; simplify_eq)
    | rewrite value_Set_ne by (intros ?; simplify_eq)
    | rewrite value_Delete_ne by (intros ?; simplify_eq) ].

Ltac unfold_state :=
  unfold metric, Inc, Dec, Observe, set_registry, set_sessions,
    set_lastDisconnects, set_workerContext, set_SessionDuration in *; simpl in *.

(** ** Saturation of [Time.Sub] does not change the comparisons made *)

Lemma Sub_ltb (t u bound : Z) :
  time.minDuration < bound ≤ time.maxDuration →
  (time.Sub t u <? bound) = (t - u <? bound).
Proof.
  unfold time.Sub, time.minDuration, time.maxDuration. intros Hb. simpl.
  repeat case_match; lia.
Qed.

Lemma ltb_Sub (t u bound : Z) :
  time.minDuration ≤ bound < time.maxDuration →
  (bound <? time.Sub t u) = (bound <? t - u).
Proof.
  unfold time.Sub, time.minDuration, time.maxDuration. intros Hb. simpl.
  repeat case_match; lia.
Qed.

(** ** C1: enrichment of the disconnect reason *)

Lemma flag_true_iff f c key :
  match workerContext c !! key with Some x => f x | None => false end = true
  ↔ flagged f c key.
Proof.
  unfold flagged. destruct (workerContext c !! key) as [x|]; split.
  - eauto.
  - by intros (y & [= <-] & ?).
  - done.
  - by intros (y & [=] & _).
Qed.

(** C1. The enriched reason of a Disconnect event. A raw reason other than
    "unspecified error" is returned unchanged. For "unspecified error" the
    worker contexts under the key of (partition, username, clientIP) and under
    the IP-less key of (partition, username, "") are consulted in a fixed
    order: a session-manager-pause flag on either entry gives "mobile sleep";
    otherwise a bye-packet flag (read on the entry of the client IP) gives
    "client bye"; otherwise a dpd-warning flag (same entry) gives "dpd issue";
    otherwise the raw reason is returned. With pause and bye both set the
    result is "mobile sleep" and not "client bye". *)
Theorem C1_enriched_reason_priority (event : Event.t) (c : Collector) :
  let ipKey := workerContextKey (Event.Server event) (Event.Username event)
                                (Event.ClientIP event) in
  let userOnlyKey := workerContextKey (Event.Server event) (Event.Username event) "" in
  let paused := flagged WorkerContext.SecModClose c ipKey
                ∨ flagged WorkerContext.SecModClose c userOnlyKey in
  let bye := flagged WorkerContext.HadBye c ipKey in
  let dpd := flagged WorkerContext.DPDWarning c ipKey in
  let reason := enrichedReason event c in
  (Event.Reason event ≠ "unspecified error" → reason = Event.Reason event)
  ∧ (Event.Reason event = "unspecified error" →
       (paused → reason = "mobile sleep")
       ∧ (¬ paused → bye → reason = "client bye")
       ∧ (¬ paused → ¬ bye → dpd → reason = "dpd issue")
       ∧ (¬ paused → ¬ bye → ¬ dpd → reason = Event.Reason event))
  ∧ (Event.Reason event = "unspecified error" → paused → bye →
       reason = "mobile sleep" ∧ reason ≠ "client bye").
Proof.
  intros ipKey userOnlyKey paused bye dpd reason.
  assert (Hraw : Event.Reason event ≠ "unspecified error" →
                 reason = Event.Reason event).
  { intros Hne. subst reason. unfold enrichedReason, enrichDisconnectReason.
    destruct (String.eqb_spec (Event.Reason event) "unspecified error"); done. }
  assert (Hsent : Event.Reason event = "unspecified error" →
       (paused → reason = "mobile sleep")
       ∧ (¬ paused → bye → reason = "client bye")
       ∧ (¬ paused → ¬ bye → dpd → reason = "dpd issue")
       ∧ (¬ paused → ¬ bye → ¬ dpd → reason = Event.Reason event)).
  { intros Heq. subst reason paused bye dpd.
    unfold enrichedReason, enrichDisconnectReason. fold ipKey userOnlyKey.
    rewrite Heq. simpl String.eqb. cbv iota.
    pose proof (flag_true_iff WorkerContext.SecModClose c userOnlyKey) as Hs.
    pose proof (flag_true_iff WorkerContext.SecModClose c ipKey) as Hp.
    pose proof (flag_true_iff WorkerContext.HadBye c ipKey) as Hb.
    pose proof (flag_true_iff WorkerContext.DPDWarning c ipKey) as Hd.
    destruct (match workerContext c !! userOnlyKey with
              | Some x => WorkerContext.SecModClose x | None => false end);
    destruct (match workerContext c !! ipKey with
              | Some x => WorkerContext.SecModClose x | None => false end);
    destruct (match workerContext c !! ipKey with
              | Some x => WorkerContext.HadBye x | None => false end);
    destruct (match workerContext c !! ipKey with
              | Some x => WorkerContext.DPDWarning x | None => false end);
    repeat split; intros; try done;
    try (exfalso; intuition congruence). }
  split; [done|]. split; [done|].
  intros Heq Hp _. destruct (Hsent Heq) as [Hm _].
  rewrite (Hm Hp). done.
Qed.

(** The example of the specification: with the pause and the bye flag both
    set, "unspecified error" becomes "mobile sleep"; with the bye flag alone,
    "client bye"; another raw reason is kept. *)
Example enrich_pause_before_bye :
  let bye := Event.mk EventByePacket 1 "ocserv" "u" "1.2.3.4" 0 "" "" "" 0 0 "" 0 in
  let pause := Event.mk EventSecModClose 2 "ocserv" "u" "" 0 "" "u7N/JC" "" 0 0 "" 0 in
  let both := run [Process [] bye; Process ["ocserv:u:1.2.3.4"] pause] New in
  let byeOnly := run [Process [] bye] New in
  enrichedReason (exampleDisconnect "unspecified error" 3) both = "mobile sleep"
  ∧ enrichedReason (exampleDisconnect "unspecified error" 3) byeOnly = "client bye"
  ∧ enrichedReason (exampleDisconnect "server shutdown" 3) both = "server shutdown".
Proof. repeat split; vm_compute; reflexivity. Qed.

Lemma enrichDisconnectReason_contexts (c1 c2 : Collector) raw ctxKey server username :
  workerContext c1 = workerContext c2 →
  enrichDisconnectReason c1 raw ctxKey server username
  = enrichDisconnectReason c2 raw ctxKey server username.
Proof. intros H. unfold enrichDisconnectReason. by rewrite H. Qed.

(** ** C2: problematic sessions *)

Lemma isProblematicReason_spec reason :
  isProblematicReason reason = true ↔ ¬ benign reason.
Proof.
  unfold isProblematicReason, benign.
  rewrite !andb_true_iff, !negb_true_iff.
  destruct (String.eqb_spec reason "user disconnected");
  destruct (String.eqb_spec reason "client bye");
  destruct (String.eqb_spec reason "mobile sleep");
  destruct (String.eqb_spec reason ""); intuition congruence.
Qed.

Lemma shortLived_spec event session :
  let duration := time.Sub (Event.Timestamp event) (Session.StartTime session) in
  (duration <? ProblematicSessionThreshold) && (0 <? duration) = true
  ↔ shortLived event session.
Proof.
  unfold shortLived, ProblematicSessionThreshold. simpl.
  rewrite Sub_ltb, ltb_Sub by (vm_compute; intuition congruence).
  rewrite andb_true_iff, !Z.ltb_lt. lia.
Qed.

Lemma countsProblematic_spec event c :
  countsProblematic event c = true ↔ problematic event c.
Proof.
  unfold countsProblematic, problematic.
  destruct (sessions c !! _) as [session|] eqn:E.
  - rewrite andb_true_iff, isProblematicReason_spec.
    pose proof (shortLived_spec event session) as Hs. simpl in Hs. rewrite Hs.
    split.
    + intros [? ?]. split; [eauto|done].
    + intros [(s & [= <-] & ?) ?]. done.
  - split; [done|]. intros [(s & [=] & _) _].
Qed.

(** What [handleDisconnect] leaves in the children of
    [ProblematicSessionsTotal]. *)
Lemma handleDisconnect_problematic_children event c lvs :
  registry (handleDisconnect event c) !! (ProblematicSessionsTotal, lvs)
  = if countsProblematic event c
    then Inc ProblematicSessionsTotal
           [Event.Server event; Event.Username event; enrichedReason event c]
           (registry c) !! (ProblematicSessionsTotal, lvs)
    else registry c !! (ProblematicSessionsTotal, lvs).
Proof.
  unfold handleDisconnect, countsProblematic, enrichedReason.
  destruct (sessions c !! _) as [session|] eqn:E.
  - erewrite (enrichDisconnectReason_contexts _ c) by (by destruct (0 <? _)).
    set (reason := enrichDisconnectReason c _ _ _ _).
    set (duration := time.Sub _ _).
    simpl.
    destruct (duration <? ProblematicSessionThreshold), (0 <? duration),
      (isProblematicReason reason); unfold_state; other_vec;
      unfold Add, value; simpl;
      destruct (decide (lvs = [Event.Server event; Event.Username event; reason]))
        as [->|Hne];
      rewrite ?lookup_insert_eq, ?lookup_insert_ne by congruence;
      other_vec; try done.
  - set (reason := enrichDisconnectReason c _ _ _ _).
    unfold_state. other_vec. done.
Qed.

(** C2. A Disconnect event increments the problematic-session counter (the
    child of [ProblematicSessionsTotal] labelled by partition, username and
    enriched reason, by one, no other child of that vector changing) exactly
    when a session is stored under the primary key, its duration (event
    timestamp minus start time) is more than 0 and less than 60 seconds, and
    the enriched reason is none of "user disconnected", "client bye",
    "mobile sleep" and the empty string. In every other case (no session,
    duration at most 0, duration at least 60 s, or one of those reasons) no
    child of the vector changes. *)
Theorem C2_problematic_counter (event : Event.t) (c : Collector) :
  let key := sessionKey (Event.Server event) (Event.Username event)
                        (Event.ClientIP event) (Event.Port event) in
  let reason := enrichedReason event c in
  let counted := [Event.Server event; Event.Username event; reason] in
  let r := registry c in
  let r' := registry (handleDisconnect event c) in
  let unchanged := ∀ lvs, r' !! (ProblematicSessionsTotal, lvs)
                          = r !! (ProblematicSessionsTotal, lvs) in
  (problematic event c →
     value r' ProblematicSessionsTotal counted
     = value r ProblematicSessionsTotal counted + 1
     ∧ ∀ lvs, lvs ≠ counted →
         r' !! (ProblematicSessionsTotal, lvs) = r !! (ProblematicSessionsTotal, lvs))
  ∧ (¬ problematic event c → unchanged)
  ∧ (sessions c !! key = None → unchanged)
  ∧ (∀ session, sessions c !! key = Some session →
       Event.Timestamp event - Session.StartTime session ≤ 0 → unchanged)
  ∧ (∀ session, sessions c !! key = Some session →
       60 * time.Second ≤ Event.Timestamp event - Session.StartTime session →
       unchanged)
  ∧ (benign reason → unchanged).
Proof.
  intros key reason counted r r' unchanged.
  assert (Hno : ¬ problematic event c → unchanged).
  { intros Hn lvs. subst r r'. rewrite handleDisconnect_problematic_children.
    destruct (countsProblematic event c) eqn:Hc; [|done].
    apply countsProblematic_spec in Hc. done. }
  split; [|split; [done|repeat split]].
  - intros Hp. apply countsProblematic_spec in Hp.
    split.
    + unfold value. subst r r'. rewrite handleDisconnect_problematic_children, Hp.
      unfold Inc. fold (value (Add ProblematicSessionsTotal counted 1 (registry c))
                              ProblematicSessionsTotal counted).
      apply value_Add_eq.
    + intros lvs Hne. subst r r'.
      rewrite handleDisconnect_problematic_children, Hp.
      unfold Inc. apply lookup_Add_ne. intros [= ->]. done.
  - intros Hnone. apply Hno. intros [(s & Hs & _) _]. subst key. congruence.
  - intros session Hs Hd. apply Hno. intros [(s & Hs' & Hshort) _].
    subst key. unfold shortLived in Hshort. simplify_eq. lia.
  - intros session Hs Hd. apply Hno. intros [(s & Hs' & Hshort) _].
    subst key. unfold shortLived in Hshort. simplify_eq. lia.
  - intros Hb. apply Hno. intros [_ Hnb]. done.
Qed.

(** The examples of the specification: 45 s with "dpd issue" is counted,
    45 s with "client bye" is not, 120 s with an error reason is not. *)
Example problematic_45s_dpd_issue :
  let c := handleLogin (exampleLogin 0) New in
  let c' := handleDisconnect (exampleDisconnect "dpd issue" (45 * time.Second)) c in
  value (registry c') ProblematicSessionsTotal ["ocserv"; "u"; "dpd issue"] = 1.
Proof. vm_compute. reflexivity. Qed.

Example problematic_45s_client_bye :
  let c := handleLogin (exampleLogin 0) New in
  let c' := handleDisconnect (exampleDisconnect "client bye" (45 * time.Second)) c in
  value (registry c') ProblematicSessionsTotal ["ocserv"; "u"; "client bye"] = 0.
Proof. vm_compute. reflexivity. Qed.

Example problematic_120s_error :
  let c := handleLogin (exampleLogin 0) New in
  let c' := handleDisconnect (exampleDisconnect "dpd issue" (120 * time.Second)) c in
  value (registry c') ProblematicSessionsTotal ["ocserv"; "u"; "dpd issue"] = 0.
Proof. vm_compute. reflexivity. Qed.

(** ** Runs and the table of disconnect records *)

Lemma run_snoc actions a c : run (actions ++ [a]) c = step (run actions c) a.
Proof. unfold run. by rewrite fold_left_app. Qed.

Lemma handleLogin_lastDisconnects event c :
  lastDisconnects (handleLogin event c) = lastDisconnects c.
Proof.
  unfold handleLogin.
  destruct (lastDisconnects c !! _) as [rec|]; [destruct (_ <? _)|];
    simpl; destruct (geoIP c); simpl; try destruct (negb _); done.
Qed.

Lemma handleDisconnect_lastDisconnects event c :
  lastDisconnects (handleDisconnect event c)
  = <[userKey (Event.Server event) (Event.Username event) :=
        DisconnectRecord.mk (Event.Server event) (Event.Timestamp event)]>
      (lastDisconnects c).
Proof.
  unfold handleDisconnect.
  destruct (sessions c !! _) as [session|]; simpl.
  - destruct (0 <? _); simpl; destruct (_ && _); simpl; done.
  - done.
Qed.

Lemma assignVPNIP_lastDisconnects event key session c :
  lastDisconnects (assignVPNIP event key session c) = lastDisconnects c.
Proof. done. Qed.

Lemma handleVPNIP_lastDisconnects order event c :
  lastDisconnects (handleVPNIP order event c) = lastDisconnects c.
Proof.
  induction order as [|key order IH]; simpl; [done|].
  destruct (sessions c !! key) as [session|]; [|done].
  destruct (wantsVPNIP event session); done.
Qed.

Lemma handleAuthFailed_lastDisconnects event c :
  lastDisconnects (handleAuthFailed event c) = lastDisconnects c.
Proof.
  unfold handleAuthFailed. destruct (geoIP c) as [resolver|]; [|done].
  destruct (resolver _) as [country code]. done.
Qed.

Lemma handleByePacket_lastDisconnects event c :
  lastDisconnects (handleByePacket event c) = lastDisconnects c.
Proof.
  unfold handleByePacket, getOrCreateWorkerContext.
  destruct (workerContext c !! _); done.
Qed.

Lemma handleDPDWarning_lastDisconnects event c :
  lastDisconnects (handleDPDWarning event c) = lastDisconnects c.
Proof.
  unfold handleDPDWarning, getOrCreateWorkerContext.
  destruct (workerContext c !! _); done.
Qed.

Lemma handleSecModClose_lastDisconnects order event c :
  lastDisconnects (handleSecModClose order event c) = lastDisconnects c.
Proof.
  unfold handleSecModClose. simpl. destruct (markSecModClose _ _ _ !! _); done.
Qed.

(** Only a Disconnect event writes a disconnect record, under its user key. *)
Lemma ProcessEvent_lastDisconnects order event c k :
  (Event.Type_ event = EventUserDisconnect →
   userKey (Event.Server event) (Event.Username event) ≠ k) →
  lastDisconnects (ProcessEvent order event c) !! k = lastDisconnects c !! k.
Proof.
  intros Hk. unfold ProcessEvent. destruct (Event.Type_ event).
  - done.
  - by rewrite handleLogin_lastDisconnects.
  - rewrite handleDisconnect_lastDisconnects. simpl.
    rewrite lookup_insert_ne; [done|]. by apply Hk.
  - done.
  - done.
  - by rewrite handleVPNIP_lastDisconnects.
  - by rewrite handleAuthFailed_lastDisconnects.
  - by rewrite handleByePacket_lastDisconnects.
  - by rewrite handleDPDWarning_lastDisconnects.
  - by rewrite handleSecModClose_lastDisconnects.
Qed.

Lemma sweepDisconnects_lookup now order (m : gmap string DisconnectRecord.t) k :
  sweepDisconnects now order m !! k
  = match m !! k with
    | Some record =>
        if bool_decide (k ∈ order)
           && (ReconnectWindow * 2 <? time.Sub now (DisconnectRecord.Timestamp record))
        then None else Some record
    | None => None
    end.
Proof.
  revert m. induction order as [|key order IH]; intros m; simpl.
  - by destruct (m !! k).
  - rewrite IH. destruct (decide (k = key)) as [->|Hne].
    + rewrite (bool_decide_eq_true_2 (key ∈ key :: order)) by (apply list_elem_of_here).
      destruct (m !! key) as [record|] eqn:E; [|by rewrite E].
      destruct (_ <? _) eqn:Hold.
      * by rewrite lookup_delete_eq.
      * rewrite E, Hold. by rewrite andb_false_r.
    + assert (bool_decide (k ∈ key :: order) = bool_decide (k ∈ order)) as ->.
      { apply bool_decide_ext. rewrite elem_of_cons. split; [by intros [?|?]|by right]. }
      destruct (m !! key) as [record|] eqn:E; [|done].
      destruct (_ <? _); [|done]. by rewrite lookup_delete_ne.
Qed.

Lemma sweepSessions_lastDisconnects now order c :
  lastDisconnects (sweepSessions now order c) = lastDisconnects c.
Proof.
  revert c. induction order as [|key order IH]; intros c; simpl; [done|].
  rewrite IH. destruct (sessions c !! key) as [session|]; [|done].
  destruct (isSidKey key); [done|]. destruct (isStale now session); done.
Qed.


(** ** C3: reconnects *)

Lemma isReconnect_spec event c :
  isReconnect event c = true ↔ recentDisconnect event c.
Proof.
  unfold isReconnect, recentDisconnect.
  destruct (lastDisconnects c !! _) as [record|].
  - rewrite Sub_ltb by (vm_compute; intuition congruence).
    rewrite Z.ltb_lt. unfold ReconnectWindow. split.
    + eauto.
    + by intros (r & [= <-] & ?).
  - split; [done|]. by intros (r & [=] & _).
Qed.









(** A Login four minutes after the Disconnect of the same user is counted
    once; a Login six minutes after it is not counted. *)
Example reconnect_within_window :
  let d := exampleDisconnect "user disconnected" 0 in
  let near := run [Process [] d; Process [] (exampleLogin (4 * time.Minute))] New in
  let far := run [Process [] d; Process [] (exampleLogin (6 * time.Minute))] New in
  value (registry near) ReconnectsTotal ["ocserv"; "u"] = 1
  ∧ value (registry far) ReconnectsTotal ["ocserv"; "u"] = 0.
Proof. split; vm_compute; reflexivity. Qed.

(** ** C4: what a Disconnect event does *)

(** The writes of [handleDisconnect] to the vectors, in the order in which
    the handler makes them. *)
Lemma handleDisconnect_registry event c :
  let labels := [Event.Server event; Event.Username event] in
  let reason := enrichedReason event c in
  let found := sessions c !! sessionKey (Event.Server event) (Event.Username event)
                                        (Event.ClientIP event) (Event.Port event) in
  registry (handleDisconnect event c)
  = Add SentBytesTotal labels (Event.TxBytes event)
      (Add ReceivedBytesTotal labels (Event.RxBytes event)
         (Inc DisconnectionsTotal [Event.Server event; Event.Username event; reason]
            ((match found with Some _ => Dec ActiveSessions labels | None => id end)
               ((if countsProblematic event c
                 then Inc ProblematicSessionsTotal [Event.Server event; Event.Username event; reason] else id)
                  (match found with
                   | Some session =>
                       DeleteLabelValues SessionInfo
                         [Event.Server event; Event.Username event;
                          Session.VpnIP session; Session.Country session; ""]
                         (registry c)
                   | None => registry c
                   end))))).
Proof.
  unfold handleDisconnect, countsProblematic, enrichedReason. simpl.
  destruct (sessions c !! _) as [session|] eqn:E.
  - erewrite (enrichDisconnectReason_contexts _ c) by (by destruct (0 <? _)).
    set (reason := enrichDisconnectReason c _ _ _ _).
    set (duration := time.Sub _ _). simpl.
    destruct (duration <? ProblematicSessionThreshold), (0 <? duration),
      (isProblematicReason reason); done.
  - done.
Qed.

Lemma handleDisconnect_sessions event c :
  sessions (handleDisconnect event c)
  = delete (sessionKey (Event.Server event) (Event.Username event)
                       (Event.ClientIP event) (Event.Port event)) (sessions c).
Proof.
  unfold handleDisconnect.
  destruct (sessions c !! _) as [session|] eqn:E; simpl.
  - destruct (0 <? _); simpl; destruct (_ && _); simpl; done.
  - by rewrite delete_id.
Qed.

Lemma handleDisconnect_workerContext event c :
  workerContext (handleDisconnect event c)
  = delete (workerContextKey (Event.Server event) (Event.Username event) "")
      (delete (workerContextKey (Event.Server event) (Event.Username event)
                                (Event.ClientIP event)) (workerContext c)).
Proof.
  unfold handleDisconnect.
  destruct (sessions c !! _) as [session|] eqn:E; simpl.
  - destruct (0 <? _); simpl; destruct (_ && _); simpl; done.
  - done.
Qed.







(** The round trip of the specification: Login, VpnIpAssigned, Disconnect
    leaves the session table empty and no "session info" entry, adds 100 and
    200 to the byte totals and records one duration. *)
Example login_vpn_disconnect_round_trip :
  let vpn := Event.mk EventVPNIPAssigned 1 "ocserv" "u" "" 0 "10.0.0.5" "" ""
                      0 0 "" 0 in
  let c := run [Process [] (exampleLogin 0);
                Process ["ocserv:u:1.2.3.4:30595"] vpn;
                Process [] (exampleDisconnect "user disconnected" (90 * time.Second))]
               New in
  sessions c = ∅
  ∧ size (children SessionInfo (registry c)) = 0%nat
  ∧ value (registry c) ActiveSessions ["ocserv"; "u"] = 0
  ∧ value (registry c) ReceivedBytesTotal ["ocserv"; "u"] = 100
  ∧ value (registry c) SentBytesTotal ["ocserv"; "u"] = 200
  ∧ SessionDuration c !! ["ocserv"; "u"] = Some [90 * time.Second].
Proof. repeat split; vm_compute; reflexivity. Qed.

(** ** C9: a Login on a key that already has a session *)

Lemma handleLogin_sessions event c :
  sessions (handleLogin event c)
  = <[sessionKey (Event.Server event) (Event.Username event)
                 (Event.ClientIP event) (Event.Port event) :=
        Session.mk (Event.Server event) (Event.Username event)
                   (Event.ClientIP event) (Event.Port event) ""
                   (LookupCountry c (Event.ClientIP event)) ""
                   (Event.Timestamp event)]> (sessions c).
Proof.
  unfold handleLogin, LookupCountry.
  destruct (lastDisconnects c !! _) as [rec|]; [destruct (_ <? _)|];
    simpl; destruct (geoIP c); simpl; try destruct (negb _); done.
Qed.

(** The writes of [handleLogin] to the vectors, in the order in which the
    handler makes them. *)
Lemma handleLogin_registry event c :
  let labels := [Event.Server event; Event.Username event] in
  let country := LookupCountry c (Event.ClientIP event) in
  registry (handleLogin event c)
  = (match geoIP c with
     | Some resolver =>
         if negb (String.eqb country "")
         then Inc ConnectionsByCountry
                [Event.Server event; Event.Username event; country;
                 snd (resolver (Event.ClientIP event))]
         else id
     | None => id
     end)
      (Inc ConnectionsTotal
         [Event.Server event; Event.Username event; Event.ClientIP event]
         (Inc ActiveSessions labels
            (Set_ SessionInfo
               [Event.Server event; Event.Username event; ""; country; ""]
               (time.Unix (Event.Timestamp event))
               ((if isReconnect event c then Inc ReconnectsTotal labels else id)
                  (registry c))))).
Proof.
  unfold handleLogin, LookupCountry, isReconnect.
  destruct (lastDisconnects c !! _) as [rec|]; [destruct (_ <? _)|];
    simpl; destruct (geoIP c); simpl; try destruct (negb _); done.
Qed.

Lemma handleLogin_active event c :
  let labels := [Event.Server event; Event.Username event] in
  value (registry (handleLogin event c)) ActiveSessions labels
  = value (registry c) ActiveSessions labels + 1.
Proof.
  intros labels. rewrite handleLogin_registry. fold labels.
  destruct (geoIP c); [destruct (negb _)|]; unfold Inc, id; other_vec;
    rewrite value_Add_eq; unfold value; other_vec;
    destruct (isReconnect event c); other_vec; done.
Qed.

Lemma handleLogin_connections event c :
  let labels := [Event.Server event; Event.Username event; Event.ClientIP event] in
  value (registry (handleLogin event c)) ConnectionsTotal labels
  = value (registry c) ConnectionsTotal labels + 1.
Proof.
  intros labels. rewrite handleLogin_registry. fold labels.
  destruct (geoIP c); [destruct (negb _)|]; unfold Inc, id; other_vec;
    rewrite value_Add_eq; unfold value; other_vec;
    destruct (isReconnect event c); other_vec; done.
Qed.

Lemma handleDisconnect_active event c :
  let labels := [Event.Server event; Event.Username event] in
  value (registry (handleDisconnect event c)) ActiveSessions labels
  = value (registry c) ActiveSessions labels
    - (if sessions c !! sessionKey (Event.Server event) (Event.Username event)
                                   (Event.ClientIP event) (Event.Port event)
       is Some _ then 1 else 0).
Proof.
  intros labels. rewrite handleDisconnect_registry. fold labels.
  unfold Inc, Dec, id. other_vec.
  destruct (sessions c !! _); simpl; [rewrite value_Add_eq|];
    destruct (countsProblematic event c); other_vec; lia.
Qed.

(** C9. A Login event whose primary key already has a session leaves the
    size of the session table unchanged: the entry under the key is replaced
    by the session of this login (last login wins) and no other entry
    changes, while the active-session gauge of (partition, username) and the
    total-connection counter of (partition, username, client IP) still go up
    by one. Consequently, after Login, Login, Disconnect on one key the
    session table has no entry for the key and the active-session gauge is
    one above where it started. *)
Theorem C9_login_overwrites (event : Event.t) (c : Collector) :
  let key := sessionKey (Event.Server event) (Event.Username event)
                        (Event.ClientIP event) (Event.Port event) in
  let labels := [Event.Server event; Event.Username event] in
  let c' := handleLogin event c in
  (is_Some (sessions c !! key) →
     size (sessions c') = size (sessions c)
     ∧ sessions c' !! key
       = Some (Session.mk (Event.Server event) (Event.Username event)
                 (Event.ClientIP event) (Event.Port event) ""
                 (LookupCountry c (Event.ClientIP event)) ""
                 (Event.Timestamp event))
     ∧ (∀ k, k ≠ key → sessions c' !! k = sessions c !! k)
     ∧ value (registry c') ActiveSessions labels
       = value (registry c) ActiveSessions labels + 1
     ∧ value (registry c') ConnectionsTotal
             [Event.Server event; Event.Username event; Event.ClientIP event]
       = value (registry c) ConnectionsTotal
               [Event.Server event; Event.Username event; Event.ClientIP event] + 1)
  ∧ (∀ again bye : Event.t,
       Event.Server again = Event.Server event →
       Event.Username again = Event.Username event →
       Event.ClientIP again = Event.ClientIP event →
       Event.Port again = Event.Port event →
       Event.Server bye = Event.Server event →
       Event.Username bye = Event.Username event →
       Event.ClientIP bye = Event.ClientIP event →
       Event.Port bye = Event.Port event →
       let c2 := handleLogin again c' in
       let c3 := handleDisconnect bye c2 in
       is_Some (sessions c' !! key)
       ∧ size (sessions c2) = size (sessions c')
       ∧ sessions c3 !! key = None
       ∧ value (registry c3) ActiveSessions labels
         = value (registry c) ActiveSessions labels + 1).
Proof.
  intros key labels c'. subst c'. split.
  - intros Hsome. split; [|split; [|split; [|split]]].
    + rewrite handleLogin_sessions. by apply map_size_insert_Some.
    + rewrite handleLogin_sessions. apply lookup_insert_eq.
    + intros k Hk. rewrite handleLogin_sessions. by apply lookup_insert_ne.
    + apply handleLogin_active.
    + apply handleLogin_connections.
  - intros again bye Ha1 Ha2 Ha3 Ha4 Hb1 Hb2 Hb3 Hb4 c2 c3.
    assert (Hfirst : is_Some (sessions (handleLogin event c) !! key)).
    { rewrite handleLogin_sessions. fold key. rewrite lookup_insert_eq. eauto. }
    assert (Hkey2 : sessionKey (Event.Server again) (Event.Username again)
                               (Event.ClientIP again) (Event.Port again) = key).
    { subst key. by rewrite Ha1, Ha2, Ha3, Ha4. }
    assert (Hkey3 : sessionKey (Event.Server bye) (Event.Username bye)
                               (Event.ClientIP bye) (Event.Port bye) = key).
    { subst key. by rewrite Hb1, Hb2, Hb3, Hb4. }
    split; [done|]. subst c3 c2. split; [|split].
    + rewrite (handleLogin_sessions again), Hkey2.
      by apply map_size_insert_Some.
    + rewrite handleDisconnect_sessions, Hkey3. apply lookup_delete_eq.
    + pose proof (handleDisconnect_active bye (handleLogin again (handleLogin event c)))
        as Hd.
      pose proof (handleLogin_active again (handleLogin event c)) as Ha.
      pose proof (handleLogin_active event c) as He.
      cbv zeta in Hd, Ha, He.
      rewrite Hkey3, Hb1, Hb2 in Hd. rewrite Ha1, Ha2 in Ha.
      fold labels in Hd, Ha, He. rewrite Hd, Ha, He.
      rewrite (handleLogin_sessions again), Hkey2, lookup_insert_eq. lia.
Qed.

(** C9 on a run: a second Login on the key of the first, then a Disconnect. *)
Lemma C9_login_overwrites_witness :
  let first := exampleLogin 0 in
  let second := exampleLogin (5 * time.Second) in
  let bye := exampleDisconnect "user disconnected" (9 * time.Second) in
  let c := handleLogin first New in
  is_Some (sessions c !! sessionKey "ocserv" "u" "1.2.3.4" 30595)
  ∧ size (sessions (handleLogin second c)) = size (sessions c)
  ∧ value (registry (handleLogin second c)) ActiveSessions ["ocserv"; "u"] = 2
  ∧ sessions (handleDisconnect bye (handleLogin second (handleLogin first New)))
      !! sessionKey "ocserv" "u" "1.2.3.4" 30595 = None
  ∧ value (registry (handleDisconnect bye (handleLogin second (handleLogin first New))))
          ActiveSessions ["ocserv"; "u"] = 1.
Proof.
  intros first second bye c.
  assert (Hsome : is_Some (sessions c !! sessionKey "ocserv" "u" "1.2.3.4" 30595)).
  { vm_compute. eexists. reflexivity. }
  split; [exact Hsome|].
  destruct (C9_login_overwrites second c) as [Hover _].
  destruct (Hover Hsome) as (Hsize & _ & _ & Hactive & _).
  split; [exact Hsize|].
  split; [etrans; [exact Hactive|]; vm_compute; reflexivity|].
  destruct (C9_login_overwrites first New) as [_ Hlld].
  destruct (Hlld second bye eq_refl eq_refl eq_refl eq_refl
                 eq_refl eq_refl eq_refl eq_refl) as (_ & _ & Hgone & Hone).
  split; [exact Hgone|]. etrans; [exact Hone|]. vm_compute. reflexivity.
Defined.

(** ** C5: session-manager lifecycle events *)

(** C5 (amended). Processing a SessionStart event records a session under
    the key "sid:<partition>:<session-identifier>" of the secondary space
    (partition, username, identifier and start time filled in) and changes no
    other entry of any table; the only vector written is the last-event
    gauge. Processing a SessionInvalidate event records nothing: the three
    tables are left as they were, and the only vector written is again the
    last-event gauge. *)
Theorem C5_session_lifecycle (order : list string) (event : Event.t)
    (c : Collector) :
  let c' := ProcessEvent order event c in
  let stamped := Set_ LastEventTimestamp [] (time.Unix (Event.Timestamp event))
                      (registry c) in
  (Event.Type_ event = EventSessionStart →
     sessions c'
     = <[sidKey (Event.Server event) (Event.SessionID event) :=
           Session.mk (Event.Server event) (Event.Username event) "" 0 "" ""
                      (Event.SessionID event) (Event.Timestamp event)]> (sessions c)
     ∧ lastDisconnects c' = lastDisconnects c
     ∧ workerContext c' = workerContext c
     ∧ registry c' = stamped
     ∧ SessionDuration c' = SessionDuration c)
  ∧ (Event.Type_ event = EventSessionInvalidate →
     sessions c' = sessions c
     ∧ lastDisconnects c' = lastDisconnects c
     ∧ workerContext c' = workerContext c
     ∧ registry c' = stamped
     ∧ SessionDuration c' = SessionDuration c).
Proof.
  intros c' stamped. subst c' stamped. unfold ProcessEvent.
  split; intros ->; done.
Qed.

(** C5 as it was stated fails on every SessionInvalidate event: the
    dispatch of [ProcessEvent] has no case for it, so the event that
    SessionStart would have recorded under "sid:ocserv:yKsy7b" leaves the
    session table empty. *)
Lemma C5_invalidate_not_recorded :
  let event ty := Event.mk ty 0 "ocserv" "a.mogilevich" "" 0 "" "yKsy7b" ""
                           0 0 "" 0 in
  sessions (ProcessEvent [] (event EventSessionStart) New) !! "sid:ocserv:yKsy7b"
  = Some (Session.mk "ocserv" "a.mogilevich" "" 0 "" "" "yKsy7b" 0)
  ∧ sessions (ProcessEvent [] (event EventSessionInvalidate) New) !! "sid:ocserv:yKsy7b"
    = None
  ∧ sessions (ProcessEvent [] (event EventSessionInvalidate) New) = ∅.
Proof. repeat split; vm_compute; reflexivity. Qed.

(** ** The sweeper *)

Lemma visits_elem {V} (order : list string) (m : gmap string V) k v :
  visits order m → m !! k = Some v → k ∈ order.
Proof.
  unfold visits. intros [_ Hv] Hk.
  assert (k ∈ dom m) as Hd by (apply elem_of_dom; eauto).
  rewrite <- Hv in Hd. by apply elem_of_list_to_set in Hd.
Qed.

Lemma sweepContexts_lookup now order (m : gmap string WorkerContext.t) k :
  sweepContexts now order m !! k
  = match m !! k with
    | Some ctx =>
        if bool_decide (k ∈ order)
           && (ReconnectWindow * 2 <? time.Sub now (WorkerContext.LastUpdate ctx))
        then None else Some ctx
    | None => None
    end.
Proof.
  revert m. induction order as [|key order IH]; intros m; simpl.
  - by destruct (m !! k).
  - rewrite IH. destruct (decide (k = key)) as [->|Hne].
    + rewrite (bool_decide_eq_true_2 (key ∈ key :: order)) by (apply list_elem_of_here).
      destruct (m !! key) as [ctx|] eqn:E; [|by rewrite E].
      destruct (_ <? _) eqn:Hold.
      * by rewrite lookup_delete_eq.
      * rewrite E, Hold. by rewrite andb_false_r.
    + assert (bool_decide (k ∈ key :: order) = bool_decide (k ∈ order)) as ->.
      { apply bool_decide_ext. rewrite elem_of_cons. split; [by intros [?|?]|by right]. }
      destruct (m !! key) as [ctx|] eqn:E; [|done].
      destruct (_ <? _); [|done]. by rewrite lookup_delete_ne.
Qed.

(** A pass over a table that holds nothing to evict changes nothing. *)
Lemma sweepDisconnects_fixed now order (m : gmap string DisconnectRecord.t) :
  (∀ k record, m !! k = Some record →
     (ReconnectWindow * 2 <? time.Sub now (DisconnectRecord.Timestamp record)) = false) →
  sweepDisconnects now order m = m.
Proof.
  intros Hm. induction order as [|key order IH]; simpl; [done|].
  destruct (m !! key) as [record|] eqn:E; [|done].
  by rewrite (Hm _ _ E).
Qed.

Lemma sweepContexts_fixed now order (m : gmap string WorkerContext.t) :
  (∀ k ctx, m !! k = Some ctx →
     (ReconnectWindow * 2 <? time.Sub now (WorkerContext.LastUpdate ctx)) = false) →
  sweepContexts now order m = m.
Proof.
  intros Hm. induction order as [|key order IH]; simpl; [done|].
  destruct (m !! key) as [ctx|] eqn:E; [|done].
  by rewrite (Hm _ _ E).
Qed.

Lemma sweepSessions_fixed now order c :
  (∀ k session, sessions c !! k = Some session → ¬ evictable now (k, session)) →
  sweepSessions now order c = c.
Proof.
  intros Hm. induction order as [|key order IH]; simpl; [done|].
  destruct (sessions c !! key) as [session|] eqn:E; [|done].
  specialize (Hm _ _ E). unfold evictable in Hm. simpl in Hm.
  destruct (isSidKey key); [done|].
  destruct (isStale now session); [|done]. tauto.
Qed.

Lemma sweepSessions_workerContext now order c :
  workerContext (sweepSessions now order c) = workerContext c.
Proof.
  revert c. induction order as [|key order IH]; intros c; simpl; [done|].
  rewrite IH. destruct (sessions c !! key) as [session|]; [|done].
  destruct (isSidKey key); [done|]. destruct (isStale now session); done.
Qed.

Lemma sweepSessions_lookup now order c k :
  sessions (sweepSessions now order c) !! k
  = match sessions c !! k with
    | Some session =>
        if bool_decide (k ∈ order) && (negb (isSidKey k) && isStale now session)
        then None else Some session
    | None => None
    end.
Proof.
  revert c. induction order as [|key order IH]; intros c; simpl.
  - by destruct (sessions c !! k).
  - rewrite IH. clear IH. destruct (decide (k = key)) as [->|Hne].
    + rewrite (bool_decide_eq_true_2 (key ∈ key :: order)) by (apply list_elem_of_here).
      destruct (sessions c !! key) as [session|] eqn:E; [|by rewrite E].
      destruct (isSidKey key) eqn:Hsid.
      * rewrite E. simpl. by rewrite andb_false_r.
      * destruct (isStale now session) eqn:Hst; simpl.
        -- by rewrite lookup_delete_eq.
        -- rewrite E, Hst. by rewrite andb_false_r.
    + assert (bool_decide (k ∈ key :: order) = bool_decide (k ∈ order)) as ->.
      { apply bool_decide_ext. rewrite elem_of_cons.
        split; [by intros [?|?]|by right]. }
      destruct (sessions c !! key) as [session|] eqn:E; [|done].
      destruct (isSidKey key); [done|].
      destruct (isStale now session); simpl; [|done].
      by rewrite lookup_delete_ne.
Qed.

Lemma evictable_spec now k session :
  negb (isSidKey k) && isStale now session = true ↔ evictable now (k, session).
Proof.
  unfold evictable. simpl. rewrite andb_true_iff, negb_true_iff. done.
Qed.

Lemma set_lastDisconnects_same c : set_lastDisconnects (lastDisconnects c) c = c.
Proof. by destruct c. Qed.

Lemma set_workerContext_same c : set_workerContext (workerContext c) c = c.
Proof. by destruct c. Qed.

(** A second pass at the same instant finds nothing left to evict. *)
Lemma CleanupOldDisconnects_idempotent now o1 o2 c :
  visits (orderDisconnects o1) (lastDisconnects c) →
  visits (orderContexts o1) (workerContext c) →
  visits (orderSessions o1) (sessions c) →
  CleanupOldDisconnects now o2 (CleanupOldDisconnects now o1 c)
  = CleanupOldDisconnects now o1 c.
Proof.
  intros Hd Hw Hs.
  set (c1 := CleanupOldDisconnects now o1 c).
  assert (Hd1 : lastDisconnects c1
                = sweepDisconnects now (orderDisconnects o1) (lastDisconnects c)).
  { subst c1. unfold CleanupOldDisconnects.
    by rewrite sweepSessions_lastDisconnects. }
  assert (Hw1 : workerContext c1
                = sweepContexts now (orderContexts o1) (workerContext c)).
  { subst c1. unfold CleanupOldDisconnects.
    by rewrite sweepSessions_workerContext. }
  assert (Hs1 : ∀ k, sessions c1 !! k
                = match sessions c !! k with
                  | Some session =>
                      if bool_decide (k ∈ orderSessions o1)
                         && (negb (isSidKey k) && isStale now session)
                      then None else Some session
                  | None => None
                  end).
  { intros k. subst c1. unfold CleanupOldDisconnects.
    by rewrite sweepSessions_lookup. }
  unfold CleanupOldDisconnects at 1.
  rewrite (sweepDisconnects_fixed now (orderDisconnects o2) (lastDisconnects c1)).
  2:{ intros k record. rewrite Hd1, sweepDisconnects_lookup.
      destruct (lastDisconnects c !! k) as [r0|] eqn:E; [|done].
      rewrite (bool_decide_eq_true_2 _ (visits_elem _ _ _ _ Hd E)). simpl.
      destruct (_ <? _) eqn:Hold; [done|]. by intros [= <-]. }
  rewrite set_lastDisconnects_same.
  rewrite (sweepContexts_fixed now (orderContexts o2) (workerContext c1)).
  2:{ intros k ctx. rewrite Hw1, sweepContexts_lookup.
      destruct (workerContext c !! k) as [x0|] eqn:E; [|done].
      rewrite (bool_decide_eq_true_2 _ (visits_elem _ _ _ _ Hw E)). simpl.
      destruct (_ <? _) eqn:Hold; [done|]. by intros [= <-]. }
  rewrite set_workerContext_same.
  apply sweepSessions_fixed.
  intros k session. rewrite Hs1.
  destruct (sessions c !! k) as [s0|] eqn:E; [|done].
  rewrite (bool_decide_eq_true_2 _ (visits_elem _ _ _ _ Hs E)). simpl.
  destruct (negb (isSidKey k) && isStale now s0) eqn:Hev; [done|].
  intros [= <-]. rewrite <- evictable_spec. by rewrite Hev.
Qed.

Lemma evictedOf_skip now key order lv (m : gmap string Session.t) :
  (∀ session, m !! key = Some session → ¬ evictable now (key, session)) →
  evictedOf now (key :: order) lv m = evictedOf now order lv m.
Proof.
  intros Hkey. unfold evictedOf. apply map_filter_ext. intros i x Hi. simpl.
  rewrite elem_of_cons. split; [|tauto].
  intros [[->|Hin] [Hev Hlv]]; [|done].
  exfalso. by apply (Hkey x).
Qed.

Lemma evictedOf_evict now key order lv (m : gmap string Session.t) session :
  m !! key = Some session → evictable now (key, session) →
  size (evictedOf now (key :: order) lv m)
  = (size (evictedOf now order lv (delete key m))
     + (if decide (activeLabels session = lv) then 1 else 0))%nat.
Proof.
  intros Hkey Hev.
  assert (Hrest : evictedOf now (key :: order) lv (delete key m)
                  = evictedOf now order lv (delete key m)).
  { apply evictedOf_skip. intros s. by rewrite lookup_delete_eq. }
  rewrite <- (insert_delete_id m key session Hkey) at 1.
  unfold evictedOf at 1. rewrite map_filter_insert. simpl.
  destruct (decide (activeLabels session = lv)) as [Hlv|Hlv].
  - rewrite decide_True by (split; [apply list_elem_of_here|done]).
    rewrite map_size_insert_None.
    + fold (evictedOf now (key :: order) lv (delete key m)). rewrite Hrest. lia.
    + apply map_lookup_filter_None_2. left. apply lookup_delete_eq.
  - rewrite decide_False by tauto. rewrite delete_delete_eq.
    fold (evictedOf now (key :: order) lv (delete key m)). rewrite Hrest. lia.
Qed.

(** Every evicted session takes one off the active-session gauge of its
    labels, once. *)
Lemma sweepSessions_active now order c lv :
  value (registry (sweepSessions now order c)) ActiveSessions lv
  = value (registry c) ActiveSessions lv
    - Z.of_nat (size (evictedOf now order lv (sessions c))).
Proof.
  revert c. induction order as [|key order IH]; intros c; simpl.
  - unfold evictedOf. rewrite (map_empty_filter_2 _ (sessions c)).
    + rewrite map_size_empty. lia.
    + intros k s _ [Hin _]. simpl in Hin. by apply elem_of_nil in Hin.
  - rewrite IH. clear IH.
    destruct (sessions c !! key) as [session|] eqn:E.
    + destruct (isSidKey key) eqn:Hsid.
      { rewrite evictedOf_skip; [done|]. intros s _ [Hs _]. simpl in Hs. congruence. }
      destruct (isStale now session) eqn:Hst.
      * rewrite (evictedOf_evict now key order lv (sessions c) session E)
          by (by split).
        unfold_state.
        destruct (decide (activeLabels session = lv)) as [<-|Hlv].
        -- unfold activeLabels. rewrite value_Add_eq. other_vec. lia.
        -- rewrite value_Add_ne by (intros [= Heq]; apply Hlv; by rewrite Heq).
           other_vec. lia.
      * rewrite evictedOf_skip; [done|].
        intros s Hs [_ Hs']. simpl in Hs'. congruence.
    + rewrite evictedOf_skip; [done|]. intros s Hs. congruence.
Qed.

(** The sweeper never creates a "session info" entry. *)
Lemma sweepSessions_info_None now order c lvs :
  registry c !! (SessionInfo, lvs) = None →
  registry (sweepSessions now order c) !! (SessionInfo, lvs) = None.
Proof.
  revert c. induction order as [|key order IH]; intros c Hnone; simpl; [done|].
  apply IH. destruct (sessions c !! key) as [session|]; [|done].
  destruct (isSidKey key); [done|]. destruct (isStale now session); [|done].
  unfold_state. other_vec.
  destruct (decide (lvs = infoLabels session)) as [->|Hne].
  - apply lookup_delete_eq.
  - rewrite lookup_Delete_ne; [done|]. intros [= ->]. by apply Hne.
Qed.

(** The "session info" entry of an evicted session is gone after the pass. *)
Lemma sweepSessions_info_deleted now order c k session :
  sessions c !! k = Some session → k ∈ order → evictable now (k, session) →
  registry (sweepSessions now order c) !! (SessionInfo, infoLabels session) = None.
Proof.
  revert c. induction order as [|key order IH]; intros c Hk Hin Hev.
  { by apply elem_of_nil in Hin. }
  simpl. destruct (decide (key = k)) as [->|Hne].
  - rewrite Hk. destruct Hev as [Hsid Hst]. simpl in Hsid, Hst.
    rewrite Hsid, Hst. apply sweepSessions_info_None.
    unfold_state. other_vec. apply lookup_delete_eq.
  - apply elem_of_cons in Hin as [->|Hin]; [done|].
    apply IH; [|done|done].
    destruct (sessions c !! key) as [s0|]; [|done].
    destruct (isSidKey key); [done|]. destruct (isStale now s0); [|done].
    simpl. by rewrite lookup_delete_ne.
Qed.

(** ** Keys that the sweeper skips *)



Lemma isSidKey_sidKey server sessionID :
  isSidKey (sidKey server sessionID) = true.
Proof.
  unfold sidKey, isSidKey. simpl.
  assert (∀ s, substring 0 0 s = "") as -> by (by intros []).
  rewrite andb_true_r. apply Z.ltb_lt.
  assert (String.length (server +:+ ":" +:+ sessionID)
            = S (String.length (server +:+ sessionID))) as Hlen.
  { clear. induction server; simpl; [done|]. by rewrite IHserver. }
  change (String.length ("" +:+ server +:+ ":" +:+ sessionID))
    with (String.length (server +:+ ":" +:+ sessionID)).
  rewrite Hlen. lia.
Qed.

(** ** C7: the sweeper *)

Lemma evictedOf_visits now order lv (m : gmap string Session.t) :
  visits order m → evictedOf now order lv m = staleOf now lv m.
Proof.
  intros Hv. unfold evictedOf, staleOf. apply map_filter_ext.
  intros k s Hk. simpl. split; [tauto|]. intros [? ?].
  split; [|done]. by eapply visits_elem.
Qed.

Lemma isStale_spec now session :
  isStale now session = true ↔ 24 * time.Hour < now - Session.StartTime session.
Proof.
  unfold isStale, MaxSessionAge.
  rewrite ltb_Sub by (vm_compute; intuition congruence).
  apply Z.ltb_lt.
Qed.

(** C7 (amended). A second pass of the sweeper at the same instant, no event
    coming in between, changes nothing: not the tables (so no table size),
    not the vectors. A session older than 24 hours whose key does not start
    with "sid:" (for a primary key: whose partition is not "sid" and does not
    start with "sid:") is removed by the first pass, its "session info" entry
    is gone after the pass, and the active-session gauge of its labels goes
    down by the number of sessions with these labels that the pass removes,
    by exactly one when it is the only one; the second pass does not
    decrement the gauge again. *)
Theorem C7_sweeper (now : time.Time) (o1 o2 : SweepOrder) (c : Collector) :
  visits (orderDisconnects o1) (lastDisconnects c) →
  visits (orderContexts o1) (workerContext c) →
  visits (orderSessions o1) (sessions c) →
  let c1 := CleanupOldDisconnects now o1 c in
  let c2 := CleanupOldDisconnects now o2 c1 in
  c2 = c1
  ∧ size (sessions c2) = size (sessions c1)
  ∧ size (lastDisconnects c2) = size (lastDisconnects c1)
  ∧ size (workerContext c2) = size (workerContext c1)
  ∧ ∀ key session,
      sessions c !! key = Some session →
      isSidKey key = false →
      24 * time.Hour < now - Session.StartTime session →
      sessions c1 !! key = None
      ∧ registry c1 !! (SessionInfo, infoLabels session) = None
      ∧ value (registry c1) ActiveSessions (activeLabels session)
        = value (registry c) ActiveSessions (activeLabels session)
          - Z.of_nat (size (staleOf now (activeLabels session) (sessions c)))
      ∧ ((∀ k s, staleOf now (activeLabels session) (sessions c) !! k = Some s →
                 k = key) →
         value (registry c1) ActiveSessions (activeLabels session)
         = value (registry c) ActiveSessions (activeLabels session) - 1)
      ∧ value (registry c2) ActiveSessions (activeLabels session)
        = value (registry c1) ActiveSessions (activeLabels session).
Proof.
  intros Hd Hw Hs c1 c2.
  assert (Hidem : c2 = c1) by (by apply CleanupOldDisconnects_idempotent).
  split; [done|]. rewrite Hidem. split; [done|]. split; [done|]. split; [done|].
  intros key session Hkey Hsid Hold.
  assert (Hev : evictable now (key, session)).
  { split; [done|]. by apply isStale_spec. }
  assert (Hin : key ∈ orderSessions o1) by (by eapply visits_elem).
  assert (Hact : value (registry c1) ActiveSessions (activeLabels session)
                 = value (registry c) ActiveSessions (activeLabels session)
                   - Z.of_nat (size (staleOf now (activeLabels session) (sessions c)))).
  { subst c1. unfold CleanupOldDisconnects. rewrite sweepSessions_active. simpl.
    by rewrite evictedOf_visits. }
  split; [|split; [|split; [|split]]].
  - subst c1. unfold CleanupOldDisconnects. rewrite sweepSessions_lookup. simpl.
    rewrite Hkey, (bool_decide_eq_true_2 _ Hin).
    by rewrite (proj2 (evictable_spec now key session) Hev).
  - subst c1. unfold CleanupOldDisconnects.
    by apply (sweepSessions_info_deleted now _ _ key session).
  - done.
  - intros Honly. rewrite Hact.
    assert (staleOf now (activeLabels session) (sessions c) = {[key := session]})
      as ->.
    { apply map_eq. intros k. destruct (decide (k = key)) as [->|Hne].
      - rewrite lookup_singleton_eq. by apply map_lookup_filter_Some_2.
      - rewrite lookup_singleton_ne by done.
        destruct (staleOf now (activeLabels session) (sessions c) !! k) as [s|] eqn:E;
          [|done].
        by apply Honly in E. }
    rewrite map_size_singleton. lia.
  - done.
Qed.

(** C7 on a run: a login, then two passes 25 hours later. *)
Lemma C7_sweeper_witness :
  let c := handleLogin (exampleLogin 0) New in
  let now := 25 * time.Hour in
  let o := mkSweepOrder [] [] ["ocserv:u:1.2.3.4:30595"] in
  let c1 := CleanupOldDisconnects now o c in
  let c2 := CleanupOldDisconnects now o c1 in
  visits (orderSessions o) (sessions c)
  ∧ c2 = c1
  ∧ sessions c1 !! "ocserv:u:1.2.3.4:30595" = None
  ∧ value (registry c) ActiveSessions ["ocserv"; "u"] = 1
  ∧ value (registry c1) ActiveSessions ["ocserv"; "u"] = 0
  ∧ value (registry c2) ActiveSessions ["ocserv"; "u"] = 0.
Proof.
  intros c now o c1 c2.
  assert (Hd : visits (orderDisconnects o) (lastDisconnects c)) by (unfold visits; compute_done).
  assert (Hw : visits (orderContexts o) (workerContext c)) by (unfold visits; compute_done).
  assert (Hs : visits (orderSessions o) (sessions c)) by (unfold visits; compute_done).
  destruct (C7_sweeper now o o c Hd Hw Hs) as (Hidem & _ & _ & _ & Hstale).
  split; [exact Hs|]. split; [exact Hidem|].
  destruct (Hstale "ocserv:u:1.2.3.4:30595"
              (Session.mk "ocserv" "u" "1.2.3.4" 30595 "" "" "" 0))
    as (Hgone & _ & _ & Hone & Hsame).
  { vm_compute. reflexivity. }
  { vm_compute. reflexivity. }
  { vm_compute. reflexivity. }
  split; [exact Hgone|].
  split; [vm_compute; reflexivity|].
  assert (H0 : value (registry c1) ActiveSessions ["ocserv"; "u"] = 0).
  { vm_compute. reflexivity. }
  split; [exact H0|].
  fold c1 c2 in Hsame. simpl in Hsame. etrans; [exact Hsame|exact H0].
Defined.

(** C7 as it was stated fails for the partition named "sid": the
    primary key of its sessions starts with "sid:", the sweeper skips it, and
    a session of 25 hours stays in the table with its gauge entries. *)
Lemma C7_stale_session_of_sid_partition_kept :
  let login := Event.mk EventUserLogin 0 "sid" "u" "1.2.3.4" 80 "" "" "" 0 0 "" 0 in
  let c := handleLogin login New in
  let now := 25 * time.Hour in
  let o := mkSweepOrder [] [] ["sid:u:1.2.3.4:80"] in
  let c1 := CleanupOldDisconnects now o c in
  sessionKey "sid" "u" "1.2.3.4" 80 = "sid:u:1.2.3.4:80"
  ∧ visits (orderSessions o) (sessions c)
  ∧ sessions c !! "sid:u:1.2.3.4:80"
    = Some (Session.mk "sid" "u" "1.2.3.4" 80 "" "" "" 0)
  ∧ 24 * time.Hour < now - 0
  ∧ sessions c1 !! "sid:u:1.2.3.4:80"
    = Some (Session.mk "sid" "u" "1.2.3.4" 80 "" "" "" 0)
  ∧ registry c1 !! (SessionInfo, ["sid"; "u"; ""; ""; ""]) = Some 0
  ∧ value (registry c1) ActiveSessions ["sid"; "u"]
    = value (registry c) ActiveSessions ["sid"; "u"].
Proof.
  intros login c now o c1.
  split; [vm_compute; reflexivity|].
  split; [unfold visits; compute_done|].
  repeat split; vm_compute; reflexivity.
Qed.

(** ** C8: the scan of [handleVPNIP] *)

(** The loop stops at the first key of the order whose session matches, and
    changes nothing when there is none. *)
Lemma handleVPNIP_chooses order event c :
  (handleVPNIP order event c = c
   ∧ ∀ k s, k ∈ order → sessions c !! k = Some s → wantsVPNIP event s = false)
  ∨ (∃ k s, k ∈ order ∧ sessions c !! k = Some s ∧ wantsVPNIP event s = true
            ∧ handleVPNIP order event c = assignVPNIP event k s c).
Proof.
  induction order as [|key order IH]; simpl.
  - left. split; [done|]. intros k s Hin. by apply elem_of_nil in Hin.
  - destruct (sessions c !! key) as [session|] eqn:E.
    + destruct (wantsVPNIP event session) eqn:Hw.
      * right. exists key, session. split; [apply list_elem_of_here|done].
      * destruct IH as [[Heq Hno]|(k & s & Hin & Hk & Hwk & Heq)].
        -- left. split; [done|]. intros k s [->|Hin]%elem_of_cons Hk.
           ++ congruence.
           ++ by eapply Hno.
        -- right. exists k, s. split; [by apply list_elem_of_further|done].
    + destruct IH as [[Heq Hno]|(k & s & Hin & Hk & Hwk & Heq)].
      * left. split; [done|]. intros k s [->|Hin]%elem_of_cons Hk.
        -- congruence.
        -- by eapply Hno.
      * right. exists k, s. split; [by apply list_elem_of_further|done].
Qed.

Lemma startingAt_visits {V} key (m : gmap string V) :
  is_Some (m !! key) → visits (startingAt key m) m.
Proof.
  intros Hk. apply elem_of_dom in Hk. unfold visits, startingAt. split.
  - apply NoDup_cons. split; [|apply NoDup_elements].
    rewrite elem_of_elements, elem_of_difference, elem_of_singleton.
    intros [_ Hne]. by apply Hne.
  - rewrite list_to_set_cons, list_to_set_elements_L.
    apply set_eq. intros x. rewrite elem_of_union, elem_of_difference, elem_of_singleton.
    destruct (decide (x = key)) as [->|Hne].
    + split; [done|by left].
    + split; [by intros [?|[? ?]]|by right].
Qed.

Lemma assignVPNIP_sessions event key session c :
  sessions (assignVPNIP event key session c)
  = <[key := Session.with_VpnIP (Event.VpnIP event) session]> (sessions c).
Proof. done. Qed.

Lemma assignVPNIP_registry event key session c :
  registry (assignVPNIP event key session c)
  = Set_ SessionInfo
      [Session.Server session; Session.Username session; Event.VpnIP event;
       Session.Country session; ""]
      (time.Unix (Session.StartTime session))
      (DeleteLabelValues SessionInfo
         [Session.Server session; Session.Username session; "";
          Session.Country session; ""] (registry c)).
Proof. done. Qed.

(** C8. The scan of a VpnIpAssigned event does not exclude the entries of
    the secondary space. If the only entry that matches (same partition and
    username, empty VPN IP) is the secondary entry that a SessionStart event
    created under its "sid:" key, then in whatever order the table is visited
    the event assigns its VPN IP to that entry, deletes the "session info"
    entry labelled by (partition, username, "", "", "") and sets the one
    labelled with the VPN IP to the start time of the entry. If a secondary
    entry and a primary session both match and no other entry does, then in
    every order exactly one of the two is updated, the other keeping its
    empty VPN IP; which one is decided by the order alone: an order that
    visits the secondary entry first leaves the VPN IP of the primary session
    empty, and an order that visits the primary session first updates it. *)
Theorem C8_vpn_ip_scan :
  (∀ (c0 : Collector) (start event : Event.t) (order : list string),
      let c := handleSessionStart start c0 in
      let key := sidKey (Event.Server start) (Event.SessionID start) in
      let c' := handleVPNIP order event c in
      Event.Server event = Event.Server start →
      Event.Username event = Event.Username start →
      (∀ k s, k ≠ key → sessions c0 !! k = Some s → wantsVPNIP event s = false) →
      visits order (sessions c) →
      isSidKey key = true
      ∧ sessions c' !! key
        = Some (Session.mk (Event.Server start) (Event.Username start) "" 0
                  (Event.VpnIP event) "" (Event.SessionID start)
                  (Event.Timestamp start))
      ∧ (∀ k, k ≠ key → sessions c' !! k = sessions c !! k)
      ∧ registry c'
        = Set_ SessionInfo
            [Event.Server start; Event.Username start; Event.VpnIP event; ""; ""]
            (time.Unix (Event.Timestamp start))
            (DeleteLabelValues SessionInfo
               [Event.Server start; Event.Username start; ""; ""; ""]
               (registry c))
      ∧ registry c' !! (SessionInfo, [Event.Server start; Event.Username start;
                                      Event.VpnIP event; ""; ""])
        = Some (time.Unix (Event.Timestamp start)))
  ∧ (∀ (c : Collector) (event : Event.t) (secondaryKey primaryKey : string)
       (secondary primary : Session.t),
      sessions c !! secondaryKey = Some secondary →
      sessions c !! primaryKey = Some primary →
      isSidKey secondaryKey = true →
      isSidKey primaryKey = false →
      wantsVPNIP event secondary = true →
      wantsVPNIP event primary = true →
      (∀ k s, sessions c !! k = Some s → wantsVPNIP event s = true →
              k = secondaryKey ∨ k = primaryKey) →
      Event.VpnIP event ≠ "" →
      (∀ order, visits order (sessions c) →
         let c' := handleVPNIP order event c in
         (c' = assignVPNIP event secondaryKey secondary c
          ∧ Session.VpnIP <$> sessions c' !! secondaryKey = Some (Event.VpnIP event)
          ∧ sessions c' !! primaryKey = Some primary
          ∧ Session.VpnIP primary = "")
         ∨ (c' = assignVPNIP event primaryKey primary c
            ∧ Session.VpnIP <$> sessions c' !! primaryKey = Some (Event.VpnIP event)
            ∧ sessions c' !! secondaryKey = Some secondary
            ∧ Session.VpnIP secondary = ""))
      ∧ (∃ order, visits order (sessions c)
                  ∧ handleVPNIP order event c
                    = assignVPNIP event secondaryKey secondary c
                  ∧ sessions (handleVPNIP order event c) !! primaryKey = Some primary
                  ∧ Session.VpnIP primary = "")
      ∧ (∃ order, visits order (sessions c)
                  ∧ handleVPNIP order event c
                    = assignVPNIP event primaryKey primary c)).
Proof.
  split.
  - intros c0 start event order c key c' Hserver Huser Honly Hvisits.
    assert (Hkey : sessions c !! key
                   = Some (Session.mk (Event.Server start) (Event.Username start)
                             "" 0 "" "" (Event.SessionID start)
                             (Event.Timestamp start))).
    { subst c key. unfold handleSessionStart, sidKey. simpl.
      apply lookup_insert_eq. }
    assert (Hwants : wantsVPNIP event
                       (Session.mk (Event.Server start) (Event.Username start)
                          "" 0 "" "" (Event.SessionID start)
                          (Event.Timestamp start)) = true).
    { unfold wantsVPNIP. simpl. rewrite Hserver, Huser.
      by rewrite !String.eqb_refl. }
    assert (Hc' : c' = assignVPNIP event key
                         (Session.mk (Event.Server start) (Event.Username start)
                            "" 0 "" "" (Event.SessionID start)
                            (Event.Timestamp start)) c).
    { subst c'. destruct (handleVPNIP_chooses order event c)
        as [[_ Hno]|(k & s & Hin & Hk & Hw & Heq)].
      - exfalso. pose proof (visits_elem _ _ _ _ Hvisits Hkey) as Hin.
        specialize (Hno _ _ Hin Hkey). congruence.
      - destruct (decide (k = key)) as [->|Hne].
        + rewrite Hkey in Hk. by injection Hk as <-.
        + exfalso. assert (sessions c0 !! k = Some s) as Hk0.
          { subst c key. unfold handleSessionStart, sidKey in Hk. simpl in Hk.
            rewrite lookup_insert_ne in Hk; [done|].
            intros Heq'. apply Hne. by rewrite <- Heq'. }
          specialize (Honly _ _ Hne Hk0). congruence. }
    split; [apply isSidKey_sidKey|].
    rewrite Hc'. split; [|split; [|split]].
    + rewrite assignVPNIP_sessions. by rewrite lookup_insert_eq.
    + intros k Hk. rewrite assignVPNIP_sessions. by rewrite lookup_insert_ne.
    + by rewrite assignVPNIP_registry.
    + rewrite assignVPNIP_registry. unfold Set_. simpl. apply lookup_insert_eq.
  - intros c event ks kp ss sp Hks Hkp Hsid Hprim Hws Hwp Honly Hvpn.
    assert (Hne : ks ≠ kp) by (intros ->; congruence).
    assert (Hes : Session.VpnIP ss = "").
    { unfold wantsVPNIP in Hws. apply andb_true_iff in Hws as [_ Hws].
      by apply String.eqb_eq in Hws. }
    assert (Hep : Session.VpnIP sp = "").
    { unfold wantsVPNIP in Hwp. apply andb_true_iff in Hwp as [_ Hwp].
      by apply String.eqb_eq in Hwp. }
    split; [|split].
    + intros order Hvisits c'. subst c'.
      destruct (handleVPNIP_chooses order event c)
        as [[_ Hno]|(k & s & Hin & Hk & Hw & Heq)].
      { exfalso. pose proof (visits_elem _ _ _ _ Hvisits Hks) as Hin.
        specialize (Hno _ _ Hin Hks). congruence. }
      rewrite Heq.
      destruct (Honly _ _ Hk Hw) as [->| ->].
      * left. rewrite Hks in Hk. injection Hk as <-.
        rewrite assignVPNIP_sessions, lookup_insert_eq.
        by rewrite lookup_insert_ne.
      * right. rewrite Hkp in Hk. injection Hk as <-.
        rewrite assignVPNIP_sessions, lookup_insert_eq.
        by rewrite lookup_insert_ne.
    + exists (startingAt ks (sessions c)).
      split; [by apply startingAt_visits|].
      unfold startingAt. simpl. rewrite Hks, Hws.
      split; [done|]. rewrite assignVPNIP_sessions.
      by rewrite lookup_insert_ne.
    + exists (startingAt kp (sessions c)).
      split; [by apply startingAt_visits|].
      unfold startingAt. simpl. by rewrite Hkp, Hwp.
Qed.

(** The scenario of C8 on a run: a SessionStart and a Login of one user,
    then the VPN IP; visiting the secondary entry first leaves the session
    of the Login without its VPN IP. *)
Example vpn_ip_lands_on_secondary_entry :
  let start := Event.mk EventSessionStart 0 "ocserv" "u" "" 0 "" "yKsy7b" ""
                        0 0 "" 0 in
  let vpn := Event.mk EventVPNIPAssigned 2 "ocserv" "u" "" 0 "10.88.9.156" "" ""
                      0 0 "" 0 in
  let c := run [Process [] start; Process [] (exampleLogin 1)] New in
  let order := ["sid:ocserv:yKsy7b"; "ocserv:u:1.2.3.4:30595"] in
  let c' := ProcessEvent order vpn c in
  visits order (sessions c)
  ∧ Session.VpnIP <$> sessions c' !! "sid:ocserv:yKsy7b" = Some "10.88.9.156"
  ∧ Session.VpnIP <$> sessions c' !! "ocserv:u:1.2.3.4:30595" = Some ""
  ∧ registry c' !! (SessionInfo, ["ocserv"; "u"; "10.88.9.156"; ""; ""]) = Some 0.
Proof.
  intros start vpn c order c'.
  split; [unfold visits; compute_done|].
  repeat split; vm_compute; reflexivity.
Qed.

(** ** C10: the secondary space only grows *)


Lemma handleByePacket_sessions event c :
  sessions (handleByePacket event c) = sessions c.
Proof.
  unfold handleByePacket, getOrCreateWorkerContext.
  destruct (workerContext c !! _); done.
Qed.

Lemma handleDPDWarning_sessions event c :
  sessions (handleDPDWarning event c) = sessions c.
Proof.
  unfold handleDPDWarning, getOrCreateWorkerContext.
  destruct (workerContext c !! _); done.
Qed.

Lemma handleSecModClose_sessions order event c :
  sessions (handleSecModClose order event c) = sessions c.
Proof.
  unfold handleSecModClose. simpl. destruct (markSecModClose _ _ _ !! _); done.
Qed.

Lemma handleAuthFailed_sessions event c :
  sessions (handleAuthFailed event c) = sessions c.
Proof.
  unfold handleAuthFailed. destruct (geoIP c) as [resolver|]; [|done].
  destruct (resolver _) as [country code]. done.
Qed.






(** ** The numbers [strconv] returns for a run of digits *)

Lemma isDigit_val ch : strconv.isDigit ch = true → 0 ≤ strconv.digitVal ch ≤ 9.
Proof.
  unfold strconv.isDigit, strconv.digitVal.
  rewrite andb_true_iff, !Z.leb_le. lia.
Qed.

Lemma decimalFrom_ge s n :
  Forall (λ ch, strconv.isDigit ch = true) s → 0 ≤ n → n ≤ decimalFrom s n.
Proof.
  revert n. induction s as [|ch s IH]; intros n Hs Hn; simpl; [lia|].
  apply Forall_cons in Hs as [Hch Hs]. apply isDigit_val in Hch.
  specialize (IH (n * 10 + strconv.digitVal ch) Hs). lia.
Qed.

Lemma parseUintLoop_digits s n :
  Forall (λ ch, strconv.isDigit ch = true) s → 0 ≤ n ≤ strconv.maxUint64 →
  strconv.parseUintLoop s n
  = if decimalFrom s n <=? strconv.maxUint64
    then (decimalFrom s n, None)
    else (strconv.maxUint64, Some strconv.ErrRange).
Proof.
  revert n. induction s as [|ch s IH]; intros n Hs Hn; simpl.
  - destruct (Z.leb_spec n strconv.maxUint64); [done|lia].
  - apply Forall_cons in Hs as [Hch Hs]. rewrite Hch. simpl.
    pose proof (isDigit_val ch Hch) as Hd.
    pose proof (decimalFrom_ge s (n * 10 + strconv.digitVal ch) Hs) as Hge.
    unfold strconv.maxUint64 in *.
    change (2 ^ 64 - 1) with 18446744073709551615 in *.
    change ((18446744073709551615) / 10 + 1) with 1844674407370955162.
    change (2 ^ 64) with 18446744073709551616.
    destruct (Z.leb_spec 1844674407370955162 n) as [Hcut|Hcut].
    { destruct (Z.leb_spec (decimalFrom s (n * 10 + strconv.digitVal ch))
                           18446744073709551615); [lia|done]. }
    destruct (Z.le_gt_cases (n * 10 + strconv.digitVal ch) 18446744073709551615)
      as [Hfit|Hover].
    + rewrite Z.mod_small by lia.
      destruct (Z.ltb_spec (n * 10 + strconv.digitVal ch) (n * 10)); [lia|].
      destruct (Z.ltb_spec 18446744073709551615 (n * 10 + strconv.digitVal ch));
        [lia|]. simpl.
      apply IH; [done|lia].
    + assert ((n * 10 + strconv.digitVal ch) mod 18446744073709551616
              = n * 10 + strconv.digitVal ch - 18446744073709551616) as ->.
      { symmetry. apply Z.mod_unique_pos with (q := 1); lia. }
      destruct (Z.ltb_spec (n * 10 + strconv.digitVal ch - 18446744073709551616)
                           (n * 10)); [|lia]. simpl.
      destruct (Z.leb_spec (decimalFrom s (n * 10 + strconv.digitVal ch))
                           18446744073709551615); [lia|done].
Qed.

Lemma ParseUint_digits s :
  digits s →
  strconv.ParseUint s
  = if decimal s <=? strconv.maxUint64
    then (decimal s, None)
    else (strconv.maxUint64, Some strconv.ErrRange).
Proof.
  intros [Hne Hs]. unfold strconv.ParseUint, decimal.
  destruct (list_ascii_of_string s) as [|ch cs] eqn:E.
  - exfalso. apply Hne. rewrite <- (string_of_list_ascii_of_string s). by rewrite E.
  - apply parseUintLoop_digits; [done|]. by vm_compute.
Qed.

Lemma Atoi_digits s :
  digits s →
  strconv.Atoi s
  = if decimal s <=? strconv.maxInt64
    then (decimal s, None)
    else (strconv.maxInt64, Some strconv.ErrRange).
Proof.
  intros Hdig. pose proof (ParseUint_digits s Hdig) as Hu.
  destruct Hdig as [Hne Hs].
  unfold strconv.Atoi, strconv.ParseInt.
  destruct (list_ascii_of_string s) as [|ch cs] eqn:E.
  { exfalso. apply Hne. rewrite <- (string_of_list_ascii_of_string s). by rewrite E. }
  assert (Hch : strconv.isDigit ch = true) by (by apply Forall_cons in Hs as [? _]).
  assert (Ascii.eqb ch "+" = false) as ->.
  { destruct (Ascii.eqb_spec ch "+") as [->|]; [by vm_compute in Hch|done]. }
  assert (Ascii.eqb ch "-" = false) as ->.
  { destruct (Ascii.eqb_spec ch "-") as [->|]; [by vm_compute in Hch|done]. }
  assert (Hs' : string_of_list_ascii (ch :: cs) = s).
  { rewrite <- E. apply string_of_list_ascii_of_string. }
  cbv zeta. cbn [orb]. rewrite Hs', Hu. cbn [negb andb].
  assert (0 ≤ decimal s) as Hpos.
  { unfold decimal. apply decimalFrom_ge; [by rewrite E|lia]. }
  unfold strconv.maxUint64, strconv.maxInt64 in *.
  change (2 ^ 64 - 1) with 18446744073709551615.
  change (2 ^ 63 - 1) with 9223372036854775807.
  change (2 ^ 63) with 9223372036854775808.
  destruct (Z.leb_spec (decimal s) 18446744073709551615);
    destruct (Z.leb_spec (decimal s) 9223372036854775807); try lia.
  - destruct (Z.leb_spec 9223372036854775808 (decimal s)); [lia|done].
  - destruct (Z.leb_spec 9223372036854775808 (decimal s)); [done|lia].
  - done.
Qed.

(** ** What a match of the backtracking matcher went through *)

Lemma stripPrefix_Some p input rest :
  stripPrefix p input = Some rest → input = p ++ rest.
Proof.
  revert input. induction p as [|a p IH]; intros input; simpl.
  - by intros [= ->].
  - destruct input as [|b input]; [done|].
    destruct (Ascii.eqb_spec a b) as [->|]; [|done].
    intros H. by rewrite (IH _ H).
Qed.

Lemma matchRep_sound {R} cl min input (k : list ascii → option R) res :
  matchRep cl min input k = Some res →
  ∃ text rest, input = text ++ rest
               ∧ Forall (λ ch, inClass cl ch = true) text
               ∧ (min ≤ length text)%nat ∧ k rest = Some res.
Proof.
  revert min. induction input as [|ch input IH]; intros min; simpl.
  - destruct min; [|done]. intros Hk. exists [], []. by repeat split.
  - assert (Hstop : match min with O => k (ch :: input) | S _ => None end = Some res →
                    ∃ text rest, ch :: input = text ++ rest
                      ∧ Forall (λ ch, inClass cl ch = true) text
                      ∧ (min ≤ length text)%nat ∧ k rest = Some res).
    { destruct min; [|done]. intros Hk. exists [], (ch :: input). by repeat split. }
    destruct (inClass cl ch) eqn:Hin; [|done].
    destruct (matchRep cl (pred min) input k) as [res'|] eqn:Hrec; [|done].
    intros [= ->]. destruct (IH _ Hrec) as (text & rest & -> & Hall & Hlen & Hk).
    exists (ch :: text), rest. repeat split; [by constructor| |done].
    simpl. lia.
Qed.

Lemma matchHere_sound r input caps k res :
  matchHere r input caps k = Some res →
  ∃ rest caps', reach r input caps rest caps' ∧ k rest caps' = Some res.
Proof.
  revert input caps k. induction r as [s|min cl|i r IH|r IH|r1 IH1 r2 IH2];
    intros input caps k; simpl.
  - destruct (stripPrefix _ input) as [rest|] eqn:E; [|done].
    intros Hk. apply stripPrefix_Some in E. by exists rest, caps.
  - intros H. apply matchRep_sound in H as (text & rest & -> & Hall & Hlen & Hk).
    exists rest, caps. split; [|done]. by exists text.
  - intros H. apply IH in H as (rest & caps0 & Hr & Hk).
    exists rest, (<[i := consumed input rest]> caps0). split; [|done].
    by exists caps0.
  - destruct (matchHere r input caps k) as [res'|] eqn:E.
    + intros [= ->]. apply IH in E as (rest & caps' & Hr & Hk).
      exists rest, caps'. by split; [left|].
    + intros Hk. exists input, caps. by split; [right|].
  - intros H. apply IH1 in H as (mid & caps0 & Hr1 & H).
    apply IH2 in H as (rest & caps' & Hr2 & Hk).
    exists rest, caps'. split; [|done]. by exists mid, caps0.
Qed.

Lemma findFrom_sound r groups input res :
  findFrom r groups input = Some res →
  ∃ start rest caps',
    reach r start (replicate (S groups) "") rest caps'
    ∧ res = <[0%nat := consumed start rest]> caps'.
Proof.
  induction input as [|ch input IH]; simpl.
  - destruct (matchHere r [] _ _) as [res'|] eqn:E; [|done].
    intros [= ->]. apply matchHere_sound in E as (rest & caps' & Hr & [= <-]).
    by exists [], rest, caps'.
  - destruct (matchHere r (ch :: input) _ _) as [res'|] eqn:E.
    + intros [= ->]. apply matchHere_sound in E as (rest & caps' & Hr & [= <-]).
      by exists (ch :: input), rest, caps'.
    + apply IH.
Qed.

Lemma consumed_app text rest : consumed (text ++ rest) rest = string_of_list_ascii text.
Proof.
  unfold consumed. rewrite length_app.
  replace (length text + length rest - length rest)%nat with (length text) by lia.
  by rewrite take_app_length.
Qed.

(** The text of a group [(\d+)] is a non-empty run of digits. *)
Lemma digit_group text :
  Forall (λ ch, inClass digit ch = true) text → (1 ≤ length text)%nat →
  digits (string_of_list_ascii text).
Proof.
  intros Hall Hlen. split.
  - destruct text; simpl in *; [lia|done].
  - rewrite list_ascii_of_string_of_list_ascii.
    eapply Forall_impl; [exact Hall|]. intros ch. unfold inClass, strconv.isDigit.
    simpl. rewrite orb_false_r. rewrite !andb_true_iff, !N.leb_le, !Z.leb_le.
    change (N_of_ascii "0") with 48%N. change (N_of_ascii "9") with 57%N. lia.
Qed.

Ltac break_reach :=
  repeat match goal with
         | H : ∃ _, _ |- _ => destruct H
         | H : _ ∧ _ |- _ => destruct H
         end; subst.

Lemma reLogin_port message matches :
  FindStringSubmatch reLogin message = Some matches → digits (sub matches 3).
Proof.
  intros H. apply findFrom_sound in H as (start & rest & caps' & Hr & ->).
  simpl in Hr. break_reach. cbn. rewrite consumed_app. by apply digit_group.
Qed.

Lemma reDisconnect_numbers message matches :
  FindStringSubmatch reDisconnect message = Some matches →
  digits (sub matches 3) ∧ digits (sub matches 5) ∧ digits (sub matches 6).
Proof.
  intros H. apply findFrom_sound in H as (start & rest & caps' & Hr & ->).
  simpl in Hr. break_reach. cbn. rewrite !consumed_app.
  repeat split; by apply digit_group.
Qed.

Lemma reAuthFailed_port message matches :
  FindStringSubmatch reAuthFailed message = Some matches → digits (sub matches 3).
Proof.
  intros H. apply findFrom_sound in H as (start & rest & caps' & Hr & ->).
  simpl in Hr. destruct Hr as (mid & caps0 & Hmain & mid' & caps1 & [Hopt|Hopt] & Hr);
    break_reach; cbn; rewrite consumed_app; by apply digit_group.
Qed.

Lemma reDPDWarning_seconds message matches :
  FindStringSubmatch reDPDWarning message = Some matches → digits (sub matches 3).
Proof.
  intros H. apply findFrom_sound in H as (start & rest & caps' & Hr & ->).
  simpl in Hr. break_reach. cbn. rewrite consumed_app. by apply digit_group.
Qed.

(** The cases of [TestParser]. *)
Example parser_test_cases :
  let p message := Parse 0 message "ocserv" in
  let login := p "main[a.mogilevich]:62.4.32.53:30595 user logged in" in
  let disconnect :=
    p ("main[a.mogilevich]:62.4.32.53:30595 user disconnected "
       +:+ "(reason: user disconnected, rx: 13295, tx: 24650)") in
  let start :=
    p "sec-mod: initiating session for user 'a.mogilevich' (session: yKsy7b)" in
  let invalidate :=
    p "sec-mod: invalidating session of user 'a.mogilevich' (session: yKsy7b)" in
  let vpn := p "worker[a.mogilevich]: 62.4.32.53 sending IPv4 10.88.9.156" in
  let unknown := p "worker[a.mogilevich]: 62.4.32.53 configured link MTU is 1420" in
  (Event.Type_ login, Event.Username login, Event.ClientIP login, Event.Port login)
  = (EventUserLogin, "a.mogilevich", "62.4.32.53", 30595)
  ∧ (Event.Type_ disconnect, Event.Username disconnect, Event.ClientIP disconnect,
     Event.Reason disconnect, Event.RxBytes disconnect, Event.TxBytes disconnect)
    = (EventUserDisconnect, "a.mogilevich", "62.4.32.53", "user disconnected",
       13295, 24650)
  ∧ (Event.Type_ start, Event.Username start, Event.SessionID start)
    = (EventSessionStart, "a.mogilevich", "yKsy7b")
  ∧ (Event.Type_ invalidate, Event.Username invalidate, Event.SessionID invalidate)
    = (EventSessionInvalidate, "a.mogilevich", "yKsy7b")
  ∧ (Event.Type_ vpn, Event.Username vpn, Event.VpnIP vpn)
    = (EventVPNIPAssigned, "a.mogilevich", "10.88.9.156")
  ∧ Event.Type_ unknown = EventUnknown.
Proof. repeat split; vm_compute; reflexivity. Qed.

(** The lines quoted beside the other patterns in [New]. *)
Example parser_worker_lines :
  let p message := Parse 0 message "ocserv" in
  let auth := p "main:172.30.30.30:56078 failed authentication attempt for user ''" in
  let cookie := p "worker: 172.30.30.30 failed cookie authentication attempt" in
  let bye := p "worker[username]: 172.30.30.30 received BYE packet; exiting" in
  let dpd :=
    p "worker[username]: 172.30.30.30 have not received TCP DPD for long (137 secs)" in
  let pause :=
    p "sec-mod: temporarily closing session for a.mogilevich (session: u7N/JC)" in
  (Event.Type_ auth, Event.Username auth, Event.ClientIP auth, Event.Port auth)
  = (EventAuthFailed, "", "172.30.30.30", 56078)
  ∧ (Event.Type_ cookie, Event.Username cookie, Event.ClientIP cookie)
    = (EventAuthFailed, "", "172.30.30.30")
  ∧ (Event.Type_ bye, Event.Username bye, Event.ClientIP bye)
    = (EventByePacket, "username", "172.30.30.30")
  ∧ (Event.Type_ dpd, Event.Username dpd, Event.ClientIP dpd, Event.DPDSeconds dpd)
    = (EventDPDWarning, "username", "172.30.30.30", 137)
  ∧ (Event.Type_ pause, Event.Username pause, Event.SessionID pause)
    = (EventSecModClose, "a.mogilevich", "u7N/JC").
Proof. repeat split; vm_compute; reflexivity. Qed.

(** ** C6: numeric fields that do not fit their type *)

(** C6 (amended). For every log line that matches one of the event patterns
    the event has the recognized kind and not the unknown one, whether its
    numeric fields can be parsed or not. Each numeric field is captured by
    [(\d+)], so the only way it can fail to parse is by exceeding the range of
    its type, and then it takes the largest value of the type, not zero: the
    port and the DPD seconds are the decimal value of their digits capped at
    2^63 - 1, the byte counts the decimal value capped at 2^64 - 1. *)
Theorem C6_numeric_fields (ts : time.Time) (message server : string) :
  let event := Parse ts message server in
  (∀ p, p ∈ patterns → is_Some (FindStringSubmatch p message) →
        Event.Type_ event ≠ EventUnknown)
  ∧ (Event.Type_ event = EventUserLogin →
       ∃ matches, FindStringSubmatch reLogin message = Some matches
         ∧ digits (sub matches 3)
         ∧ Event.Port event = Z.min (decimal (sub matches 3)) strconv.maxInt64)
  ∧ (Event.Type_ event = EventUserDisconnect →
       ∃ matches, FindStringSubmatch reDisconnect message = Some matches
         ∧ digits (sub matches 3) ∧ digits (sub matches 5) ∧ digits (sub matches 6)
         ∧ Event.Port event = Z.min (decimal (sub matches 3)) strconv.maxInt64
         ∧ Event.RxBytes event = Z.min (decimal (sub matches 5)) strconv.maxUint64
         ∧ Event.TxBytes event = Z.min (decimal (sub matches 6)) strconv.maxUint64)
  ∧ (Event.Type_ event = EventAuthFailed →
       (∃ matches, FindStringSubmatch reAuthFailed message = Some matches
          ∧ digits (sub matches 3)
          ∧ Event.Port event = Z.min (decimal (sub matches 3)) strconv.maxInt64)
       ∨ (is_Some (FindStringSubmatch reCookieAuthFailed message)
          ∧ Event.Port event = 0))
  ∧ (Event.Type_ event = EventDPDWarning →
       ∃ matches, FindStringSubmatch reDPDWarning message = Some matches
         ∧ digits (sub matches 3)
         ∧ Event.DPDSeconds event
           = Z.min (decimal (sub matches 3)) strconv.maxInt64).
Proof.
  assert (HA : ∀ s, digits s →
                 fst (strconv.Atoi s) = Z.min (decimal s) strconv.maxInt64).
  { intros s Hs. rewrite (Atoi_digits s Hs).
    destruct (Z.leb_spec (decimal s) strconv.maxInt64); simpl; lia. }
  assert (HU : ∀ s, digits s →
                 fst (strconv.ParseUint s) = Z.min (decimal s) strconv.maxUint64).
  { intros s Hs. rewrite (ParseUint_digits s Hs).
    destruct (Z.leb_spec (decimal s) strconv.maxUint64); simpl; lia. }
  intros event. subst event. unfold Parse.
  destruct (FindStringSubmatch reLogin message) as [m1|] eqn:E1.
  { simpl. split; [done|]. split.
    - intros _. exists m1. pose proof (reLogin_port _ _ E1) as Hd.
      by rewrite (HA _ Hd).
    - by repeat split. }
  destruct (FindStringSubmatch reDisconnect message) as [m2|] eqn:E2.
  { simpl. split; [done|]. split; [done|]. split.
    - intros _. exists m2.
      destruct (reDisconnect_numbers _ _ E2) as (H3 & H5 & H6).
      by rewrite (HA _ H3), (HU _ H5), (HU _ H6).
    - by repeat split. }
  destruct (FindStringSubmatch reSessionStart message) as [m3|] eqn:E3.
  { simpl. by repeat split. }
  destruct (FindStringSubmatch reSessionInvalidate message) as [m4|] eqn:E4.
  { simpl. by repeat split. }
  destruct (FindStringSubmatch reVPNIP message) as [m5|] eqn:E5.
  { simpl. by repeat split. }
  destruct (FindStringSubmatch reAuthFailed message) as [m6|] eqn:E6.
  { simpl. split; [done|]. split; [done|]. split; [done|]. split; [|done].
    intros _. left. exists m6. pose proof (reAuthFailed_port _ _ E6) as Hd.
    by rewrite (HA _ Hd). }
  destruct (FindStringSubmatch reCookieAuthFailed message) as [m7|] eqn:E7.
  { simpl. split; [done|]. split; [done|]. split; [done|]. split; [|done].
    intros _. right. eauto. }
  destruct (FindStringSubmatch reByePacket message) as [m8|] eqn:E8.
  { simpl. by repeat split. }
  destruct (FindStringSubmatch reDPDWarning message) as [m9|] eqn:E9.
  { simpl. split; [done|]. split; [done|]. split; [done|]. split; [done|].
    intros _. exists m9. pose proof (reDPDWarning_seconds _ _ E9) as Hd.
    by rewrite (HA _ Hd). }
  destruct (FindStringSubmatch reSecModClose message) as [m10|] eqn:E10.
  { simpl. by repeat split. }
  simpl. split; [|by repeat split].
  intros p Hp [m Hm]. unfold patterns in Hp.
  repeat (apply elem_of_cons in Hp as [->|Hp]; [congruence|]).
  by apply elem_of_nil in Hp.
Qed.

(** C6 as it was stated fails on a port, or a byte count, written
    with more digits than its type holds: [strconv] reports a range error and
    returns the largest value of the type, which [Parse] stores. *)
Lemma C6_overflowing_field_is_not_zero :
  let login := Parse 0 "main[bob]:1.2.3.4:99999999999999999999 user logged in"
                     "ocserv" in
  let disconnect :=
    Parse 0 ("main[bob]:1.2.3.4:1 user disconnected "
             +:+ "(reason: x, rx: 18446744073709551616, tx: 5)") "ocserv" in
  strconv.Atoi "99999999999999999999"
  = (9223372036854775807, Some strconv.ErrRange)
  ∧ Event.Type_ login = EventUserLogin
  ∧ Event.Port login = 9223372036854775807
  ∧ strconv.ParseUint "18446744073709551616"
    = (18446744073709551615, Some strconv.ErrRange)
  ∧ Event.Type_ disconnect = EventUserDisconnect
  ∧ Event.RxBytes disconnect = 18446744073709551615
  ∧ Event.TxBytes disconnect = 5.
Proof. repeat split; vm_compute; reflexivity. Qed.

(** The log line of a session invalidation is recognized and changes no
    table. *)
Example invalidate_line_not_recorded :
  let start := "sec-mod: initiating session for user 'a.mogilevich' (session: yKsy7b)" in
  let invalidate :=
    "sec-mod: invalidating session of user 'a.mogilevich' (session: yKsy7b)" in
  Event.Type_ (Parse 0 invalidate "ocserv") = EventSessionInvalidate
  ∧ sessions (ProcessLogLine [] 0 invalidate "ocserv" New) = ∅
  ∧ is_Some (sessions (ProcessLogLine [] 0 start "ocserv" New) !! "sid:ocserv:yKsy7b").
Proof.
  repeat split; try (vm_compute; reflexivity).
  vm_compute. eexists. reflexivity.
Qed.

(** * Further properties of the parser and the collector *)

(** ** The fields of the events [Parse] returns *)

Lemma group_field cl text :
  Forall (λ ch, inClass cl ch = true) text → (1 ≤ length text)%nat →
  fieldOf cl (string_of_list_ascii text).
Proof.
  intros Hall Hlen. split.
  - destruct text; simpl in *; [lia|done].
  - unfold within. by rewrite list_ascii_of_string_of_list_ascii.
Qed.

Lemma group_within cl text :
  Forall (λ ch, inClass cl ch = true) text → within cl (string_of_list_ascii text).
Proof. intros Hall. unfold within. by rewrite list_ascii_of_string_of_list_ascii. Qed.

Lemma within_notOf c s : within (notOf [c]) s ↔ lacks c s.
Proof.
  unfold within, lacks. induction (list_ascii_of_string s) as [|ch l IH]; simpl.
  - split; [tauto|constructor].
  - rewrite Forall_cons, IH. unfold inClass. simpl. rewrite !orb_false_r.
    rewrite negb_true_iff, Ascii.eqb_neq. tauto.
Qed.

Lemma fieldOf_notOf c s : fieldOf (notOf [c]) s ↔ s ≠ "" ∧ lacks c s.
Proof. unfold fieldOf. by rewrite within_notOf. Qed.

Ltac groups_of H :=
  apply findFrom_sound in H as (?start & ?rest & ?caps' & Hr & ->);
  simpl in Hr; break_reach; cbn; rewrite ?consumed_app.

Lemma reLogin_fields message matches :
  FindStringSubmatch reLogin message = Some matches →
  fieldOf (notOf ["]"%char]) (sub matches 1) ∧ fieldOf (notOf [":"%char]) (sub matches 2).
Proof. intros H. groups_of H. split; by apply group_field. Qed.

Lemma reDisconnect_fields message matches :
  FindStringSubmatch reDisconnect message = Some matches →
  fieldOf (notOf ["]"%char]) (sub matches 1) ∧ fieldOf (notOf [":"%char]) (sub matches 2)
  ∧ fieldOf (notOf [","%char]) (sub matches 4).
Proof. intros H. groups_of H. split; [|split]; by apply group_field. Qed.

Lemma reSessionStart_fields message matches :
  FindStringSubmatch reSessionStart message = Some matches →
  fieldOf (notOf ["'"%char]) (sub matches 1) ∧ fieldOf (notOf [")"%char]) (sub matches 2).
Proof. intros H. groups_of H. split; by apply group_field. Qed.

Lemma reSessionInvalidate_fields message matches :
  FindStringSubmatch reSessionInvalidate message = Some matches →
  fieldOf (notOf ["'"%char]) (sub matches 1) ∧ fieldOf (notOf [")"%char]) (sub matches 2).
Proof. intros H. groups_of H. split; by apply group_field. Qed.

Lemma reVPNIP_fields message matches :
  FindStringSubmatch reVPNIP message = Some matches →
  fieldOf (notOf ["]"%char]) (sub matches 1) ∧ fieldOf dotted (sub matches 2).
Proof. intros H. groups_of H. split; by apply group_field. Qed.

Lemma reAuthFailed_fields message matches :
  FindStringSubmatch reAuthFailed message = Some matches →
  within (notOf ["]"%char]) (sub matches 1) ∧ fieldOf (notOf [":"%char]) (sub matches 2).
Proof.
  intros H. apply findFrom_sound in H as (start & rest & caps' & Hr & ->).
  simpl in Hr. destruct Hr as (mid & caps0 & Hmain & mid' & caps1 & [Hopt|Hopt] & Hr);
    break_reach; cbn; rewrite ?consumed_app;
    (split; [first [by apply group_within | constructor] | by apply group_field]).
Qed.

Lemma reCookieAuthFailed_fields message matches :
  FindStringSubmatch reCookieAuthFailed message = Some matches →
  within (notOf ["]"%char]) (sub matches 1) ∧ fieldOf (notOf [" "%char]) (sub matches 2).
Proof.
  intros H. apply findFrom_sound in H as (start & rest & caps' & Hr & ->).
  simpl in Hr. destruct Hr as (mid & caps0 & Hmain & mid' & caps1 & [Hopt|Hopt] & Hr);
    break_reach; cbn; rewrite ?consumed_app;
    (split; [first [by apply group_within | constructor] | by apply group_field]).
Qed.

Lemma reByePacket_fields message matches :
  FindStringSubmatch reByePacket message = Some matches →
  fieldOf (notOf ["]"%char]) (sub matches 1) ∧ fieldOf (notOf [" "%char]) (sub matches 2).
Proof. intros H. groups_of H. split; by apply group_field. Qed.

Lemma reDPDWarning_fields message matches :
  FindStringSubmatch reDPDWarning message = Some matches →
  fieldOf (notOf ["]"%char]) (sub matches 1) ∧ fieldOf (notOf [" "%char]) (sub matches 2).
Proof. intros H. groups_of H. split; by apply group_field. Qed.

Lemma reSecModClose_fields message matches :
  FindStringSubmatch reSecModClose message = Some matches →
  fieldOf (notOf [" "%char]) (sub matches 1) ∧ fieldOf (notOf [")"%char]) (sub matches 2).
Proof. intros H. groups_of H. split; by apply group_field. Qed.

(** The event [Parse] builds from the groups of the pattern that decided. *)
Lemma Parse_cases ts message server :
  let event ty username clientIP port vpnIP sessionID reason rx tx dpd :=
    Event.mk ty ts server username clientIP port vpnIP sessionID reason rx tx
             message dpd in
  (∃ m, FindStringSubmatch reLogin message = Some m
        ∧ Parse ts message server
          = event EventUserLogin (sub m 1) (sub m 2) (fst (strconv.Atoi (sub m 3)))
                  "" "" "" 0 0 0)
  ∨ (∃ m, FindStringSubmatch reDisconnect message = Some m
          ∧ Parse ts message server
            = event EventUserDisconnect (sub m 1) (sub m 2)
                    (fst (strconv.Atoi (sub m 3))) "" "" (sub m 4)
                    (fst (strconv.ParseUint (sub m 5)))
                    (fst (strconv.ParseUint (sub m 6))) 0)
  ∨ (∃ m, FindStringSubmatch reSessionStart message = Some m
          ∧ Parse ts message server
            = event EventSessionStart (sub m 1) "" 0 "" (sub m 2) "" 0 0 0)
  ∨ (∃ m, FindStringSubmatch reSessionInvalidate message = Some m
          ∧ Parse ts message server
            = event EventSessionInvalidate (sub m 1) "" 0 "" (sub m 2) "" 0 0 0)
  ∨ (∃ m, FindStringSubmatch reVPNIP message = Some m
          ∧ Parse ts message server
            = event EventVPNIPAssigned (sub m 1) "" 0 (sub m 2) "" "" 0 0 0)
  ∨ (∃ m, FindStringSubmatch reAuthFailed message = Some m
          ∧ Parse ts message server
            = event EventAuthFailed (sub m 1) (sub m 2)
                    (fst (strconv.Atoi (sub m 3))) "" "" "" 0 0 0)
  ∨ (∃ m, FindStringSubmatch reCookieAuthFailed message = Some m
          ∧ Parse ts message server
            = event EventAuthFailed (sub m 1) (sub m 2) 0 "" "" "" 0 0 0)
  ∨ (∃ m, FindStringSubmatch reByePacket message = Some m
          ∧ Parse ts message server
            = event EventByePacket (sub m 1) (sub m 2) 0 "" "" "" 0 0 0)
  ∨ (∃ m, FindStringSubmatch reDPDWarning message = Some m
          ∧ Parse ts message server
            = event EventDPDWarning (sub m 1) (sub m 2) 0 "" "" "" 0 0
                    (fst (strconv.Atoi (sub m 3))))
  ∨ (∃ m, FindStringSubmatch reSecModClose message = Some m
          ∧ Parse ts message server
            = event EventSecModClose (sub m 1) "" 0 "" (sub m 2) "" 0 0 0)
  ∨ ((∀ p, p ∈ patterns → FindStringSubmatch p message = None)
     ∧ Parse ts message server = event EventUnknown "" "" 0 "" "" "" 0 0 0).
Proof.
  intros event. subst event. unfold Parse.
  destruct (FindStringSubmatch reLogin message) as [m|] eqn:E1; [left; eauto|right].
  destruct (FindStringSubmatch reDisconnect message) as [m|] eqn:E2; [left; eauto|right].
  destruct (FindStringSubmatch reSessionStart message) as [m|] eqn:E3; [left; eauto|right].
  destruct (FindStringSubmatch reSessionInvalidate message) as [m|] eqn:E4;
    [left; eauto|right].
  destruct (FindStringSubmatch reVPNIP message) as [m|] eqn:E5; [left; eauto|right].
  destruct (FindStringSubmatch reAuthFailed message) as [m|] eqn:E6; [left; eauto|right].
  destruct (FindStringSubmatch reCookieAuthFailed message) as [m|] eqn:E7;
    [left; eauto|right].
  destruct (FindStringSubmatch reByePacket message) as [m|] eqn:E8; [left; eauto|right].
  destruct (FindStringSubmatch reDPDWarning message) as [m|] eqn:E9; [left; eauto|right].
  destruct (FindStringSubmatch reSecModClose message) as [m|] eqn:E10;
    [left; eauto|right].
  split; [|done]. intros p Hp. unfold patterns in Hp.
  repeat (apply elem_of_cons in Hp as [->|Hp]; [done|]).
  by apply elem_of_nil in Hp.
Qed.

Ltac parse_cases ts message server :=
  destruct (Parse_cases ts message server)
    as [(m & Hm & ->)|[(m & Hm & ->)|[(m & Hm & ->)|[(m & Hm & ->)|[(m & Hm & ->)
       |[(m & Hm & ->)|[(m & Hm & ->)|[(m & Hm & ->)|[(m & Hm & ->)|[(m & Hm & ->)
       |[Hnone ->]]]]]]]]]]]; cbn [Event.Type_ Event.Timestamp Event.Server
         Event.Username Event.ClientIP Event.Port Event.VpnIP Event.SessionID
         Event.Reason Event.RxBytes Event.TxBytes Event.Raw Event.DPDSeconds].

(** X1. A line is classified as unknown exactly when none of the ten patterns
    matches it; the event then carries the timestamp, the partition and the
    raw line and nothing else. Whatever the kind, the timestamp, the partition
    and the raw line of the event are the arguments of [Parse]. *)
Theorem Parse_unknown_iff_no_pattern (ts : time.Time) (message server : string) :
  let event := Parse ts message server in
  (Event.Type_ event = EventUnknown
   ↔ ∀ p, p ∈ patterns → FindStringSubmatch p message = None)
  ∧ (Event.Type_ event = EventUnknown →
     event = Event.mk EventUnknown ts server "" "" 0 "" "" "" 0 0 message 0)
  ∧ Event.Timestamp event = ts
  ∧ Event.Server event = server
  ∧ Event.Raw event = message.
Proof.
  intros event. subst event.
  assert (Hin : ∀ p, p ∈ patterns → ∀ m, FindStringSubmatch p message = Some m →
                  ¬ ∀ q, q ∈ patterns → FindStringSubmatch q message = None).
  { intros p Hp m Hm Hall. rewrite (Hall p Hp) in Hm. done. }
  parse_cases ts message server;
    try (split; [split; [done|]|by repeat split];
         intros Hall; exfalso; eapply Hin; [|exact Hm|exact Hall];
         unfold patterns; set_unfold; tauto).
  by repeat split.
Qed.

Lemma decimal_nonneg s : digits s → 0 ≤ decimal s.
Proof. intros [_ Hs]. unfold decimal. by apply decimalFrom_ge. Qed.

Lemma Atoi_range s : digits s → 0 ≤ fst (strconv.Atoi s) ≤ strconv.maxInt64.
Proof.
  intros Hs. rewrite (Atoi_digits s Hs). pose proof (decimal_nonneg s Hs).
  destruct (Z.leb_spec (decimal s) strconv.maxInt64); simpl; [lia|].
  unfold strconv.maxInt64. lia.
Qed.

Lemma ParseUint_range s : digits s → 0 ≤ fst (strconv.ParseUint s) ≤ strconv.maxUint64.
Proof.
  intros Hs. rewrite (ParseUint_digits s Hs). pose proof (decimal_nonneg s Hs).
  destruct (Z.leb_spec (decimal s) strconv.maxUint64); simpl; [lia|].
  unfold strconv.maxUint64. lia.
Qed.

(** X2. The numbers of an event stay in the range of their Go type on every line:
    the port and the DPD seconds are an [int] that is never negative, the byte
    counts a [uint64]. *)
Theorem Parse_numbers_in_range (ts : time.Time) (message server : string) :
  let event := Parse ts message server in
  0 ≤ Event.Port event ≤ strconv.maxInt64
  ∧ 0 ≤ Event.DPDSeconds event ≤ strconv.maxInt64
  ∧ 0 ≤ Event.RxBytes event ≤ strconv.maxUint64
  ∧ 0 ≤ Event.TxBytes event ≤ strconv.maxUint64.
Proof.
  intros event. subst event.
  assert (H0 : 0 ≤ 0 ≤ strconv.maxInt64) by (unfold strconv.maxInt64; lia).
  assert (H1 : 0 ≤ 0 ≤ strconv.maxUint64) by (unfold strconv.maxUint64; lia).
  parse_cases ts message server; try done.
  - apply reLogin_port in Hm. by split; [apply Atoi_range|].
  - apply reDisconnect_numbers in Hm as (H3 & H5 & H6).
    split; [by apply Atoi_range|]. split; [done|].
    split; by apply ParseUint_range.
  - apply reAuthFailed_port in Hm. by split; [apply Atoi_range|].
  - apply reDPDWarning_seconds in Hm. split; [done|]. by split; [apply Atoi_range|].
Qed.

(** X3. The texts of an event have the shape of the group that captured them: a
    user name of a [main] or [worker] line is not empty and has no closing
    bracket (for a failed authentication it may be empty), a client address
    is not empty and has no colon ([main] lines) or no space ([worker]
    lines), a disconnect reason is not empty and has no comma, a session id
    is not empty and has no closing parenthesis, and an assigned address is a
    non-empty text of digits and dots. *)
Theorem Parse_field_shapes (ts : time.Time) (message server : string) :
  let event := Parse ts message server in
  match Event.Type_ event with
  | EventUserLogin =>
      fieldOf (notOf ["]"%char]) (Event.Username event)
      ∧ fieldOf (notOf [":"%char]) (Event.ClientIP event)
  | EventUserDisconnect =>
      fieldOf (notOf ["]"%char]) (Event.Username event)
      ∧ fieldOf (notOf [":"%char]) (Event.ClientIP event)
      ∧ fieldOf (notOf [","%char]) (Event.Reason event)
  | EventSessionStart | EventSessionInvalidate =>
      fieldOf (notOf ["'"%char]) (Event.Username event)
      ∧ fieldOf (notOf [")"%char]) (Event.SessionID event)
  | EventVPNIPAssigned =>
      fieldOf (notOf ["]"%char]) (Event.Username event)
      ∧ fieldOf dotted (Event.VpnIP event)
  | EventAuthFailed =>
      within (notOf ["]"%char]) (Event.Username event)
      ∧ (fieldOf (notOf [":"%char]) (Event.ClientIP event)
         ∨ fieldOf (notOf [" "%char]) (Event.ClientIP event))
  | EventByePacket | EventDPDWarning =>
      fieldOf (notOf ["]"%char]) (Event.Username event)
      ∧ fieldOf (notOf [" "%char]) (Event.ClientIP event)
  | EventSecModClose =>
      fieldOf (notOf [" "%char]) (Event.Username event)
      ∧ fieldOf (notOf [")"%char]) (Event.SessionID event)
  | EventUnknown =>
      Event.Username event = "" ∧ Event.ClientIP event = ""
      ∧ Event.VpnIP event = "" ∧ Event.SessionID event = ""
      ∧ Event.Reason event = ""
  end.
Proof.
  intros event. subst event. parse_cases ts message server.
  - exact (reLogin_fields _ _ Hm).
  - exact (reDisconnect_fields _ _ Hm).
  - exact (reSessionStart_fields _ _ Hm).
  - exact (reSessionInvalidate_fields _ _ Hm).
  - exact (reVPNIP_fields _ _ Hm).
  - apply reAuthFailed_fields in Hm as [? ?]. auto.
  - apply reCookieAuthFailed_fields in Hm as [? ?]. auto.
  - exact (reByePacket_fields _ _ Hm).
  - exact (reDPDWarning_fields _ _ Hm).
  - exact (reSecModClose_fields _ _ Hm).
  - done.
Qed.

(** ** A login line is read back *)

Lemma list_ascii_of_string_app (a b : string) :
  list_ascii_of_string (a +:+ b) = list_ascii_of_string a ++ list_ascii_of_string b.
Proof. induction a as [|ch a IH]; simpl; [done|]. by rewrite IH. Qed.

Lemma stripPrefix_app p rest : stripPrefix p (p ++ rest) = Some rest.
Proof. induction p as [|a p IH]; simpl; [done|]. by rewrite Ascii.eqb_refl. Qed.

Lemma matchRep_greedy {R} cl min text rest (k : list ascii → option R) res :
  Forall (λ ch, inClass cl ch = true) text →
  (min ≤ length text)%nat →
  stopsAt cl rest →
  k rest = Some res →
  matchRep cl min (text ++ rest) k = Some res.
Proof.
  intros Hall. revert min. induction Hall as [|ch text Hch Hall IH];
    intros min Hlen Hstop Hk.
  - simpl in Hlen. assert (min = 0%nat) as -> by lia. simpl.
    destruct rest as [|ch rest]; simpl; [done|].
    simpl in Hstop. by rewrite Hstop.
  - simpl in *. rewrite Hch. rewrite (IH (pred min)); [done|lia|done|done].
Qed.

Lemma matchHere_Lit s rest caps k :
  matchHere (Lit s) (list_ascii_of_string s ++ rest) caps k = k rest caps.
Proof. simpl. by rewrite stripPrefix_app. Qed.

Lemma matchHere_group i cl (s : string) rest caps k res :
  fieldOf cl s →
  stopsAt cl rest →
  k rest (<[i := s]> caps) = Some res →
  matchHere (group1 i cl) (list_ascii_of_string s ++ rest) caps k = Some res.
Proof.
  intros [Hne Hall] Hstop Hk. unfold group1. cbn [matchHere].
  apply matchRep_greedy; [done| |done|].
  - destruct s; [done|simpl; lia].
  - by rewrite consumed_app, string_of_list_ascii_of_string.
Qed.

Lemma findFrom_here r groups input res :
  matchHere r input (replicate (S groups) "")
    (λ rest caps, Some (<[0%nat := consumed input rest]> caps)) = Some res →
  findFrom r groups input = Some res.
Proof. intros H. destruct input; simpl in *; by rewrite H. Qed.

Lemma digits_fieldOf s : digits s ↔ fieldOf digit s.
Proof.
  unfold digits, fieldOf, within. apply and_iff_compat_l.
  apply Forall_iff. intros ch. unfold inClass, strconv.isDigit. simpl.
  rewrite orb_false_r.
  replace (N_of_ascii "0") with 48%N by reflexivity.
  replace (N_of_ascii "9") with 57%N by reflexivity.
  rewrite !andb_true_iff, !Z.leb_le, !N.leb_le. lia.
Qed.

(** X4. A line [main[u]:ip:port user logged in], whatever follows it, is read
    back as the login of [u] from [ip]: the user name is any non-empty text
    without a closing bracket, the address any non-empty text without a
    colon, the port the value of its digits, capped at the largest [int]. *)
Theorem Parse_login_line (ts : time.Time) (server u ip port tail : string) :
  fieldOf (notOf ["]"%char]) u →
  fieldOf (notOf [":"%char]) ip →
  digits port →
  let line := "main[" +:+ u +:+ "]:" +:+ ip +:+ ":" +:+ port
              +:+ " user logged in" +:+ tail in
  Parse ts line server
  = Event.mk EventUserLogin ts server u ip
             (Z.min (decimal port) strconv.maxInt64) "" "" "" 0 0 line 0.
Proof.
  intros Hu Hip Hport line.
  assert (Hfind : ∃ whole, FindStringSubmatch reLogin line
                           = Some [whole; u; ip; port]).
  { eexists. unfold FindStringSubmatch, reLogin, re, numSubexp. apply findFrom_here.
    subst line. rewrite !list_ascii_of_string_app.
    cbn [seq matchHere]. rewrite stripPrefix_app.
    apply matchHere_group; [done|done|].
    rewrite stripPrefix_app.
    apply matchHere_group; [done|done|].
    rewrite stripPrefix_app.
    apply matchHere_group; [by apply digits_fieldOf|done|].
    rewrite stripPrefix_app. reflexivity. }
  destruct Hfind as [whole Hfind].
  unfold Parse. rewrite Hfind. cbn [sub nth].
  rewrite (Atoi_digits port Hport).
  f_equal. destruct (Z.leb_spec (decimal port) strconv.maxInt64); simpl; lia.
Qed.

(** X4 on a concrete input. *)
Lemma Parse_login_line_witness :
  Parse 7 "main[alice]:198.51.100.7:40000 user logged in" "ocserv"
  = Event.mk EventUserLogin 7 "ocserv" "alice" "198.51.100.7" 40000 "" "" "" 0 0
             "main[alice]:198.51.100.7:40000 user logged in" 0.
Proof.
  apply (Parse_login_line 7 "ocserv" "alice" "198.51.100.7" "40000" "").
  - split; [done|]. unfold within. simpl. repeat constructor.
  - split; [done|]. unfold within. simpl. repeat constructor.
  - split; [done|]. simpl. repeat constructor.
Defined.

(** ** Hints of the workers and of the session manager *)

Lemma handleByePacket_workerContext event c :
  let key := workerContextKey (Event.Server event) (Event.Username event)
                              (Event.ClientIP event) in
  let ctx := contextOf key event c in
  workerContext (handleByePacket event c)
  = <[key := WorkerContext.mk (WorkerContext.Username ctx)
               (WorkerContext.ClientIP ctx) (WorkerContext.Server ctx) true
               (WorkerContext.DPDWarning ctx) (WorkerContext.DPDSeconds ctx)
               (WorkerContext.SecModClose ctx) (Event.Timestamp event)]>
      (workerContext c).
Proof.
  intros key ctx. subst ctx. unfold handleByePacket, getOrCreateWorkerContext, contextOf.
  fold key. destruct (workerContext c !! key) as [ctx|]; simpl; [done|].
  by rewrite insert_insert_eq.
Qed.

Lemma handleDPDWarning_workerContext event c :
  let key := workerContextKey (Event.Server event) (Event.Username event)
                              (Event.ClientIP event) in
  let ctx := contextOf key event c in
  workerContext (handleDPDWarning event c)
  = <[key := WorkerContext.mk (WorkerContext.Username ctx)
               (WorkerContext.ClientIP ctx) (WorkerContext.Server ctx)
               (WorkerContext.HadBye ctx) true (Event.DPDSeconds event)
               (WorkerContext.SecModClose ctx) (Event.Timestamp event)]>
      (workerContext c).
Proof.
  intros key ctx. subst ctx. unfold handleDPDWarning, getOrCreateWorkerContext, contextOf.
  fold key. destruct (workerContext c !! key) as [ctx|]; simpl; [done|].
  by rewrite insert_insert_eq.
Qed.

Lemma handleByePacket_rest event c :
  registry (handleByePacket event c) = registry c
  ∧ SessionDuration (handleByePacket event c) = SessionDuration c
  ∧ geoIP (handleByePacket event c) = geoIP c.
Proof.
  unfold handleByePacket, getOrCreateWorkerContext.
  destruct (workerContext c !! _); done.
Qed.

Lemma handleDPDWarning_rest event c :
  registry (handleDPDWarning event c) = registry c
  ∧ SessionDuration (handleDPDWarning event c) = SessionDuration c
  ∧ geoIP (handleDPDWarning event c) = geoIP c.
Proof.
  unfold handleDPDWarning, getOrCreateWorkerContext.
  destruct (workerContext c !! _); done.
Qed.

Lemma handleSecModClose_rest order event c :
  registry (handleSecModClose order event c) = registry c
  ∧ SessionDuration (handleSecModClose order event c) = SessionDuration c
  ∧ geoIP (handleSecModClose order event c) = geoIP c.
Proof.
  unfold handleSecModClose. simpl. destruct (markSecModClose _ _ _ !! _); done.
Qed.

(** The loop of [handleSecModClose] rewrites the contexts it visits whose
    user and partition are those of the event, and no other. *)
Lemma markSecModClose_lookup order event (m : gmap string WorkerContext.t) k :
  markSecModClose order event m !! k
  = match m !! k with
    | Some ctx =>
        if bool_decide (k ∈ order)
           && (String.eqb (WorkerContext.Username ctx) (Event.Username event)
               && String.eqb (WorkerContext.Server ctx) (Event.Server event))
        then Some (WorkerContext.mk (WorkerContext.Username ctx)
                     (WorkerContext.ClientIP ctx) (WorkerContext.Server ctx)
                     (WorkerContext.HadBye ctx) (WorkerContext.DPDWarning ctx)
                     (WorkerContext.DPDSeconds ctx) true (Event.Timestamp event))
        else Some ctx
    | None => None
    end.
Proof.
  revert m. induction order as [|key order IH]; intros m; simpl.
  - by destruct (m !! k).
  - rewrite IH. clear IH.
    destruct (decide (k = key)) as [->|Hne].
    + rewrite (bool_decide_eq_true_2 (key ∈ key :: order)) by apply list_elem_of_here.
      destruct (m !! key) as [ctx|] eqn:E; [|by rewrite E].
      destruct (String.eqb (WorkerContext.Username ctx) (Event.Username event)
                && String.eqb (WorkerContext.Server ctx) (Event.Server event)) eqn:F.
      * rewrite lookup_insert_eq. simpl. rewrite F.
        by destruct (bool_decide (key ∈ order)).
      * rewrite E, F. by rewrite !andb_false_r.
    + assert (bool_decide (k ∈ key :: order) = bool_decide (k ∈ order)) as ->.
      { apply bool_decide_ext. rewrite elem_of_cons. tauto. }
      destruct (m !! key) as [ctx|] eqn:E; [|done].
      destruct (String.eqb (WorkerContext.Username ctx) (Event.Username event)
                && String.eqb (WorkerContext.Server ctx) (Event.Server event));
        [|done].
      by rewrite lookup_insert_ne.
Qed.

Lemma markSecModClose_dom order event (m : gmap string WorkerContext.t) :
  dom (markSecModClose order event m) = dom m.
Proof.
  apply set_eq. intros k. rewrite !elem_of_dom, markSecModClose_lookup.
  destruct (m !! k) as [ctx|]; [|done].
  destruct (_ && _); split; eauto.
Qed.

(** X8. A hint changes nothing but the table of worker contexts and the
    timestamp of the last event: no session, no disconnect record, no counter,
    gauge or histogram is touched, and no context is removed. *)
Theorem hints_touch_only_worker_contexts (order : list string) (event : Event.t)
    (c : Collector) :
  isHint (Event.Type_ event) = true →
  let c' := ProcessEvent order event c in
  sessions c' = sessions c
  ∧ lastDisconnects c' = lastDisconnects c
  ∧ registry c'
    = Set_ LastEventTimestamp [] (time.Unix (Event.Timestamp event)) (registry c)
  ∧ SessionDuration c' = SessionDuration c
  ∧ geoIP c' = geoIP c
  ∧ dom (workerContext c) ⊆ dom (workerContext c').
Proof.
  intros Hty c'. subst c'. unfold ProcessEvent.
  set (c0 := metric _ c).
  destruct (Event.Type_ event); try done.
  - rewrite handleByePacket_sessions, handleByePacket_lastDisconnects.
    destruct (handleByePacket_rest event c0) as (-> & -> & ->).
    rewrite handleByePacket_workerContext.
    repeat split; try done. rewrite dom_insert. simpl.
    apply union_subseteq_r.
  - rewrite handleDPDWarning_sessions, handleDPDWarning_lastDisconnects.
    destruct (handleDPDWarning_rest event c0) as (-> & -> & ->).
    rewrite handleDPDWarning_workerContext.
    repeat split; try done. rewrite dom_insert. simpl.
    apply union_subseteq_r.
  - rewrite handleSecModClose_sessions, handleSecModClose_lastDisconnects.
    destruct (handleSecModClose_rest order event c0) as (-> & -> & ->).
    repeat split; try done.
    unfold handleSecModClose. simpl.
    destruct (markSecModClose _ _ _ !! _); simpl.
    + by rewrite markSecModClose_dom.
    + rewrite dom_insert, markSecModClose_dom. apply union_subseteq_r.
Qed.

(** X8 on a concrete input. *)
Lemma hints_touch_only_worker_contexts_witness :
  let bye := Event.mk EventByePacket 9 "ocserv" "u" "1.2.3.4" 0 "" "" "" 0 0 "" 0 in
  let c := handleLogin (exampleLogin 0) New in
  sessions (ProcessEvent [] bye c) = sessions c
  ∧ registry (ProcessEvent [] bye c)
    = Set_ LastEventTimestamp [] (time.Unix 9) (registry c).
Proof.
  intros bye c.
  destruct (hints_touch_only_worker_contexts [] bye c) as (H1 & _ & H3 & _);
    [reflexivity|]. by split.
Defined.

Lemma handleDisconnect_disconnections event c :
  let counted := [Event.Server event; Event.Username event; enrichedReason event c] in
  value (registry (handleDisconnect event c)) DisconnectionsTotal counted
  = value (registry c) DisconnectionsTotal counted + 1
  ∧ ∀ lvs, lvs ≠ counted →
      registry (handleDisconnect event c) !! (DisconnectionsTotal, lvs)
      = registry c !! (DisconnectionsTotal, lvs).
Proof.
  intros counted. subst counted. rewrite handleDisconnect_registry. cbv zeta.
  split.
  - other_vec. unfold Inc. rewrite value_Add_eq. f_equal.
    destruct (sessions c !! _); destruct (countsProblematic event c);
      unfold id, Dec, Inc; by other_vec.
  - intros lvs Hlvs. other_vec. unfold Inc.
    rewrite lookup_Add_ne by (intros [= ->]; done).
    destruct (sessions c !! _); destruct (countsProblematic event c);
      unfold id, Dec, Inc; by other_vec.
Qed.

Lemma countsProblematic_benign event c :
  isProblematicReason (enrichedReason event c) = false →
  countsProblematic event c = false.
Proof.
  intros H. unfold countsProblematic. destruct (sessions c !! _); [|done].
  rewrite H. by rewrite andb_false_r.
Qed.

Lemma flagged_insert f c key ctx (m : gmap string WorkerContext.t) k :
  workerContext c = <[key := ctx]> m →
  flagged f c k ↔ (k = key ∧ f ctx = true)
                  ∨ (k ≠ key ∧ ∃ x, m !! k = Some x ∧ f x = true).
Proof.
  intros Hc. unfold flagged. rewrite Hc. destruct (decide (k = key)) as [->|Hne].
  - rewrite lookup_insert_eq. split.
    + intros (x & [= <-] & Hx). by left.
    + intros [[_ Hx]|[Hne _]]; [eauto|done].
  - rewrite lookup_insert_ne by done. split.
    + intros H. by right.
    + intros [[Heq _]|[_ H]]; [done|exact H].
Qed.

Lemma not_flagged_false f c key :
  ¬ flagged f c key →
  match workerContext c !! key with Some x => f x | None => false end = false.
Proof.
  intros H. apply not_true_is_false. intros Ht. apply H. by apply flag_true_iff.
Qed.

Lemma contextOf_flag (f : WorkerContext.t → bool) key event c :
  f (WorkerContext.mk (Event.Username event) (Event.ClientIP event)
       (Event.Server event) false false 0 false (Event.Timestamp event)) = false →
  ¬ flagged f c key → f (contextOf key event c) = false.
Proof.
  intros Hnew Hc. unfold contextOf. apply not_flagged_false in Hc.
  by destruct (workerContext c !! key).
Qed.

(** X9. A BYE packet followed by the Disconnect of the same connection: unless
    the session was paused, a reason "unspecified error" becomes "client
    bye", the disconnection is counted under that reason, it is never counted
    as a problematic session, and the Disconnect consumes the hint. *)
Theorem bye_then_disconnect_is_client_bye (bye d : Event.t) (c : Collector) :
  let ipKey := workerContextKey (Event.Server bye) (Event.Username bye)
                                (Event.ClientIP bye) in
  let userOnlyKey := workerContextKey (Event.Server bye) (Event.Username bye) "" in
  sameConnection bye d →
  Event.Reason d = "unspecified error" →
  ¬ flagged WorkerContext.SecModClose c ipKey →
  ¬ flagged WorkerContext.SecModClose c userOnlyKey →
  let c1 := handleByePacket bye c in
  let c2 := handleDisconnect d c1 in
  let counted := [Event.Server d; Event.Username d; "client bye"] in
  enrichedReason d c1 = "client bye"
  ∧ value (registry c2) DisconnectionsTotal counted
    = value (registry c) DisconnectionsTotal counted + 1
  ∧ (∀ lvs, registry c2 !! (ProblematicSessionsTotal, lvs)
            = registry c !! (ProblematicSessionsTotal, lvs))
  ∧ workerContext c2 !! ipKey = None
  ∧ workerContext c2 !! userOnlyKey = None.
Proof.
  intros ipKey userOnlyKey (Hs & Hu & Hip) Hreason Hp1 Hp2 c1 c2 counted.
  assert (Hwc := handleByePacket_workerContext bye c). cbv zeta in Hwc.
  fold ipKey c1 in Hwc.
  assert (Hreg : registry c1 = registry c) by apply handleByePacket_rest.
  assert (Henrich : enrichedReason d c1 = "client bye").
  { unfold enrichedReason, enrichDisconnectReason.
    rewrite Hreason, Hs, Hu, Hip. fold ipKey userOnlyKey. simpl String.eqb. cbv iota.
    assert (Hpause : ∀ k, k = ipKey ∨ k = userOnlyKey →
              match workerContext c1 !! k with
              | Some x => WorkerContext.SecModClose x | None => false end = false).
    { intros k Hk. apply not_flagged_false.
      rewrite (flagged_insert _ _ _ _ _ _ Hwc). simpl.
      intros [[-> Hf]|[Hne (x & Hx & Hf)]].
      - rewrite contextOf_flag in Hf; done.
      - destruct Hk as [->| ->]; [done|]. apply Hp2. by exists x. }
    rewrite (Hpause userOnlyKey), (Hpause ipKey) by auto.
    by rewrite Hwc, lookup_insert_eq. }
  split; [done|]. split; [|split; [|split]].
  - subst c2 counted. rewrite <- Henrich, <- Hreg.
    apply handleDisconnect_disconnections.
  - intros lvs. subst c2. rewrite handleDisconnect_problematic_children.
    rewrite countsProblematic_benign by (by rewrite Henrich). by rewrite Hreg.
  - subst c2. rewrite handleDisconnect_workerContext, Hs, Hu, Hip. fold ipKey userOnlyKey.
    destruct (decide (ipKey = userOnlyKey)) as [->|Hne].
    + by rewrite lookup_delete_eq.
    + rewrite lookup_delete_ne by done. by rewrite lookup_delete_eq.
  - subst c2. rewrite handleDisconnect_workerContext, Hs, Hu. fold userOnlyKey.
    by rewrite lookup_delete_eq.
Qed.

(** X9 on a concrete input. *)
Lemma bye_then_disconnect_is_client_bye_witness :
  let bye := Event.mk EventByePacket 40 "ocserv" "u" "1.2.3.4" 0 "" "" "" 0 0 "" 0 in
  let d := exampleDisconnect "unspecified error" 45 in
  let c := handleLogin (exampleLogin 0) New in
  enrichedReason d (handleByePacket bye c) = "client bye"
  ∧ value (registry (handleDisconnect d (handleByePacket bye c)))
          DisconnectionsTotal ["ocserv"; "u"; "client bye"] = 1.
Proof.
  intros bye d c.
  destruct (bye_then_disconnect_is_client_bye bye d c) as (H1 & H2 & _).
  - by repeat split.
  - reflexivity.
  - intros (x & Hx & _). vm_compute in Hx. discriminate.
  - intros (x & Hx & _). vm_compute in Hx. discriminate.
  - split; [exact H1|]. exact H2.
Defined.

(** X10. A DPD warning followed by the Disconnect of the same connection: unless
    the session was paused or said BYE, a reason "unspecified error" becomes
    "dpd issue"; the disconnection is counted under that reason, and so is a
    problematic session exactly when the session is known and lasted more
    than zero and less than sixty seconds. *)
Theorem dpd_then_disconnect_is_dpd_issue (dpd d : Event.t) (c : Collector) :
  let ipKey := workerContextKey (Event.Server dpd) (Event.Username dpd)
                                (Event.ClientIP dpd) in
  let userOnlyKey := workerContextKey (Event.Server dpd) (Event.Username dpd) "" in
  let key := sessionKey (Event.Server d) (Event.Username d) (Event.ClientIP d)
                        (Event.Port d) in
  sameConnection dpd d →
  Event.Reason d = "unspecified error" →
  ¬ flagged WorkerContext.SecModClose c ipKey →
  ¬ flagged WorkerContext.SecModClose c userOnlyKey →
  ¬ flagged WorkerContext.HadBye c ipKey →
  let c1 := handleDPDWarning dpd c in
  let c2 := handleDisconnect d c1 in
  let counted := [Event.Server d; Event.Username d; "dpd issue"] in
  enrichedReason d c1 = "dpd issue"
  ∧ value (registry c2) DisconnectionsTotal counted
    = value (registry c) DisconnectionsTotal counted + 1
  ∧ (∀ session, sessions c !! key = Some session → shortLived d session →
       value (registry c2) ProblematicSessionsTotal counted
       = value (registry c) ProblematicSessionsTotal counted + 1)
  ∧ ((∀ session, sessions c !! key = Some session → ¬ shortLived d session) →
     ∀ lvs, registry c2 !! (ProblematicSessionsTotal, lvs)
            = registry c !! (ProblematicSessionsTotal, lvs)).
Proof.
  intros ipKey userOnlyKey key (Hs & Hu & Hip) Hreason Hp1 Hp2 Hbye c1 c2 counted.
  assert (Hwc := handleDPDWarning_workerContext dpd c). cbv zeta in Hwc.
  fold ipKey c1 in Hwc.
  assert (Hreg : registry c1 = registry c) by apply handleDPDWarning_rest.
  assert (Hses : sessions c1 = sessions c) by apply handleDPDWarning_sessions.
  assert (Henrich : enrichedReason d c1 = "dpd issue").
  { unfold enrichedReason, enrichDisconnectReason.
    rewrite Hreason, Hs, Hu, Hip. fold ipKey userOnlyKey. simpl String.eqb. cbv iota.
    assert (Hpause : ∀ k, k = ipKey ∨ k = userOnlyKey →
              match workerContext c1 !! k with
              | Some x => WorkerContext.SecModClose x | None => false end = false).
    { intros k Hk. apply not_flagged_false.
      rewrite (flagged_insert _ _ _ _ _ _ Hwc). simpl.
      intros [[-> Hf]|[Hne (x & Hx & Hf)]].
      - rewrite contextOf_flag in Hf; done.
      - destruct Hk as [->| ->]; [done|]. apply Hp2. by exists x. }
    rewrite (Hpause userOnlyKey), (Hpause ipKey) by auto.
    rewrite Hwc, lookup_insert_eq. simpl.
    by rewrite contextOf_flag. }
  assert (Hcounts : countsProblematic d c1
                    = match sessions c !! key with
                      | Some session =>
                          let duration := time.Sub (Event.Timestamp d)
                                                   (Session.StartTime session) in
                          (duration <? ProblematicSessionThreshold) && (0 <? duration)
                      | None => false
                      end).
  { unfold countsProblematic. rewrite Hses. fold key.
    destruct (sessions c !! key); [|done]. rewrite Henrich. simpl.
    by rewrite andb_true_r. }
  split; [done|]. split; [|split].
  - subst c2 counted. rewrite <- Henrich, <- Hreg.
    apply handleDisconnect_disconnections.
  - intros session Hfound Hshort. subst c2. unfold value.
    rewrite handleDisconnect_problematic_children, Hcounts, Hfound. cbv zeta.
    apply shortLived_spec in Hshort. cbv zeta in Hshort. rewrite Hshort.
    rewrite Henrich, Hreg. fold counted. fold (value (Inc ProblematicSessionsTotal counted (registry c)) ProblematicSessionsTotal counted).
    unfold Inc. by rewrite value_Add_eq.
  - intros Hlong lvs. subst c2.
    rewrite handleDisconnect_problematic_children, Hcounts, Hreg.
    destruct (sessions c !! key) as [session|] eqn:Hfound; [|done].
    cbv zeta. destruct (_ && _) eqn:E; [|done].
    exfalso. apply (Hlong session eq_refl). by apply shortLived_spec.
Qed.

(** X10 on a concrete input. *)
Lemma dpd_then_disconnect_is_dpd_issue_witness :
  let dpd := Event.mk EventDPDWarning 40 "ocserv" "u" "1.2.3.4" 0 "" "" "" 0 0 "" 137 in
  let d := exampleDisconnect "unspecified error" (45 * time.Second) in
  let c := handleLogin (exampleLogin 0) New in
  enrichedReason d (handleDPDWarning dpd c) = "dpd issue"
  ∧ value (registry (handleDisconnect d (handleDPDWarning dpd c)))
          ProblematicSessionsTotal ["ocserv"; "u"; "dpd issue"] = 1.
Proof.
  intros dpd d c.
  destruct (dpd_then_disconnect_is_dpd_issue dpd d c) as (H1 & _ & H3 & _).
  - by repeat split.
  - reflexivity.
  - intros (x & Hx & _). vm_compute in Hx. discriminate.
  - intros (x & Hx & _). vm_compute in Hx. discriminate.
  - intros (x & Hx & _). vm_compute in Hx. discriminate.
  - split; [exact H1|].
    refine (eq_trans (H3 (Session.mk "ocserv" "u" "1.2.3.4" 30595 "" "" "" 0) _ _) _).
    + vm_compute. reflexivity.
    + unfold shortLived. simpl. unfold time.Second. lia.
    + reflexivity.
Defined.

(** X11. A pause of the session manager followed by a Disconnect of the same
    user, from whatever address: when the loop of the pause visits the worker
    contexts and the context stored without address (if there is one) is a
    context of this user, a reason "unspecified error" becomes "mobile
    sleep", whatever BYE or DPD hints the connection has; the disconnection
    is counted under that reason and never as a problematic session. *)
Theorem pause_then_disconnect_is_mobile_sleep (order : list string)
    (pause d : Event.t) (c : Collector) :
  let userOnlyKey := workerContextKey (Event.Server pause) (Event.Username pause) "" in
  Event.Server d = Event.Server pause →
  Event.Username d = Event.Username pause →
  Event.Reason d = "unspecified error" →
  visits order (workerContext c) →
  (∀ ctx, workerContext c !! userOnlyKey = Some ctx →
     WorkerContext.Username ctx = Event.Username pause
     ∧ WorkerContext.Server ctx = Event.Server pause) →
  let c1 := handleSecModClose order pause c in
  let c2 := handleDisconnect d c1 in
  let counted := [Event.Server d; Event.Username d; "mobile sleep"] in
  flagged WorkerContext.SecModClose c1 userOnlyKey
  ∧ enrichedReason d c1 = "mobile sleep"
  ∧ value (registry c2) DisconnectionsTotal counted
    = value (registry c) DisconnectionsTotal counted + 1
  ∧ (∀ lvs, registry c2 !! (ProblematicSessionsTotal, lvs)
            = registry c !! (ProblematicSessionsTotal, lvs))
  ∧ workerContext c2 !! userOnlyKey = None.
Proof.
  intros userOnlyKey Hs Hu Hreason Hvisits Hown c1 c2 counted.
  assert (Hreg : registry c1 = registry c) by apply handleSecModClose_rest.
  assert (Hflag : flagged WorkerContext.SecModClose c1 userOnlyKey).
  { subst c1. unfold flagged, handleSecModClose. simpl. fold userOnlyKey.
    destruct (markSecModClose order pause (workerContext c) !! userOnlyKey)
      as [ctx'|] eqn:E; simpl.
    - exists ctx'. split; [done|].
      rewrite markSecModClose_lookup in E.
      destruct (workerContext c !! userOnlyKey) as [ctx|] eqn:F; [|done].
      destruct (Hown ctx eq_refl) as [Hcu Hcs].
      rewrite (bool_decide_eq_true_2 _ (visits_elem _ _ _ _ Hvisits F)) in E.
      rewrite Hcu, Hcs, !String.eqb_refl in E. simpl in E. by injection E as <-.
    - rewrite lookup_insert_eq. eauto. }
  assert (Henrich : enrichedReason d c1 = "mobile sleep").
  { unfold enrichedReason, enrichDisconnectReason.
    rewrite Hreason, Hs, Hu. fold userOnlyKey. simpl String.eqb. cbv iota.
    apply flag_true_iff in Hflag. by rewrite Hflag. }
  split; [done|]. split; [done|]. split; [|split].
  - subst c2 counted. rewrite <- Henrich, <- Hreg.
    apply handleDisconnect_disconnections.
  - intros lvs. subst c2. rewrite handleDisconnect_problematic_children.
    rewrite countsProblematic_benign by (by rewrite Henrich). by rewrite Hreg.
  - subst c2. rewrite handleDisconnect_workerContext, Hs, Hu. fold userOnlyKey.
    by rewrite lookup_delete_eq.
Qed.

(** X11 on a concrete input. *)
Lemma pause_then_disconnect_is_mobile_sleep_witness :
  let bye := Event.mk EventByePacket 30 "ocserv" "u" "1.2.3.4" 0 "" "" "" 0 0 "" 0 in
  let pause := Event.mk EventSecModClose 40 "ocserv" "u" "" 0 "" "u7N/JC" "" 0 0 "" 0 in
  let d := exampleDisconnect "unspecified error" 45 in
  let c := handleByePacket bye (handleLogin (exampleLogin 0) New) in
  let c1 := handleSecModClose ["ocserv:u:1.2.3.4"] pause c in
  enrichedReason d c1 = "mobile sleep"
  ∧ value (registry (handleDisconnect d c1))
          DisconnectionsTotal ["ocserv"; "u"; "mobile sleep"] = 1.
Proof.
  intros bye pause d c c1.
  destruct (pause_then_disconnect_is_mobile_sleep ["ocserv:u:1.2.3.4"] pause d c)
    as (_ & H1 & H2 & _).
  - reflexivity.
  - reflexivity.
  - reflexivity.
  - compute_done.
  - intros ctx Hctx. vm_compute in Hctx. discriminate.
  - split; [exact H1|]. exact H2.
Defined.

(** ** Which vectors a handler writes *)

Lemma onlyWrites_refl vs r : onlyWrites vs r r.
Proof. by intros v lvs _. Qed.

Lemma onlyWrites_trans vs r1 r2 r3 :
  onlyWrites vs r1 r2 → onlyWrites vs r2 r3 → onlyWrites vs r1 r3.
Proof. intros H1 H2 v lvs Hv. by rewrite H2, H1. Qed.

Lemma onlyWrites_Add vs v lvs d r r' :
  v ∈ vs → onlyWrites vs r r' → onlyWrites vs r (Add v lvs d r').
Proof.
  intros Hv H v' lvs' Hv'. rewrite lookup_Add_ne; [by apply H|].
  intros [= -> _]. done.
Qed.

Lemma onlyWrites_Set vs v lvs x r r' :
  v ∈ vs → onlyWrites vs r r' → onlyWrites vs r (Set_ v lvs x r').
Proof.
  intros Hv H v' lvs' Hv'. rewrite lookup_Set_ne; [by apply H|].
  intros [= -> _]. done.
Qed.

Lemma onlyWrites_Delete vs v lvs r r' :
  v ∈ vs → onlyWrites vs r r' → onlyWrites vs r (DeleteLabelValues v lvs r').
Proof.
  intros Hv H v' lvs' Hv'. rewrite lookup_Delete_ne; [by apply H|].
  intros [= -> _]. done.
Qed.

Ltac only_writes :=
  repeat first
    [ apply onlyWrites_refl
    | apply onlyWrites_Add; [set_unfold; tauto|]
    | apply onlyWrites_Set; [set_unfold; tauto|]
    | apply onlyWrites_Delete; [set_unfold; tauto|] ].

Lemma handleLogin_writes event c :
  onlyWrites (written EventUserLogin) (registry c) (registry (handleLogin event c)).
Proof.
  rewrite handleLogin_registry. cbv zeta.
  destruct (geoIP c) as [resolver|]; [destruct (negb _)|];
    destruct (isReconnect event c); unfold id, Inc; simpl; only_writes.
Qed.

Lemma handleDisconnect_writes event c :
  onlyWrites (written EventUserDisconnect) (registry c)
             (registry (handleDisconnect event c)).
Proof.
  rewrite handleDisconnect_registry. cbv zeta.
  destruct (sessions c !! _); destruct (countsProblematic event c);
    unfold id, Inc, Dec; simpl; only_writes.
Qed.

Lemma handleVPNIP_writes order event c :
  onlyWrites (written EventVPNIPAssigned) (registry c)
             (registry (handleVPNIP order event c)).
Proof.
  destruct (handleVPNIP_chooses order event c) as [[-> _]|(k & s & _ & _ & _ & ->)].
  - apply onlyWrites_refl.
  - rewrite assignVPNIP_registry. simpl. only_writes.
Qed.

Lemma handleAuthFailed_registry event c :
  ∃ country code,
    country ≠ ""
    ∧ (geoIP c = None → country = "Unknown" ∧ code = "")
    ∧ (∀ resolver, geoIP c = Some resolver →
         code = snd (resolver (Event.ClientIP event))
         ∧ country = if String.eqb (fst (resolver (Event.ClientIP event))) ""
                     then "Unknown" else fst (resolver (Event.ClientIP event)))
    ∧ registry (handleAuthFailed event c)
      = Inc AuthFailedTotal
          [Event.Server event; Event.Username event; Event.ClientIP event;
           country; code] (registry c).
Proof.
  unfold handleAuthFailed. destruct (geoIP c) as [resolver|].
  - destruct (resolver (Event.ClientIP event)) as [country code] eqn:E. simpl.
    exists (if String.eqb country "" then "Unknown" else country), code.
    split; [|split; [done|split; [|done]]].
    + destruct (String.eqb_spec country ""); done.
    + intros ? [= <-]. by rewrite E.
  - exists "Unknown", "". by repeat split.
Qed.

Lemma handleAuthFailed_rest event c :
  lastDisconnects (handleAuthFailed event c) = lastDisconnects c
  ∧ workerContext (handleAuthFailed event c) = workerContext c
  ∧ SessionDuration (handleAuthFailed event c) = SessionDuration c
  ∧ geoIP (handleAuthFailed event c) = geoIP c.
Proof.
  unfold handleAuthFailed.
  destruct (geoIP c) as [resolver|] eqn:E; [destruct (resolver _)|];
    simpl; by rewrite ?E.
Qed.

Lemma handleAuthFailed_writes event c :
  onlyWrites (written EventAuthFailed) (registry c)
             (registry (handleAuthFailed event c)).
Proof.
  destruct (handleAuthFailed_registry event c) as (country & code & _ & _ & _ & ->).
  unfold Inc. simpl. only_writes.
Qed.

Lemma sweepSessions_writes now order c :
  onlyWrites [SessionInfo; ActiveSessions] (registry c)
             (registry (sweepSessions now order c)).
Proof.
  revert c. induction order as [|key order IH]; intros c; simpl.
  - apply onlyWrites_refl.
  - eapply onlyWrites_trans; [|apply IH].
    destruct (sessions c !! key) as [session|]; [|apply onlyWrites_refl].
    destruct (isSidKey key); [apply onlyWrites_refl|].
    destruct (isStale now session); [|apply onlyWrites_refl].
    unfold_state. unfold Dec. only_writes.
Qed.

Lemma onlyWrites_cons v vs r r' : onlyWrites vs r r' → onlyWrites (v :: vs) r r'.
Proof. intros H v' lvs Hv. apply H. set_unfold. tauto. Qed.

Lemma ProcessEvent_writes order event c :
  onlyWrites (written (Event.Type_ event))
    (Set_ LastEventTimestamp [] (time.Unix (Event.Timestamp event)) (registry c))
    (registry (ProcessEvent order event c)).
Proof.
  unfold ProcessEvent. set (c0 := metric _ c).
  change (Set_ LastEventTimestamp [] (time.Unix (Event.Timestamp event)) (registry c))
    with (registry c0).
  destruct (Event.Type_ event); try apply onlyWrites_refl.
  - apply handleLogin_writes.
  - apply handleDisconnect_writes.
  - apply handleVPNIP_writes.
  - apply handleAuthFailed_writes.
  - destruct (handleByePacket_rest event c0) as (-> & _). apply onlyWrites_refl.
  - destruct (handleDPDWarning_rest event c0) as (-> & _). apply onlyWrites_refl.
  - destruct (handleSecModClose_rest order event c0) as (-> & _).
    apply onlyWrites_refl.
Qed.

Lemma CleanupOldDisconnects_writes now o c :
  onlyWrites [SessionInfo; ActiveSessions] (registry c)
             (registry (CleanupOldDisconnects now o c)).
Proof.
  unfold CleanupOldDisconnects. cbv zeta.
  apply (sweepSessions_writes now (orderSessions o)
           (set_workerContext _ (set_lastDisconnects _ c))).
Qed.

(** X6. An event writes to the vectors of its kind and to the timestamp of the
    last event, and to no other vector; a pass of the sweeper writes to the
    "session info" and active-session gauges only. *)
Theorem event_writes_its_vectors (a : Action) (c : Collector) (v : Vec)
    (lvs : list string) :
  v ∉ match a with
      | Process _ event => LastEventTimestamp :: written (Event.Type_ event)
      | Sweep _ _ => [SessionInfo; ActiveSessions]
      end →
  registry (step c a) !! (v, lvs) = registry c !! (v, lvs).
Proof.
  destruct a as [order event|now o]; simpl; intros Hv.
  - rewrite (ProcessEvent_writes order event c v lvs) by (set_unfold; tauto).
    apply lookup_Set_ne. intros [= -> _]. set_unfold. tauto.
  - by apply CleanupOldDisconnects_writes.
Qed.

(** X6 on a concrete input. *)
Lemma event_writes_its_vectors_witness :
  let c := handleLogin (exampleLogin 0) New in
  let d := exampleDisconnect "user disconnected" 9 in
  registry (step c (Process [] d)) !! (ConnectionsTotal, ["ocserv"; "u"; "1.2.3.4"])
  = registry c !! (ConnectionsTotal, ["ocserv"; "u"; "1.2.3.4"]).
Proof.
  intros c d. apply (event_writes_its_vectors (Process [] d) c).
  simpl. set_unfold. intros H. repeat (destruct H as [H|H]; [discriminate H|]). done.
Defined.

(** ** Counters only go up *)

Lemma grows_refl r : grows r r.
Proof. intros v lvs _. lia. Qed.

Lemma grows_trans r1 r2 r3 : grows r1 r2 → grows r2 r3 → grows r1 r3.
Proof. intros H1 H2 v lvs Hv. specialize (H1 v lvs Hv). specialize (H2 v lvs Hv). lia. Qed.

Lemma grows_Add v lvs d r r' :
  0 ≤ d → grows r r' → grows r (Add v lvs d r').
Proof.
  intros Hd H v' lvs' Hv'. specialize (H v' lvs' Hv').
  destruct (decide ((v', lvs') = (v, lvs))) as [[= -> ->]|Hne].
  - rewrite value_Add_eq. lia.
  - by rewrite value_Add_ne.
Qed.

Lemma grows_gauge_Add v lvs d r r' :
  isCounter v = false → grows r r' → grows r (Add v lvs d r').
Proof.
  intros Hg H v' lvs' Hv'. rewrite value_Add_ne; [by apply H|].
  intros [= -> _]. congruence.
Qed.

Lemma grows_gauge_Set v lvs x r r' :
  isCounter v = false → grows r r' → grows r (Set_ v lvs x r').
Proof.
  intros Hg H v' lvs' Hv'. rewrite value_Set_ne; [by apply H|].
  intros [= -> _]. congruence.
Qed.

Lemma grows_gauge_Delete v lvs r r' :
  isCounter v = false → grows r r' → grows r (DeleteLabelValues v lvs r').
Proof.
  intros Hg H v' lvs' Hv'. rewrite value_Delete_ne; [by apply H|].
  intros [= -> _]. congruence.
Qed.

Ltac grows_step :=
  repeat first
    [ apply grows_refl
    | apply grows_gauge_Add; [reflexivity|]
    | apply grows_gauge_Set; [reflexivity|]
    | apply grows_gauge_Delete; [reflexivity|]
    | apply grows_Add; [lia|] ].

Lemma handleLogin_grows event c :
  grows (registry c) (registry (handleLogin event c)).
Proof.
  rewrite handleLogin_registry. cbv zeta.
  destruct (geoIP c) as [resolver|]; [destruct (negb _)|];
    destruct (isReconnect event c); unfold id, Inc; simpl; grows_step.
Qed.

Lemma handleDisconnect_grows event c :
  0 ≤ Event.RxBytes event → 0 ≤ Event.TxBytes event →
  grows (registry c) (registry (handleDisconnect event c)).
Proof.
  intros Hrx Htx. rewrite handleDisconnect_registry. cbv zeta.
  destruct (sessions c !! _); destruct (countsProblematic event c);
    unfold id, Inc, Dec; simpl; grows_step.
Qed.

Lemma handleVPNIP_grows order event c :
  grows (registry c) (registry (handleVPNIP order event c)).
Proof.
  destruct (handleVPNIP_chooses order event c) as [[-> _]|(k & s & _ & _ & _ & ->)].
  - apply grows_refl.
  - rewrite assignVPNIP_registry. simpl. grows_step.
Qed.

Lemma handleAuthFailed_grows event c :
  grows (registry c) (registry (handleAuthFailed event c)).
Proof.
  destruct (handleAuthFailed_registry event c) as (country & code & _ & _ & _ & ->).
  unfold Inc. grows_step.
Qed.

Lemma ProcessEvent_grows order event c :
  0 ≤ Event.RxBytes event → 0 ≤ Event.TxBytes event →
  grows (registry c) (registry (ProcessEvent order event c)).
Proof.
  intros Hrx Htx. unfold ProcessEvent. set (c0 := metric _ c).
  assert (H0 : grows (registry c) (registry c0)).
  { subst c0. unfold_state. grows_step. }
  eapply grows_trans; [exact H0|].
  destruct (Event.Type_ event); try apply grows_refl.
  - apply handleLogin_grows.
  - by apply handleDisconnect_grows.
  - apply handleVPNIP_grows.
  - apply handleAuthFailed_grows.
  - destruct (handleByePacket_rest event c0) as (-> & _). apply grows_refl.
  - destruct (handleDPDWarning_rest event c0) as (-> & _). apply grows_refl.
  - destruct (handleSecModClose_rest order event c0) as (-> & _). apply grows_refl.
Qed.

Lemma sweepSessions_grows now order c :
  grows (registry c) (registry (sweepSessions now order c)).
Proof.
  revert c. induction order as [|key order IH]; intros c; simpl.
  - apply grows_refl.
  - eapply grows_trans; [|apply IH].
    destruct (sessions c !! key) as [session|]; [|apply grows_refl].
    destruct (isSidKey key); [apply grows_refl|].
    destruct (isStale now session); [|apply grows_refl].
    unfold_state. unfold Dec. grows_step.
Qed.

Lemma Parse_bytes_nonneg ts message server :
  0 ≤ Event.RxBytes (Parse ts message server)
  ∧ 0 ≤ Event.TxBytes (Parse ts message server).
Proof.
  parse_cases ts message server; try done.
  apply reDisconnect_numbers in Hm as (_ & H5 & H6).
  split; by apply ParseUint_range.
Qed.

Lemma feed_grows c i : grows (registry c) (registry (feed c i)).
Proof.
  destruct i as [order ts message server|now o]; simpl.
  - unfold ProcessLogLine. destruct (decide _); [apply grows_refl|].
    apply ProcessEvent_grows; apply Parse_bytes_nonneg.
  - unfold CleanupOldDisconnects. cbv zeta.
    apply (sweepSessions_grows now (orderSessions o)
             (set_workerContext _ (set_lastDisconnects _ c))).
Qed.

(** X7. Whatever log lines and ticks of the sweeper the collector is fed, in
    whatever order, no child of a counter vector ever goes down: the byte
    counts a line adds are never negative, and the sweeper and the gauges
    leave the counters alone. *)
Theorem counters_never_decrease (inputs : list Input) (c : Collector) (v : Vec)
    (lvs : list string) :
  isCounter v = true →
  value (registry c) v lvs ≤ value (registry (feedAll inputs c)) v lvs.
Proof.
  intros Hv. revert c. induction inputs as [|i inputs IH]; intros c; simpl; [lia|].
  etransitivity; [|apply IH]. by apply feed_grows.
Qed.

(** X7 on a concrete input. *)
Lemma counters_never_decrease_witness :
  let inputs :=
    [Line [] 0 "main[u]:1.2.3.4:30595 user logged in" "ocserv";
     Tick (25 * time.Hour) (mkSweepOrder [] [] ["ocserv:u:1.2.3.4:30595"])] in
  value (registry New) ConnectionsTotal ["ocserv"; "u"; "1.2.3.4"]
  ≤ value (registry (feedAll inputs New)) ConnectionsTotal ["ocserv"; "u"; "1.2.3.4"].
Proof.
  intros inputs. apply (counters_never_decrease inputs New). reflexivity.
Defined.

(** ** The timestamp of the last event *)

(** X5. A line that no pattern matches leaves the collector as it is; any other
    line sets the timestamp of the last event to the seconds of its own
    timestamp, whatever its handler does; the sweeper does not touch it. *)
Theorem last_event_is_the_last_recognised_line (order : list string)
    (ts : time.Time) (message server : string) (c : Collector) :
  let c' := ProcessLogLine order ts message server c in
  ((∀ p, p ∈ patterns → FindStringSubmatch p message = None) → c' = c)
  ∧ ((∃ p, p ∈ patterns ∧ is_Some (FindStringSubmatch p message)) →
     registry c' !! (LastEventTimestamp, []) = Some (time.Unix ts))
  ∧ (∀ now o lvs,
       registry (CleanupOldDisconnects now o c) !! (LastEventTimestamp, lvs)
       = registry c !! (LastEventTimestamp, lvs)).
Proof.
  intros c'. subst c'. unfold ProcessLogLine.
  split; [|split].
  - intros Hall. destruct (decide _) as [|Hne]; [done|]. exfalso. apply Hne.
    parse_cases ts message server; try done;
      (rewrite Hall in Hm; [done|unfold patterns; set_unfold; tauto]).
  - intros (p & Hp & m0 & Hm0).
    destruct (decide _) as [Hty|Hne].
    + exfalso. revert Hty. parse_cases ts message server; try done.
      by rewrite (Hnone p Hp) in Hm0.
    + rewrite (ProcessEvent_writes order _ c LastEventTimestamp []).
      * unfold Set_. rewrite lookup_insert_eq. f_equal.
        by parse_cases ts message server.
      * destruct (Event.Type_ _); simpl; set_unfold; intros H;
          repeat (destruct H as [H|H]; [discriminate H|]); done.
  - intros now o lvs. apply CleanupOldDisconnects_writes. set_unfold.
    intros [H|[H|H]]; [discriminate H|discriminate H|done].
Qed.

(** ** What a pass of the sweeper keeps *)

Lemma CleanupOldDisconnects_tables now o c :
  lastDisconnects (CleanupOldDisconnects now o c)
  = sweepDisconnects now (orderDisconnects o) (lastDisconnects c)
  ∧ workerContext (CleanupOldDisconnects now o c)
    = sweepContexts now (orderContexts o) (workerContext c)
  ∧ ∀ k, sessions (CleanupOldDisconnects now o c) !! k
         = match sessions c !! k with
           | Some session =>
               if bool_decide (k ∈ orderSessions o)
                  && (negb (isSidKey k) && isStale now session)
               then None else Some session
           | None => None
           end.
Proof.
  unfold CleanupOldDisconnects. cbv zeta.
  rewrite sweepSessions_lastDisconnects, sweepSessions_workerContext.
  split; [done|]. split; [done|]. intros k. by rewrite sweepSessions_lookup.
Qed.

(** X19. A pass of the sweeper that visits the three tables keeps exactly the
    disconnect records and the worker contexts that are at most ten minutes
    old (twice the reconnect window), and exactly the sessions that are under
    a key it skips or at most twenty-four hours old; what it keeps it keeps
    unchanged. *)
Theorem sweeper_keeps_the_recent (now : time.Time) (o : SweepOrder) (c : Collector) :
  visits (orderDisconnects o) (lastDisconnects c) →
  visits (orderContexts o) (workerContext c) →
  visits (orderSessions o) (sessions c) →
  let c' := CleanupOldDisconnects now o c in
  (∀ k record,
     lastDisconnects c' !! k = Some record
     ↔ lastDisconnects c !! k = Some record
       ∧ now - DisconnectRecord.Timestamp record ≤ 10 * time.Minute)
  ∧ (∀ k ctx,
       workerContext c' !! k = Some ctx
       ↔ workerContext c !! k = Some ctx
         ∧ now - WorkerContext.LastUpdate ctx ≤ 10 * time.Minute)
  ∧ (∀ k session,
       sessions c' !! k = Some session
       ↔ sessions c !! k = Some session
         ∧ (isSidKey k = true ∨ now - Session.StartTime session ≤ 24 * time.Hour)).
Proof.
  intros Hd Hw Hs c'. subst c'.
  destruct (CleanupOldDisconnects_tables now o c) as (-> & -> & Hses).
  assert (Hten : ∀ t, (ReconnectWindow * 2 <? time.Sub now t) = true
                      ↔ ¬ now - t ≤ 10 * time.Minute).
  { intros t. rewrite ltb_Sub.
    - rewrite Z.ltb_lt. unfold ReconnectWindow. lia.
    - unfold ReconnectWindow, time.Minute, time.Second, time.minDuration,
        time.maxDuration. lia. }
  split; [|split].
  - intros k record. rewrite sweepDisconnects_lookup.
    destruct (lastDisconnects c !! k) as [r|] eqn:E; [|by split; [|intros []]].
    rewrite (bool_decide_eq_true_2 _ (visits_elem _ _ _ _ Hd E)). simpl.
    destruct (_ <? _) eqn:F.
    + apply Hten in F. split; [done|]. by intros [[= ->] ?].
    + split; [intros [= ->]|by intros []]. split; [done|].
      destruct (decide (now - DisconnectRecord.Timestamp record ≤ 10 * time.Minute))
        as [|Hn]; [done|]. apply Hten in Hn. congruence.
  - intros k ctx. rewrite sweepContexts_lookup.
    destruct (workerContext c !! k) as [x|] eqn:E; [|by split; [|intros []]].
    rewrite (bool_decide_eq_true_2 _ (visits_elem _ _ _ _ Hw E)). simpl.
    destruct (_ <? _) eqn:F.
    + apply Hten in F. split; [done|]. by intros [[= ->] ?].
    + split; [intros [= ->]|by intros []]. split; [done|].
      destruct (decide (now - WorkerContext.LastUpdate ctx ≤ 10 * time.Minute))
        as [|Hn]; [done|]. apply Hten in Hn. congruence.
  - intros k session. rewrite Hses.
    destruct (sessions c !! k) as [s|] eqn:E; [|by split; [|intros []]].
    rewrite (bool_decide_eq_true_2 _ (visits_elem _ _ _ _ Hs E)). simpl.
    destruct (isSidKey k); simpl.
    + split; [intros [= ->]; auto|by intros []].
    + destruct (isStale now s) eqn:F.
      * apply isStale_spec in F. split; [done|].
        intros [[= ->] [|]]; [done|lia].
      * split; [intros [= ->]|by intros []]. split; [done|]. right.
        destruct (decide (now - Session.StartTime session ≤ 24 * time.Hour))
          as [|Hn]; [done|].
        assert (isStale now session = true) by (apply isStale_spec; lia).
        congruence.
Qed.

(** X19 on a concrete input. *)
Lemma sweeper_keeps_the_recent_witness :
  let c := run [Process [] (exampleLogin 0);
                Process [] (exampleDisconnect "user disconnected" time.Minute)] New in
  let o := mkSweepOrder ["ocserv:u"] [] [] in
  lastDisconnects (CleanupOldDisconnects (11 * time.Minute) o c) !! "ocserv:u"
  = Some (DisconnectRecord.mk "ocserv" time.Minute)
  ∧ lastDisconnects (CleanupOldDisconnects (12 * time.Minute) o c) !! "ocserv:u" = None.
Proof.
  intros c o.
  assert (Hv : visits (orderDisconnects o) (lastDisconnects c)
               ∧ visits (orderContexts o) (workerContext c)
               ∧ visits (orderSessions o) (sessions c)) by compute_done.
  destruct Hv as (Hd & Hw & Hs). split.
  - apply (sweeper_keeps_the_recent (11 * time.Minute) o c Hd Hw Hs).
    split; [vm_compute; reflexivity|]. simpl. unfold time.Minute, time.Second. lia.
  - destruct (lastDisconnects (CleanupOldDisconnects (12 * time.Minute) o c)
                !! "ocserv:u") as [record|] eqn:E; [|done].
    apply (sweeper_keeps_the_recent (12 * time.Minute) o c Hd Hw Hs) in E
      as [E Hage].
    vm_compute in E. injection E as <-. simpl in Hage.
    unfold time.Minute, time.Second in Hage. lia.
Defined.

(** X20. The sweeper does not lose a reconnect: when the timestamp of a Login is
    at most five minutes behind the clock of a pass, the pass (in whatever
    order) does not change whether the Login counts as a reconnect. *)
Theorem sweep_keeps_reconnect_detection (now : time.Time) (o : SweepOrder)
    (login : Event.t) (c : Collector) :
  now - Event.Timestamp login ≤ 5 * time.Minute →
  (recentDisconnect login (CleanupOldDisconnects now o c) ↔ recentDisconnect login c)
  ∧ isReconnect login (CleanupOldDisconnects now o c) = isReconnect login c.
Proof.
  intros Hclock.
  assert (Hiff : recentDisconnect login (CleanupOldDisconnects now o c)
                 ↔ recentDisconnect login c).
  { unfold recentDisconnect.
    destruct (CleanupOldDisconnects_tables now o c) as (-> & _).
    set (k := userKey _ _). rewrite sweepDisconnects_lookup.
    destruct (lastDisconnects c !! k) as [r|] eqn:E.
    - destruct (bool_decide (k ∈ orderDisconnects o)
                && (ReconnectWindow * 2 <? time.Sub now (DisconnectRecord.Timestamp r)))
        eqn:F; [|done].
      apply andb_true_iff in F as [_ F]. rewrite ltb_Sub in F.
      + apply Z.ltb_lt in F. unfold ReconnectWindow in F.
        split; [by intros (? & [=] & _)|].
        intros (record & [= <-] & Hrecent). lia.
      + unfold ReconnectWindow, time.Minute, time.Second, time.minDuration,
          time.maxDuration. lia.
    - done. }
  split; [done|].
  destruct (isReconnect login (CleanupOldDisconnects now o c)) eqn:E1;
    destruct (isReconnect login c) eqn:E2; try done.
  - apply isReconnect_spec, Hiff, isReconnect_spec in E1. congruence.
  - apply isReconnect_spec, Hiff, isReconnect_spec in E2. congruence.
Qed.

(** X20 on a concrete input. *)
Lemma sweep_keeps_reconnect_detection_witness :
  let c := run [Process [] (exampleDisconnect "user disconnected" 0)] New in
  let o := mkSweepOrder ["ocserv:u"] [] [] in
  isReconnect (exampleLogin (4 * time.Minute))
              (CleanupOldDisconnects (6 * time.Minute) o c) = true.
Proof.
  intros c o.
  destruct (sweep_keeps_reconnect_detection (6 * time.Minute) o
              (exampleLogin (4 * time.Minute)) c) as [_ ->].
  - simpl. unfold time.Minute, time.Second. lia.
  - vm_compute. reflexivity.
Defined.

(** ** The entries of the session table after an action *)

Lemma step_sessions_origin a c k s' :
  sessions (step c a) !! k = Some s' → origin a c k s'.
Proof.
  unfold origin. destruct a as [order event|now o]; simpl.
  - unfold ProcessEvent. set (c0 := metric _ c).
    assert (Hc0 : sessions c0 = sessions c) by done.
    destruct (Event.Type_ event) eqn:Hty.
    + auto.
    + rewrite handleLogin_sessions, Hc0. fold (loginSession event c0).
      intros [[<- <-]|[_ H]]%lookup_insert_Some; auto.
    + rewrite handleDisconnect_sessions, Hc0.
      intros [_ H]%lookup_delete_Some. auto.
    + unfold handleSessionStart. simpl. fold (startEntry event).
      fold (sidKey (Event.Server event) (Event.SessionID event)).
      intros [[<- <-]|[_ H]]%lookup_insert_Some; auto.
    + auto.
    + destruct (handleVPNIP_chooses order event c0)
        as [[-> _]|(k0 & s & _ & Hk0 & Hw & ->)]; [auto|].
      rewrite assignVPNIP_sessions, Hc0.
      intros [[<- <-]|[_ H]]%lookup_insert_Some; [|auto].
      right. exists s. by rewrite <- Hc0.
    + rewrite handleAuthFailed_sessions. auto.
    + rewrite handleByePacket_sessions. auto.
    + rewrite handleDPDWarning_sessions. auto.
    + rewrite handleSecModClose_sessions. auto.
  - destruct (CleanupOldDisconnects_tables now o c) as (_ & _ & ->).
    destruct (sessions c !! k) as [s|]; [|done].
    destruct (_ && _); [done|]. auto.
Qed.

Lemma sweepSessions_rest now order c :
  geoIP (sweepSessions now order c) = geoIP c
  ∧ SessionDuration (sweepSessions now order c) = SessionDuration c.
Proof.
  revert c. induction order as [|key order IH]; intros c; simpl; [done|].
  destruct (IH (match sessions c !! key with
                | Some session =>
                    if isSidKey key then c
                    else if isStale now session
                         then set_sessions (delete key (sessions c))
                                (metric (Dec ActiveSessions
                                           [Session.Server session;
                                            Session.Username session])
                                   (metric (DeleteLabelValues SessionInfo
                                              [Session.Server session;
                                               Session.Username session;
                                               Session.VpnIP session;
                                               Session.Country session; ""]) c))
                         else c
                | None => c
                end)) as [-> ->].
  destruct (sessions c !! key); [|done].
  destruct (isSidKey key); [done|]. by destruct (isStale now _).
Qed.

Lemma handleLogin_rest event c :
  geoIP (handleLogin event c) = geoIP c
  ∧ workerContext (handleLogin event c) = workerContext c
  ∧ SessionDuration (handleLogin event c) = SessionDuration c.
Proof.
  unfold handleLogin.
  destruct (lastDisconnects c !! _) as [r|]; [destruct (_ <? _)|];
    simpl; destruct (geoIP c) as [resolver|] eqn:E; simpl;
    try destruct (negb _); simpl; by rewrite ?E.
Qed.

Lemma handleDisconnect_geoIP event c :
  geoIP (handleDisconnect event c) = geoIP c.
Proof.
  unfold handleDisconnect.
  destruct (sessions c !! _) as [session|]; simpl.
  - destruct (0 <? _); simpl; destruct (_ && _); simpl; done.
  - done.
Qed.

Lemma handleVPNIP_rest order event c :
  geoIP (handleVPNIP order event c) = geoIP c
  ∧ workerContext (handleVPNIP order event c) = workerContext c
  ∧ SessionDuration (handleVPNIP order event c) = SessionDuration c.
Proof.
  by destruct (handleVPNIP_chooses order event c)
    as [[-> _]|(k0 & s & _ & _ & _ & ->)].
Qed.

Lemma step_geoIP a c : geoIP (step c a) = geoIP c.
Proof.
  destruct a as [order event|now o]; simpl.
  - unfold ProcessEvent. set (c0 := metric _ c).
    assert (Hc0 : geoIP c0 = geoIP c) by done.
    destruct (Event.Type_ event); try done.
    + by destruct (handleLogin_rest event c0) as (-> & _).
    + by rewrite handleDisconnect_geoIP.
    + by destruct (handleVPNIP_rest order event c0) as (-> & _).
    + by destruct (handleAuthFailed_rest event c0) as (_ & _ & _ & ->).
    + by destruct (handleByePacket_rest event c0) as (_ & _ & ->).
    + by destruct (handleDPDWarning_rest event c0) as (_ & _ & ->).
    + by destruct (handleSecModClose_rest order event c0) as (_ & _ & ->).
  - unfold CleanupOldDisconnects. cbv zeta.
    by destruct (sweepSessions_rest now (orderSessions o)
                   (set_workerContext
                      (sweepContexts now (orderContexts o)
                         (workerContext (set_lastDisconnects
                            (sweepDisconnects now (orderDisconnects o)
                               (lastDisconnects c)) c)))
                      (set_lastDisconnects
                         (sweepDisconnects now (orderDisconnects o)
                            (lastDisconnects c)) c))) as [-> _].
Qed.

Lemma run_geoIP actions c : geoIP (run actions c) = geoIP c.
Proof.
  revert c. induction actions as [|a actions IH]; intros c; simpl; [done|].
  unfold run in IH. by rewrite IH, step_geoIP.
Qed.

(** ** Countries *)

Lemma ProcessEvent_lookup_other order event c v lvs :
  v ≠ LastEventTimestamp → v ∉ written (Event.Type_ event) →
  registry (ProcessEvent order event c) !! (v, lvs) = registry c !! (v, lvs).
Proof.
  intros Hv Hw. rewrite (ProcessEvent_writes order event c v lvs Hw).
  apply lookup_Set_ne. intros [= -> _]. done.
Qed.

Lemma step_without_resolver a c :
  geoIP c = None →
  (∀ k s, sessions c !! k = Some s → Session.Country s = "") →
  (∀ k s, sessions (step c a) !! k = Some s → Session.Country s = "")
  ∧ (∀ lvs, registry (step c a) !! (ConnectionsByCountry, lvs)
            = registry c !! (ConnectionsByCountry, lvs))
  ∧ (∀ lvs, nth 3 lvs "" ≠ "Unknown" →
       registry (step c a) !! (AuthFailedTotal, lvs)
       = registry c !! (AuthFailedTotal, lvs)).
Proof.
  intros Hgeo Hinv. split; [|split].
  - intros k s' Hk. apply step_sessions_origin in Hk as [Hk|Hk]; [by eapply Hinv|].
    destruct a as [order event|now o]; [|done].
    destruct (Event.Type_ event); try done.
    + destruct Hk as [_ ->]. simpl. unfold LookupCountry. by rewrite Hgeo.
    + by destruct Hk as [_ ->].
    + destruct Hk as (s & Hs & _ & ->). simpl. by eapply Hinv.
  - intros lvs. destruct a as [order event|now o]; simpl.
    + destruct (decide (Event.Type_ event = EventUserLogin)) as [Hty|Hty].
      * unfold ProcessEvent. rewrite Hty. set (c0 := metric _ c).
        rewrite handleLogin_registry. cbv zeta.
        change (geoIP c0) with (geoIP c). rewrite Hgeo. unfold id, Inc.
        destruct (isReconnect event c0); subst c0; unfold_state; by other_vec.
      * apply ProcessEvent_lookup_other; [done|].
        destruct (Event.Type_ event); simpl; set_unfold; try tauto;
          intros H; repeat (destruct H as [H|H]; [discriminate H|]); done.
    + apply CleanupOldDisconnects_writes. set_unfold.
      intros [H|[H|H]]; [discriminate H|discriminate H|done].
  - intros lvs Hlvs. destruct a as [order event|now o]; simpl.
    + destruct (decide (Event.Type_ event = EventAuthFailed)) as [Hty|Hty].
      * unfold ProcessEvent. rewrite Hty. set (c0 := metric _ c).
        destruct (handleAuthFailed_registry event c0)
          as (country & code & _ & Hnone & _ & ->).
        destruct (Hnone Hgeo) as [-> ->]. unfold Inc.
        rewrite lookup_Add_ne by (intros [= ->]; by apply Hlvs).
        subst c0. unfold_state. by other_vec.
      * apply ProcessEvent_lookup_other; [done|].
        destruct (Event.Type_ event); simpl; set_unfold; try tauto;
          intros H; repeat (destruct H as [H|H]; [discriminate H|]); done.
    + apply CleanupOldDisconnects_writes. set_unfold.
      intros [H|[H|H]]; [discriminate H|discriminate H|done].
Qed.

(** X18. Without a GeoIP resolver, whatever events and passes of the sweeper
    follow: no resolver appears, every session has an empty country, the
    connections-by-country counter gets no child and no increment, and every
    failed authentication is counted under the country "Unknown". *)
Theorem without_resolver_no_country (actions : list Action) (c : Collector) :
  geoIP c = None →
  (∀ k s, sessions c !! k = Some s → Session.Country s = "") →
  let c' := run actions c in
  geoIP c' = None
  ∧ (∀ ip, LookupCountry c' ip = "")
  ∧ (∀ k s, sessions c' !! k = Some s → Session.Country s = "")
  ∧ (∀ lvs, registry c' !! (ConnectionsByCountry, lvs)
            = registry c !! (ConnectionsByCountry, lvs))
  ∧ (∀ lvs, nth 3 lvs "" ≠ "Unknown" →
       registry c' !! (AuthFailedTotal, lvs) = registry c !! (AuthFailedTotal, lvs)).
Proof.
  intros Hgeo Hinv c'. subst c'.
  assert (Hg : ∀ actions, geoIP (run actions c) = None).
  { intros l. by rewrite run_geoIP. }
  split; [apply Hg|]. split; [intros ip; unfold LookupCountry; by rewrite Hg|].
  induction actions as [|a actions IH] using rev_ind; [done|].
  rewrite run_snoc. destruct IH as (IH1 & IH2 & IH3).
  destruct (step_without_resolver a (run actions c) (Hg actions) IH1)
    as (H1 & H2 & H3).
  split; [done|]. split.
  - intros lvs. by rewrite H2, IH2.
  - intros lvs Hlvs. by rewrite H3, IH3.
Qed.

(** X18 on a concrete input. *)
Lemma without_resolver_no_country_witness :
  let failed := Event.mk EventAuthFailed 3 "ocserv" "" "172.30.30.30" 56078 "" "" ""
                         0 0 "" 0 in
  let c := run [Process [] (exampleLogin 0); Process [] failed] New in
  (∀ k s, sessions c !! k = Some s → Session.Country s = "")
  ∧ registry c !! (ConnectionsByCountry, ["ocserv"; "u"; ""; ""]) = None
  ∧ registry c
      !! (AuthFailedTotal, ["ocserv"; ""; "172.30.30.30"; "Unknown"; ""]) = Some 1.
Proof.
  intros failed c.
  destruct (without_resolver_no_country
              [Process [] (exampleLogin 0); Process [] failed] New)
    as (_ & _ & H1 & H2 & _).
  - reflexivity.
  - intros k s Hk. simpl in Hk. by rewrite lookup_empty in Hk.
  - split; [exact H1|]. split; [by rewrite (H2 _)|]. vm_compute. reflexivity.
Defined.

(** X17. A failed authentication counts one attempt, under the user, the address
    and a country that is never empty: the country the resolver gives, or
    "Unknown" when there is no resolver or it gives none. It touches no
    table and no other child. *)
Theorem auth_failed_counts_one_attempt (order : list string) (event : Event.t)
    (c : Collector) :
  Event.Type_ event = EventAuthFailed →
  let c' := ProcessEvent order event c in
  let known := match geoIP c with
               | Some resolver => resolver (Event.ClientIP event)
               | None => ("", "")
               end in
  let country := if String.eqb known.1 "" then "Unknown" else known.1 in
  let counted := [Event.Server event; Event.Username event; Event.ClientIP event;
                  country; known.2] in
  country ≠ ""
  ∧ value (registry c') AuthFailedTotal counted
    = value (registry c) AuthFailedTotal counted + 1
  ∧ (∀ lvs, lvs ≠ counted →
       registry c' !! (AuthFailedTotal, lvs) = registry c !! (AuthFailedTotal, lvs))
  ∧ sessions c' = sessions c
  ∧ lastDisconnects c' = lastDisconnects c
  ∧ workerContext c' = workerContext c
  ∧ SessionDuration c' = SessionDuration c.
Proof.
  intros Hty c' known country counted. subst c'. unfold ProcessEvent. rewrite Hty.
  set (c0 := metric _ c).
  destruct (handleAuthFailed_registry event c0)
    as (country' & code & Hne & Hnone & Hsome & Hreg).
  assert (country' = country ∧ code = known.2) as [-> ->].
  { subst country known. change (geoIP c0) with (geoIP c) in Hnone, Hsome.
    destruct (geoIP c) as [resolver|].
    - destruct (Hsome resolver eq_refl) as [-> ->]. done.
    - destruct (Hnone eq_refl) as [-> ->]. done. }
  fold counted in Hreg. rewrite Hreg, handleAuthFailed_sessions.
  destruct (handleAuthFailed_rest event c0) as (-> & -> & -> & _).
  split; [done|]. split; [|split]; [| |done].
  - unfold Inc. rewrite value_Add_eq. subst c0. unfold_state. by other_vec.
  - intros lvs Hlvs. unfold Inc. rewrite lookup_Add_ne by (intros [= ->]; done).
    subst c0. unfold_state. by other_vec.
Qed.

(** X17 on a concrete input. *)
Lemma auth_failed_counts_one_attempt_witness :
  let failed := Event.mk EventAuthFailed 3 "ocserv" "" "172.30.30.30" 56078 "" "" ""
                         0 0 "" 0 in
  let resolver (ip : string) := ("", "") in
  value (registry (ProcessEvent [] failed (SetGeoIPResolver resolver New)))
        AuthFailedTotal ["ocserv"; ""; "172.30.30.30"; "Unknown"; ""] = 1.
Proof.
  intros failed resolver.
  destruct (auth_failed_counts_one_attempt [] failed (SetGeoIPResolver resolver New))
    as (_ & H & _); [reflexivity|]. exact H.
Defined.

(** ** A Login *)

(** X12. A Login stores its session with the country of the resolver, sets the
    "session info" entry of that session to its timestamp, counts the
    connection, and counts it by country exactly when there is a resolver and
    it knows the country of the address. *)
Theorem login_records_session (order : list string) (event : Event.t)
    (c : Collector) :
  Event.Type_ event = EventUserLogin →
  let c' := ProcessEvent order event c in
  let key := sessionKey (Event.Server event) (Event.Username event)
                        (Event.ClientIP event) (Event.Port event) in
  let country := LookupCountry c (Event.ClientIP event) in
  let connection := [Event.Server event; Event.Username event; Event.ClientIP event] in
  sessions c' !! key = Some (loginSession event c)
  ∧ (∀ k, k ≠ key → sessions c' !! k = sessions c !! k)
  ∧ registry c' !! (SessionInfo, infoLabels (loginSession event c))
    = Some (time.Unix (Event.Timestamp event))
  ∧ value (registry c') ConnectionsTotal connection
    = value (registry c) ConnectionsTotal connection + 1
  ∧ (∀ resolver, geoIP c = Some resolver → country ≠ "" →
       let byCountry := [Event.Server event; Event.Username event; country;
                         snd (resolver (Event.ClientIP event))] in
       value (registry c') ConnectionsByCountry byCountry
       = value (registry c) ConnectionsByCountry byCountry + 1)
  ∧ (country = "" →
     ∀ lvs, registry c' !! (ConnectionsByCountry, lvs)
            = registry c !! (ConnectionsByCountry, lvs)).
Proof.
  intros Hty c' key country connection. subst c'. unfold ProcessEvent. rewrite Hty.
  set (c0 := metric _ c).
  assert (Hreg0 : ∀ v lvs, v ≠ LastEventTimestamp →
                    registry c0 !! (v, lvs) = registry c !! (v, lvs)).
  { intros v lvs Hv. subst c0. unfold_state. apply lookup_Set_ne.
    intros [= -> _]. done. }
  rewrite handleLogin_sessions, handleLogin_registry. cbv zeta.
  change (sessions c0) with (sessions c). change (geoIP c0) with (geoIP c).
  change (LookupCountry c0 (Event.ClientIP event)) with country.
  fold key. fold (loginSession event c).
  split; [by rewrite lookup_insert_eq|].
  split; [by intros k Hk; rewrite lookup_insert_ne|].
  assert (Hval0 : ∀ v lvs, v ≠ LastEventTimestamp →
                    value (registry c0) v lvs = value (registry c) v lvs).
  { intros v lvs Hv. unfold value. by rewrite Hreg0. }
  split; [|split; [|split]].
  - unfold infoLabels. simpl. fold country.
    destruct (geoIP c) as [resolver|]; [destruct (negb _)|]; unfold id, Inc;
      other_vec; unfold Set_; by rewrite lookup_insert_eq.
  - destruct (geoIP c) as [resolver|]; [destruct (negb _)|]; unfold id, Inc;
      other_vec; rewrite value_Add_eq;
      destruct (isReconnect event c0); unfold id, Inc; other_vec;
      by rewrite ?Hval0.
  - intros resolver Hgeo Hcountry. rewrite Hgeo.
    destruct (String.eqb_spec country ""); [done|]. simpl. unfold Inc.
    rewrite value_Add_eq.
    destruct (isReconnect event c0); unfold id, Inc; other_vec;
      by rewrite ?Hval0.
  - intros Hcountry lvs. rewrite Hcountry. simpl.
    destruct (geoIP c) as [resolver|]; unfold id, Inc;
      destruct (isReconnect event c0); unfold id, Inc; other_vec;
      by rewrite ?Hreg0.
Qed.

(** X12 on a concrete input. *)
Lemma login_records_session_witness :
  let resolver (ip : string) := ("Iceland", "IS") in
  let c := ProcessEvent [] (exampleLogin 0) (SetGeoIPResolver resolver New) in
  sessions c !! "ocserv:u:1.2.3.4:30595"
  = Some (Session.mk "ocserv" "u" "1.2.3.4" 30595 "" "Iceland" "" 0)
  ∧ value (registry c) ConnectionsByCountry ["ocserv"; "u"; "Iceland"; "IS"] = 1.
Proof.
  intros resolver c.
  destruct (login_records_session [] (exampleLogin 0) (SetGeoIPResolver resolver New))
    as (H1 & _ & _ & _ & H5 & _); [reflexivity|].
  split; [exact H1|]. by apply (H5 resolver).
Defined.

(** ** The histogram of session durations *)

Lemma handleDisconnect_SessionDuration event c :
  let labels := [Event.Server event; Event.Username event] in
  SessionDuration (handleDisconnect event c)
  = match sessions c !! sessionKey (Event.Server event) (Event.Username event)
                                   (Event.ClientIP event) (Event.Port event) with
    | Some session =>
        let duration := time.Sub (Event.Timestamp event) (Session.StartTime session) in
        if 0 <? duration
        then <[labels := duration :: default [] (SessionDuration c !! labels)]>
               (SessionDuration c)
        else SessionDuration c
    | None => SessionDuration c
    end.
Proof.
  unfold handleDisconnect.
  destruct (sessions c !! _) as [session|]; simpl.
  - destruct (0 <? _); simpl; destruct (_ && _); simpl; done.
  - done.
Qed.

Lemma step_SessionDuration a c :
  SessionDuration (step c a)
  = match a with
    | Process _ event =>
        match Event.Type_ event with
        | EventUserDisconnect => SessionDuration (handleDisconnect event c)
        | _ => SessionDuration c
        end
    | Sweep _ _ => SessionDuration c
    end.
Proof.
  destruct a as [order event|now o]; cbn [step].
  - unfold ProcessEvent. set (c0 := metric _ c).
    destruct (Event.Type_ event); try done.
    + by destruct (handleLogin_rest event c0) as (_ & _ & ->).
    + rewrite (handleDisconnect_SessionDuration event c0),
        (handleDisconnect_SessionDuration event c). reflexivity.
    + by destruct (handleVPNIP_rest order event c0) as (_ & _ & ->).
    + by destruct (handleAuthFailed_rest event c0) as (_ & _ & -> & _).
    + by destruct (handleByePacket_rest event c0) as (_ & -> & _).
    + by destruct (handleDPDWarning_rest event c0) as (_ & -> & _).
    + by destruct (handleSecModClose_rest order event c0) as (_ & -> & _).
  - unfold CleanupOldDisconnects. cbv zeta.
    by destruct (sweepSessions_rest now (orderSessions o)
                   (set_workerContext
                      (sweepContexts now (orderContexts o)
                         (workerContext (set_lastDisconnects
                            (sweepDisconnects now (orderDisconnects o)
                               (lastDisconnects c)) c)))
                      (set_lastDisconnects
                         (sweepDisconnects now (orderDisconnects o)
                            (lastDisconnects c)) c))) as [_ ->].
Qed.

Lemma Sub_range t u : time.minDuration ≤ time.Sub t u ≤ time.maxDuration.
Proof.
  unfold time.Sub, time.minDuration, time.maxDuration. simpl.
  repeat case_match; lia.
Qed.

(** X14. Every duration the histogram has observed, on whatever run from the
    initial collector, is positive (and a duration of Go): a Disconnect whose
    timestamp is not after the start of its session observes nothing, and
    nothing else observes. *)
Theorem observed_durations_are_positive (actions : list Action)
    (labels : list string) (observed : list time.Duration) :
  SessionDuration (run actions New) !! labels = Some observed →
  Forall (λ d, 0 < d ≤ time.maxDuration) observed.
Proof.
  revert labels observed.
  induction actions as [|a actions IH] using rev_ind; intros labels observed.
  - simpl. by rewrite lookup_empty.
  - rewrite run_snoc, step_SessionDuration.
    destruct a as [order event|now o]; [|apply IH].
    destruct (Event.Type_ event); try apply IH.
    rewrite handleDisconnect_SessionDuration. cbv zeta.
    destruct (sessions (run actions New) !! _) as [s|]; [|apply IH].
    destruct (0 <? _) eqn:E; [|apply IH].
    intros [[<- <-]|[_ H]]%lookup_insert_Some; [|by eapply IH].
    constructor.
    + apply Z.ltb_lt in E. split; [done|]. apply Sub_range.
    + destruct (SessionDuration (run actions New) !! _) as [ds|] eqn:F; simpl.
      * by eapply IH.
      * constructor.
Qed.

(** X14 on a concrete input. *)
Lemma observed_durations_are_positive_witness :
  Forall (λ d, 0 < d ≤ time.maxDuration) [90 * time.Second].
Proof.
  apply (observed_durations_are_positive
           [Process [] (exampleLogin 0);
            Process [] (exampleDisconnect "user disconnected" (90 * time.Second))]
           ["ocserv"; "u"]).
  vm_compute. reflexivity.
Defined.

(** ** A Login and its Disconnect *)

(** X13. A Login followed by the Disconnect of the same session takes the session
    out of the table again, brings the active-session gauge back to what it
    was before the Login and removes the "session info" entry of the Login.
    A second Disconnect of the session finds nothing: it leaves the table,
    the gauge and the histogram alone, and is still counted as a
    disconnection. *)
Theorem login_disconnect_round_trip (login d again : Event.t) (c : Collector) :
  sameSession login d →
  sameSession login again →
  let key := sessionKey (Event.Server login) (Event.Username login)
                        (Event.ClientIP login) (Event.Port login) in
  let labels := [Event.Server login; Event.Username login] in
  let c1 := handleLogin login c in
  let c2 := handleDisconnect d c1 in
  let c3 := handleDisconnect again c2 in
  sessions c2 = delete key (sessions c)
  ∧ value (registry c2) ActiveSessions labels = value (registry c) ActiveSessions labels
  ∧ registry c2 !! (SessionInfo, infoLabels (loginSession login c)) = None
  ∧ sessions c3 = sessions c2
  ∧ value (registry c3) ActiveSessions labels = value (registry c2) ActiveSessions labels
  ∧ SessionDuration c3 = SessionDuration c2
  ∧ value (registry c3) DisconnectionsTotal
          [Event.Server login; Event.Username login; enrichedReason again c2]
    = value (registry c2) DisconnectionsTotal
            [Event.Server login; Event.Username login; enrichedReason again c2] + 1.
Proof.
  intros (Hs & Hu & Hip & Hport) (Hs' & Hu' & Hip' & Hport') key labels c1 c2 c3.
  assert (H1 : sessions c1 = <[key := loginSession login c]> (sessions c)).
  { subst c1. by rewrite handleLogin_sessions. }
  assert (H2 : sessions c2 = delete key (sessions c)).
  { subst c2. rewrite handleDisconnect_sessions, Hs, Hu, Hip, Hport. fold key.
    by rewrite H1, delete_insert_eq. }
  assert (Hfound : sessions c1 !! key = Some (loginSession login c)).
  { by rewrite H1, lookup_insert_eq. }
  assert (Hgone : sessions c2 !! key = None).
  { by rewrite H2, lookup_delete_eq. }
  split; [done|]. split; [|split; [|split; [|split; [|split]]]].
  - subst c2. pose proof (handleDisconnect_active d c1) as Hd. cbv zeta in Hd.
    rewrite Hs, Hu, Hip, Hport in Hd. fold key labels in Hd. rewrite Hfound in Hd.
    rewrite Hd. subst c1. pose proof (handleLogin_active login c) as Hl.
    cbv zeta in Hl. fold labels in Hl. rewrite Hl. lia.
  - subst c2. rewrite handleDisconnect_registry. cbv zeta.
    rewrite Hs, Hu, Hip, Hport. fold key. rewrite Hfound.
    unfold infoLabels, loginSession. simpl.
    destruct (countsProblematic d c1); unfold id, Inc, Dec; other_vec;
      unfold DeleteLabelValues; by rewrite lookup_delete_eq.
  - subst c3. rewrite handleDisconnect_sessions, Hs', Hu', Hip', Hport'. fold key.
    by rewrite delete_id.
  - subst c3. pose proof (handleDisconnect_active again c2) as Hd. cbv zeta in Hd.
    rewrite Hs', Hu', Hip', Hport' in Hd. fold key labels in Hd.
    rewrite Hgone in Hd. rewrite Hd. lia.
  - subst c3. rewrite handleDisconnect_SessionDuration. cbv zeta.
    rewrite Hs', Hu', Hip', Hport'. fold key. by rewrite Hgone.
  - subst c3. rewrite <- Hs', <- Hu'. apply handleDisconnect_disconnections.
Qed.

(** X13 on a concrete input. *)
Lemma login_disconnect_round_trip_witness :
  let d := exampleDisconnect "user disconnected" 9 in
  let c2 := handleDisconnect d (handleLogin (exampleLogin 0) New) in
  sessions c2 = delete "ocserv:u:1.2.3.4:30595" (sessions New)
  ∧ value (registry (handleDisconnect d c2)) ActiveSessions ["ocserv"; "u"]
    = value (registry c2) ActiveSessions ["ocserv"; "u"].
Proof.
  intros d c2.
  destruct (login_disconnect_round_trip (exampleLogin 0) d d New)
    as (H1 & _ & _ & _ & H5 & _).
  - by repeat split.
  - by repeat split.
  - split; [exact H1|exact H5].
Defined.

(** ** The VPN IP of a session is assigned once *)

(** X16. A VpnIpAssigned event keeps the keys of the session table and changes at
    most one entry, of its user and partition, and nothing of it but the VPN
    IP; an entry that has a VPN IP keeps it, in whatever order the table is
    visited. No disconnect record and no worker context is touched. *)
Theorem vpn_ip_is_assigned_once (order : list string) (event : Event.t)
    (c : Collector) :
  let c' := handleVPNIP order event c in
  dom (sessions c') = dom (sessions c)
  ∧ (∀ k s, sessions c !! k = Some s → Session.VpnIP s ≠ "" →
       sessions c' !! k = Some s)
  ∧ (∀ k s, sessions c !! k = Some s →
       sessions c' !! k = Some s
       ∨ (Session.Username s = Event.Username event
          ∧ Session.Server s = Event.Server event
          ∧ sessions c' !! k = Some (Session.with_VpnIP (Event.VpnIP event) s)))
  ∧ (∀ k1 k2, sessions c' !! k1 ≠ sessions c !! k1 →
              sessions c' !! k2 ≠ sessions c !! k2 → k1 = k2)
  ∧ lastDisconnects c' = lastDisconnects c
  ∧ workerContext c' = workerContext c.
Proof.
  intros c'. subst c'.
  destruct (handleVPNIP_rest order event c) as (_ & Hw & _).
  rewrite handleVPNIP_lastDisconnects, Hw.
  destruct (handleVPNIP_chooses order event c)
    as [[-> _]|(k0 & s0 & _ & Hk0 & Hwants & ->)].
  - repeat split; auto. intros k1 k2 H. done.
  - rewrite assignVPNIP_sessions.
    unfold wantsVPNIP in Hwants. apply andb_true_iff in Hwants as [Hus Hv].
    apply andb_true_iff in Hus as [Hu Hs].
    apply String.eqb_eq in Hu, Hs, Hv.
    split; [|split; [|split; [|split]]]; [| | | |done].
    + apply dom_insert_lookup_L. change (sessions _) with (sessions c). eauto.
    + intros k s Hk Hne. destruct (decide (k = k0)) as [->|Hkk].
      * rewrite Hk0 in Hk. injection Hk as <-. done.
      * by rewrite lookup_insert_ne.
    + intros k s Hk. destruct (decide (k = k0)) as [->|Hkk].
      * right. rewrite Hk0 in Hk. injection Hk as <-.
        by rewrite lookup_insert_eq.
      * left. by rewrite lookup_insert_ne.
    + intros k1 k2 H1 H2.
      destruct (decide (k1 = k0)) as [->|Hk1];
        [|by rewrite lookup_insert_ne in H1].
      destruct (decide (k2 = k0)) as [->|Hk2];
        [done|by rewrite lookup_insert_ne in H2].
Qed.

(** ** Every entry is stored under the key of its fields *)

Lemma step_workerContext_keyed a c :
  (∀ k ctx, workerContext c !! k = Some ctx →
     k = workerContextKey (WorkerContext.Server ctx) (WorkerContext.Username ctx)
                          (WorkerContext.ClientIP ctx)) →
  ∀ k ctx, workerContext (step c a) !! k = Some ctx →
    k = workerContextKey (WorkerContext.Server ctx) (WorkerContext.Username ctx)
                         (WorkerContext.ClientIP ctx).
Proof.
  intros Hinv k ctx. destruct a as [order event|now o]; simpl.
  - unfold ProcessEvent. set (c0 := metric _ c).
    assert (Hc0 : workerContext c0 = workerContext c) by done.
    destruct (Event.Type_ event); try apply Hinv.
    + destruct (handleLogin_rest event c0) as (_ & -> & _). apply Hinv.
    + rewrite handleDisconnect_workerContext, Hc0.
      intros [_ [_ H]%lookup_delete_Some]%lookup_delete_Some. by apply Hinv.
    + destruct (handleVPNIP_rest order event c0) as (_ & -> & _). apply Hinv.
    + destruct (handleAuthFailed_rest event c0) as (_ & -> & _). apply Hinv.
    + rewrite handleByePacket_workerContext. cbv zeta.
      intros [[<- <-]|[_ H]]%lookup_insert_Some; [|by apply Hinv].
      cbn [WorkerContext.Server WorkerContext.Username WorkerContext.ClientIP].
      unfold contextOf. rewrite Hc0.
      destruct (workerContext c !! _) as [x|] eqn:E;
        cbn [default WorkerContext.Server WorkerContext.Username
             WorkerContext.ClientIP]; unfold id; [by apply Hinv|done].
    + rewrite handleDPDWarning_workerContext. cbv zeta.
      intros [[<- <-]|[_ H]]%lookup_insert_Some; [|by apply Hinv].
      cbn [WorkerContext.Server WorkerContext.Username WorkerContext.ClientIP].
      unfold contextOf. rewrite Hc0.
      destruct (workerContext c !! _) as [x|] eqn:E;
        cbn [default WorkerContext.Server WorkerContext.Username
             WorkerContext.ClientIP]; unfold id; [by apply Hinv|done].
    + assert (Hmarked : ∀ k ctx,
                markSecModClose order event (workerContext c) !! k = Some ctx →
                k = workerContextKey (WorkerContext.Server ctx)
                      (WorkerContext.Username ctx) (WorkerContext.ClientIP ctx)).
      { intros k' ctx'. rewrite markSecModClose_lookup.
        destruct (workerContext c !! k') as [x|] eqn:E; [|done].
        destruct (_ && _); intros [= <-];
          cbn [WorkerContext.Server WorkerContext.Username WorkerContext.ClientIP];
          by apply Hinv. }
      unfold handleSecModClose. simpl.
      destruct (markSecModClose _ _ _ !! workerContextKey _ _ _) eqn:E; simpl.
      * apply Hmarked.
      * intros [[<- <-]|[_ H]]%lookup_insert_Some; [done|by apply Hmarked].
  - destruct (CleanupOldDisconnects_tables now o c) as (_ & -> & _).
    rewrite sweepContexts_lookup.
    destruct (workerContext c !! k) as [x|] eqn:E; [|done].
    destruct (_ && _); [done|]. intros [= <-]. by apply Hinv.
Qed.

Lemma step_lastDisconnects_keyed a c :
  (∀ k record, lastDisconnects c !! k = Some record →
     ∃ username, k = userKey (DisconnectRecord.Server record) username) →
  ∀ k record, lastDisconnects (step c a) !! k = Some record →
    ∃ username, k = userKey (DisconnectRecord.Server record) username.
Proof.
  intros Hinv k record. destruct a as [order event|now o]; simpl.
  - destruct (decide (Event.Type_ event = EventUserDisconnect
                      ∧ userKey (Event.Server event) (Event.Username event) = k))
      as [[Hty Hk]|Hne].
    + unfold ProcessEvent. rewrite Hty, handleDisconnect_lastDisconnects, Hk.
      rewrite lookup_insert_eq. intros [= <-]. simpl. eauto.
    + rewrite ProcessEvent_lastDisconnects by tauto. apply Hinv.
  - destruct (CleanupOldDisconnects_tables now o c) as (-> & _).
    rewrite sweepDisconnects_lookup.
    destruct (lastDisconnects c !! k) as [x|] eqn:E; [|done].
    destruct (_ && _); [done|]. intros [= <-]. by apply Hinv.
Qed.

Lemma step_keyed a c : keyed c → keyed (step c a).
Proof.
  intros (Hs & Hw & Hd). split; [|split].
  - intros k s' Hk. apply step_sessions_origin in Hk as [Hk|Hk]; [by apply Hs|].
    destruct a as [order event|now o]; [|done].
    destruct (Event.Type_ event); try done.
    + destruct Hk as [-> ->]. by left.
    + destruct Hk as [-> ->]. by right.
    + destruct Hk as (s & Hk & _ & ->). by apply Hs in Hk.
  - by apply step_workerContext_keyed.
  - by apply step_lastDisconnects_keyed.
Qed.

(** X21. On every run from the initial collector, every entry of the three
    tables is stored under the key its own fields spell: the handlers that
    find an entry by key and the loops that find it by its fields see the
    same entries. *)
Theorem tables_are_keyed_by_their_entries (actions : list Action) :
  keyed (run actions New).
Proof.
  induction actions as [|a actions IH] using rev_ind.
  - repeat split; intros k x Hk; simpl in Hk; by rewrite lookup_empty in Hk.
  - rewrite run_snoc. by apply step_keyed.
Qed.

(** ** [GetActiveSessions] counts what the sweeper does not skip *)

Lemma countSessions_length order c n :
  countSessions order c n
  = n + Z.of_nat (length (filter (λ k, is_Some (sessions c !! k)
                                      ∧ isCounted k = true) order)).
Proof.
  revert n. induction order as [|key order IH]; intros n; simpl; [lia|].
  rewrite IH. rewrite filter_cons.
  destruct (sessions c !! key) as [s|] eqn:E.
  - destruct (isCounted key) eqn:F.
    + rewrite decide_True by eauto. simpl. lia.
    + rewrite decide_False by (intros [_ ?]; done). done.
  - rewrite decide_False by (intros [[? ?] _]; done). done.
Qed.

Lemma filter_list_to_set (P : string → Prop) `{!∀ k, Decision (P k)}
    (l : list string) :
  filter P (list_to_set l : gset string) = list_to_set (filter P l).
Proof.
  apply set_eq. intros k.
  rewrite elem_of_filter, !elem_of_list_to_set, list_elem_of_filter. tauto.
Qed.

Lemma filter_present (m : gmap string Session.t) (P : string → Prop)
    `{!∀ k, Decision (P k)} (l : list string) :
  (∀ k, k ∈ l → is_Some (m !! k)) →
  filter (λ k, is_Some (m !! k) ∧ P k) l = filter P l.
Proof.
  induction l as [|k l IH]; intros Hl; [done|].
  rewrite !filter_cons, IH by (intros k' Hk'; apply Hl; by right).
  assert (is_Some (m !! k)) by (apply Hl; by left).
  destruct (decide (P k)).
  - by rewrite decide_True.
  - by rewrite decide_False by tauto.
Qed.

Lemma GetActiveSessions_size order c :
  visits order (sessions c) →
  GetActiveSessions order c
  = Z.of_nat (size (filter (λ k, isCounted k = true) (dom (sessions c)))).
Proof.
  intros [Hnodup Hdom]. unfold GetActiveSessions. rewrite countSessions_length.
  rewrite <- Hdom, filter_list_to_set, size_list_to_set by by apply NoDup_filter.
  rewrite filter_present; [done|].
  intros k Hk. apply elem_of_dom. rewrite <- Hdom. by apply elem_of_list_to_set.
Qed.

Lemma length_append_string (a b : string) :
  String.length (a +:+ b) = (String.length a + String.length b)%nat.
Proof. induction a as [|ch a IH]; simpl; [done|]. by rewrite IH. Qed.

Lemma length_nonempty (s : string) : s ≠ "" → (1 ≤ String.length s)%nat.
Proof. destruct s; [done|]. simpl. lia. Qed.

Lemma Parse_login_nonempty ts message server :
  Event.Type_ (Parse ts message server) = EventUserLogin →
  Event.Username (Parse ts message server) ≠ ""
  ∧ Event.ClientIP (Parse ts message server) ≠ "".
Proof.
  parse_cases ts message server; try done. intros _.
  apply reLogin_fields in Hm as [[? _] [? _]]. done.
Qed.

(** The keys of the session table of a collector fed with log lines have
    more than four bytes. *)
Lemma feed_long_keys c i :
  (∀ k s, sessions c !! k = Some s → (4 < String.length k)%nat) →
  ∀ k s, sessions (feed c i) !! k = Some s → (4 < String.length k)%nat.
Proof.
  intros Hinv k s'. destruct i as [order ts message server|now o]; simpl.
  - unfold ProcessLogLine. destruct (decide _) as [|Hne]; [apply Hinv|].
    intros Hk. apply (step_sessions_origin (Process order _)) in Hk as [Hk|Hk];
      [by eapply Hinv|].
    simpl in Hk. destruct (Event.Type_ (Parse ts message server)) eqn:Hty; try done.
    + destruct Hk as [-> _]. destruct (Parse_login_nonempty _ _ _ Hty) as [Hu Hip].
      apply length_nonempty in Hu, Hip.
      unfold sessionKey. rewrite !length_append_string. simpl. lia.
    + destruct Hk as [-> _]. unfold sidKey. rewrite !length_append_string. simpl. lia.
    + destruct Hk as (s & Hk & _). by eapply Hinv.
  - intros Hk. apply (step_sessions_origin (Sweep now o)) in Hk as [Hk|[]].
    by eapply Hinv.
Qed.

Lemma feedAll_long_keys inputs k s :
  sessions (feedAll inputs New) !! k = Some s → (4 < String.length k)%nat.
Proof.
  revert k s. induction inputs as [|i inputs IH] using rev_ind; intros k s.
  - simpl. by rewrite lookup_empty.
  - unfold feedAll. rewrite fold_left_app. simpl. by apply feed_long_keys.
Qed.

(** X22. On a collector fed with log lines and ticks from its initial state,
    [GetActiveSessions] returns the number of sessions the sweeper does not
    skip, in whatever order the table is visited: the user name and the
    address of a Login line are never empty, so every key has more than the
    four bytes both tests ask for. *)
Theorem GetActiveSessions_counts_the_unskipped (inputs : list Input)
    (order : list string) :
  let c := feedAll inputs New in
  visits order (sessions c) →
  GetActiveSessions order c
  = Z.of_nat (size (filter (λ k, isSidKey k = false) (dom (sessions c)))).
Proof.
  intros c Hvisits. rewrite (GetActiveSessions_size order c Hvisits).
  do 2 f_equal. apply set_eq. intros k. rewrite !elem_of_filter, elem_of_dom.
  split; intros [Hk [s Hs]]; (split; [|by eauto]);
    pose proof (feedAll_long_keys inputs k s Hs) as Hlen;
    unfold isCounted, isSidKey in *;
    assert ((4 <? Z.of_nat (String.length k)) = true) as Hlt
      by (apply Z.ltb_lt; lia);
    rewrite Hlt in *; simpl in *;
    by destruct (String.eqb _ _).
Qed.

(** X22 on a concrete input. *)
Lemma GetActiveSessions_counts_the_unskipped_witness :
  let inputs :=
    [Line [] 0 "sec-mod: initiating session for user 'u' (session: yKsy7b)" "ocserv";
     Line [] 1 "main[u]:1.2.3.4:30595 user logged in" "ocserv"] in
  GetActiveSessions ["sid:ocserv:yKsy7b"; "ocserv:u:1.2.3.4:30595"]
                    (feedAll inputs New)
  = Z.of_nat (size (filter (λ k, isSidKey k = false)
                      (dom (sessions (feedAll inputs New))))).
Proof.
  intros inputs.
  apply (GetActiveSessions_counts_the_unskipped inputs). compute_done.
Defined.

(** A key of four bytes is neither counted by [GetActiveSessions] nor
    skipped by the sweeper; no log line gives such a key. *)
Example GetActiveSessions_short_key :
  let login := Event.mk EventUserLogin 0 "" "" "" 0 "" "" "" 0 0 "" 0 in
  let c := handleLogin login New in
  dom (sessions c) = {[":::0"]}
  ∧ GetActiveSessions [":::0"] c = 0
  ∧ isSidKey ":::0" = false.
Proof. vm_compute. done. Qed.

(** ** Problematic sessions are disconnections *)

Lemma handleDisconnect_problematic_value event c lvs :
  value (registry (handleDisconnect event c)) ProblematicSessionsTotal lvs
  = value (registry c) ProblematicSessionsTotal lvs
    + (if countsProblematic event c
       then if decide (lvs = [Event.Server event; Event.Username event;
                              enrichedReason event c]) then 1 else 0
       else 0).
Proof.
  unfold value at 1. rewrite handleDisconnect_problematic_children.
  destruct (countsProblematic event c); [|unfold value; lia].
  fold (value (Inc ProblematicSessionsTotal
                 [Event.Server event; Event.Username event; enrichedReason event c]
                 (registry c)) ProblematicSessionsTotal lvs).
  unfold Inc. destruct (decide _) as [->|Hne].
  - by rewrite value_Add_eq.
  - rewrite value_Add_ne by (intros [= ->]; done). lia.
Qed.

Lemma handleDisconnect_disconnections_value event c lvs :
  value (registry (handleDisconnect event c)) DisconnectionsTotal lvs
  = value (registry c) DisconnectionsTotal lvs
    + (if decide (lvs = [Event.Server event; Event.Username event;
                         enrichedReason event c]) then 1 else 0).
Proof.
  destruct (handleDisconnect_disconnections event c) as [Heq Hne].
  destruct (decide _) as [->|Hlvs]; [done|].
  unfold value. rewrite Hne by done. lia.
Qed.

Lemma step_problematic_disconnections a c lvs :
  value (registry c) DisconnectionsTotal lvs
  - value (registry c) ProblematicSessionsTotal lvs
  ≤ value (registry (step c a)) DisconnectionsTotal lvs
    - value (registry (step c a)) ProblematicSessionsTotal lvs.
Proof.
  destruct a as [order event|now o]; simpl.
  - destruct (decide (Event.Type_ event = EventUserDisconnect)) as [Hty|Hty].
    + unfold ProcessEvent. rewrite Hty. set (c0 := metric _ c).
      rewrite handleDisconnect_disconnections_value,
        handleDisconnect_problematic_value.
      assert (value (registry c0) DisconnectionsTotal lvs
              = value (registry c) DisconnectionsTotal lvs) as ->
        by (subst c0; unfold_state; by other_vec).
      assert (value (registry c0) ProblematicSessionsTotal lvs
              = value (registry c) ProblematicSessionsTotal lvs) as ->
        by (subst c0; unfold_state; by other_vec).
      destruct (countsProblematic event c0); destruct (decide _); lia.
    + unfold value.
      rewrite !ProcessEvent_lookup_other; [lia|done| |done|];
        destruct (Event.Type_ event); simpl; set_unfold; try tauto;
        intros H; repeat (destruct H as [H|H]; [discriminate H|]); done.
  - unfold value.
    rewrite !(CleanupOldDisconnects_writes now o c); [lia| |]; set_unfold;
      intros [H|[H|H]]; try discriminate H; done.
Qed.

(** X15. On every run from the initial collector, no child of the
    problematic-session counter is above the child of the disconnection
    counter with the same partition, user and reason: a problematic session
    is counted only together with its disconnection, under the same enriched
    reason. *)
Theorem problematic_sessions_are_disconnections (actions : list Action)
    (lvs : list string) :
  value (registry (run actions New)) ProblematicSessionsTotal lvs
  ≤ value (registry (run actions New)) DisconnectionsTotal lvs.
Proof.
  induction actions as [|a actions IH] using rev_ind; [done|].
  rewrite run_snoc.
  pose proof (step_problematic_disconnections a (run actions New) lvs). lia.
Qed.
